(** * imgStore: a single-file image store with content deduplication

    Shallow embedding of the imgStore core library (imgStore.h, tools.c,
    dedup.c, image_content.c, imgst_create.c, imgst_insert.c,
    imgst_delete.c, imgst_read.c) and the properties of its storage
    engine: round trip, deduplication, name collision, capacity, the
    variant cache, opening a truncated file, the version counter and the
    frame of a deletion. *)

From Stdlib Require Import ZArith QArith Qround Lia.
From Stdlib.Strings Require Import Byte.
From stdpp Require Import base list strings.

Local Open Scope Z_scope.

(** ** Constants of imgStore.h *)

Definition CAT_TXT : string := "EPFL ImgStore binary".
Definition MAX_IMGST_NAME : nat := 31.
Definition MAX_IMG_ID : nat := 127.
Definition EMPTY : Z := 0.
Definition NON_EMPTY : Z := 1.
Definition INIT_NB_FILES : Z := 0.
Definition INIT_VER : Z := 0.
Definition INIT_OFFSET : Z := 0.
Definition SHA256_DIGEST_LENGTH : nat := 32.

(** The resolution codes [RES_THUMB = 0], [RES_SMALL = 1], [RES_ORIG = 2];
    every other [int] is not a resolution. *)
Inductive resolution := RES_THUMB | RES_SMALL | RES_ORIG.

Definition code_of_resolution (r : resolution) : Z :=
  match r with RES_THUMB => 0 | RES_SMALL => 1 | RES_ORIG => 2 end.

Definition resolution_of_code (c : Z) : option resolution :=
  if c =? 0 then Some RES_THUMB
  else if c =? 1 then Some RES_SMALL
  else if c =? 2 then Some RES_ORIG
  else None.

(** Wrap-around of the [uint32_t] fields.  The [uint64_t] offsets only ever
    receive the [long] of [ftell], which they hold as it is. *)
Definition uint32 (z : Z) : Z := z mod 2 ^ 32.

(** Modelled from the spec: error.h is not among the sources.  The codes
    are the ones the source files return; section 7 of the specification
    lists their kinds. *)
Inductive error_code :=
| ERR_NONE
| ERR_IO
| ERR_OUT_OF_MEMORY
| ERR_NOT_ENOUGH_ARGUMENTS
| ERR_INVALID_COMMAND
| ERR_INVALID_ARGUMENT
| ERR_MAX_FILES
| ERR_RESOLUTIONS
| ERR_INVALID_IMGID
| ERR_FULL_IMGSTORE
| ERR_FILE_NOT_FOUND
| ERR_DUPLICATE_ID
| ERR_IMGLIB.

(** ** Data structures of imgStore.h *)

(** An array [T a[NB_RES]], indexed by resolution code. *)
Record res_array (A : Type) := ResArray { at_thumb : A; at_small : A; at_orig : A }.
Arguments ResArray {A} _ _ _.
Arguments at_thumb {A} _.
Arguments at_small {A} _.
Arguments at_orig {A} _.

Definition res_get {A} (a : res_array A) (r : resolution) : A :=
  match r with
  | RES_THUMB => at_thumb a
  | RES_SMALL => at_small a
  | RES_ORIG => at_orig a
  end.

Definition res_set {A} (a : res_array A) (r : resolution) (x : A) : res_array A :=
  match r with
  | RES_THUMB => ResArray x (at_small a) (at_orig a)
  | RES_SMALL => ResArray (at_thumb a) x (at_orig a)
  | RES_ORIG => ResArray (at_thumb a) (at_small a) x
  end.

(** [struct imgst_header].  [res_resized] holds thumbnail width and height,
    then small width and height. *)
Record imgst_header := ImgstHeader {
  imgst_name : string;
  imgst_version : Z;
  num_files : Z;
  max_files : Z;
  res_resized : list Z;
  unused_32 : Z;
  unused_64 : Z
}.

(** [struct img_metadata].  [img_id] is the C string that [strcmp],
    [strncmp] and [printf] read from the [MAX_IMG_ID + 1] characters of
    the field (see [memcpy_img_id] for a field left without its
    terminator), [res_orig] is width then height. *)
Record img_metadata := ImgMetadata {
  img_id : string;
  SHA : list byte;
  res_orig : list Z;
  size : res_array Z;
  offset : res_array Z;
  is_valid : Z;
  unused_16 : Z
}.

(** A slot as [calloc] leaves it. *)
Definition zero_metadata : img_metadata :=
  ImgMetadata EmptyString (replicate SHA256_DIGEST_LENGTH x00) [0; 0]
              (ResArray 0 0 0) (ResArray 0 0 0) 0 0.

(** Sizes of the two structures on disk (natural alignment, 64-bit). *)
Definition sizeof_imgst_header : Z := 64.
Definition sizeof_img_metadata : Z := 216.

(** ** The store file

    The contents of the file are kept as the typed regions the library
    writes: the header at offset 0, the slot records that follow it at
    offsets [sizeof_imgst_header + i * sizeof_img_metadata], and the raw
    bytes after the last record.  A file too short to hold a header is
    [Short]. *)
Inductive contents :=
| Short (bs : list byte)
| Image (h : imgst_header) (slots : list img_metadata) (heap : list byte).

(** The modes the library passes to [fopen]. *)
Inductive open_mode := RB | RBplus | WB.

Definition readable (m : open_mode) : bool :=
  match m with RB | RBplus => true | WB => false end.

Definition writable (m : open_mode) : bool :=
  match m with RBplus | WB => true | RB => false end.

Record FILE := MkFILE { f_mode : open_mode; f_data : contents }.

(** [struct imgst_file], for an open handle: [file] and [metadata] are not
    NULL, so the null-pointer checks of the library never fire. *)
Record imgst_file := ImgstFile {
  file : FILE;
  header : imgst_header;
  metadata : list img_metadata
}.

(** Offset of the first byte after the slot records present in the file. *)
Definition table_end (slots : list img_metadata) : Z :=
  sizeof_imgst_header + Z.of_nat (length slots) * sizeof_img_metadata.

(** [fseek(f, 0, SEEK_END); ftell(f)]. *)
Definition file_size (c : contents) : Z :=
  match c with
  | Short bs => Z.of_nat (length bs)
  | Image _ slots heap => table_end slots + Z.of_nat (length heap)
  end.

(** ** Field updates *)

Definition set_num_files (v : Z) (h : imgst_header) : imgst_header :=
  ImgstHeader (imgst_name h) (imgst_version h) v (max_files h)
              (res_resized h) (unused_32 h) (unused_64 h).

Definition set_imgst_version (v : Z) (h : imgst_header) : imgst_header :=
  ImgstHeader (imgst_name h) v (num_files h) (max_files h)
              (res_resized h) (unused_32 h) (unused_64 h).

Definition set_imgst_name (v : string) (h : imgst_header) : imgst_header :=
  ImgstHeader v (imgst_version h) (num_files h) (max_files h)
              (res_resized h) (unused_32 h) (unused_64 h).

Definition set_img_id (v : string) (m : img_metadata) : img_metadata :=
  ImgMetadata v (SHA m) (res_orig m) (size m) (offset m) (is_valid m) (unused_16 m).

Definition set_SHA (v : list byte) (m : img_metadata) : img_metadata :=
  ImgMetadata (img_id m) v (res_orig m) (size m) (offset m) (is_valid m) (unused_16 m).

Definition set_res_orig (v : list Z) (m : img_metadata) : img_metadata :=
  ImgMetadata (img_id m) (SHA m) v (size m) (offset m) (is_valid m) (unused_16 m).

Definition set_size (v : res_array Z) (m : img_metadata) : img_metadata :=
  ImgMetadata (img_id m) (SHA m) (res_orig m) v (offset m) (is_valid m) (unused_16 m).

Definition set_offset (v : res_array Z) (m : img_metadata) : img_metadata :=
  ImgMetadata (img_id m) (SHA m) (res_orig m) (size m) v (is_valid m) (unused_16 m).

Definition set_is_valid (v : Z) (m : img_metadata) : img_metadata :=
  ImgMetadata (img_id m) (SHA m) (res_orig m) (size m) (offset m) v (unused_16 m).

Definition set_file (f : FILE) (s : imgst_file) : imgst_file :=
  ImgstFile f (header s) (metadata s).

Definition set_header (h : imgst_header) (s : imgst_file) : imgst_file :=
  ImgstFile (file s) h (metadata s).

Definition set_metadata (md : list img_metadata) (s : imgst_file) : imgst_file :=
  ImgstFile (file s) (header s) md.

(** ** Control flow

    A library function returns an error code and leaves its effects in the
    handle.  [Ret] is falling through to the next statement (and
    [return ERR_NONE] at the end), [Exit e] an early [return e] with the
    effects made so far.  [Stuck] marks what the typed model does not
    define: an access outside the slot array, a raw read of header or slot
    bytes, a slot write that does not fall on a record of the table; and
    a call that does not return, the process being aborted by a [free] of
    an address that was never allocated. *)
Inductive result (A : Type) :=
| Ret (a : A) (s : imgst_file)
| Exit (e : error_code) (s : imgst_file)
| Stuck.
Arguments Ret {A} _ _.
Arguments Exit {A} _ _.
Arguments Stuck {A}.

Definition M (A : Type) : Type := imgst_file -> result A.

#[global] Instance M_ret : MRet M := fun A a s => Ret a s.

#[global] Instance M_bind : MBind M := fun A B f m s =>
  match m s with
  | Ret a s' => f a s'
  | Exit e s' => Exit e s'
  | Stuck => Stuck
  end.

Definition get : M imgst_file := fun s => Ret s s.
Definition put (s : imgst_file) : M unit := fun _ => Ret tt s.
Definition exit {A} (e : error_code) : M A := fun s => Exit e s.
Definition stuck {A} : M A := fun _ => Stuck.

(** Modelled from the spec: the macros of error.h, missing from the
    sources.  [M_EXIT_IF (test, err, ...)] returns [err] when [test] holds;
    [M_EXIT_IF_ERR (call)] returns the code of [call] unless it is
    [ERR_NONE], which is what sequencing in [M] does. *)
Definition M_EXIT_IF (test : bool) (e : error_code) : M unit :=
  if test then exit e else mret tt.

(** [metadata[i]] read and written in place. *)
Definition metadata_at (i : nat) : M img_metadata := fun s =>
  match metadata s !! i with
  | Some m => Ret m s
  | None => Stuck
  end.

Definition modify_metadata (i : nat) (f : img_metadata -> img_metadata) : M unit :=
  fun s =>
    match metadata s !! i with
    | Some m => Ret tt (set_metadata (<[i := f m]> (metadata s)) s)
    | None => Stuck
    end.

Definition modify_header (f : imgst_header -> imgst_header) : M unit :=
  fun s => Ret tt (set_header (f (header s)) s).

(** ** Stream primitives *)

(** [fwrite] of one header at offset 0. *)
Definition write_header (h : imgst_header) (c : contents) : contents :=
  match c with
  | Short _ => Image h [] []
  | Image _ slots heap => Image h slots heap
  end.

(** [fwrite] of one slot record at the offset of slot [idx].  Past the end
    of the file the gap reads as zeroed records. *)
Definition write_slot (idx : nat) (m : img_metadata) (c : contents) : option contents :=
  match c with
  | Short _ => None
  | Image h slots heap =>
      if bool_decide (idx < length slots)%nat then Some (Image h (<[idx := m]> slots) heap)
      else match heap with
           | [] => Some (Image h (slots ++ replicate (idx - length slots) zero_metadata ++ [m]) [])
           | _ :: _ => None
           end
  end.

(** [fwrite] of raw bytes at the end of the file. *)
Definition append_bytes (bs : list byte) (c : contents) : option contents :=
  match c with
  | Short _ => None
  | Image h slots heap => Some (Image h slots (heap ++ bs))
  end.

(** What [fread (buf, n, 1, f)] gets at offset [off]: [Some None] is a short
    read ([fread] returns 0, also when [n] is 0). *)
Definition read_bytes (off n : Z) (c : contents) : option (option (list byte)) :=
  if (n <=? 0) || (file_size c <? off + n) then Some None
  else match c with
       | Short _ => None
       | Image _ slots heap =>
           if off <? table_end slots then None
           else Some (Some (take (Z.to_nat n) (drop (Z.to_nat (off - table_end slots)) heap)))
       end.

(** ** String and digest comparison *)

(** [strcmp] and [strncmp] on C strings; only the sign of the result is
    specified, and the library only tests it against 0. *)
Fixpoint strcmp (s1 s2 : string) : Z :=
  match s1, s2 with
  | EmptyString, EmptyString => 0
  | EmptyString, String _ _ => -1
  | String _ _, EmptyString => 1
  | String c1 r1, String c2 r2 =>
      if Ascii.eqb c1 c2 then strcmp r1 r2
      else Z.of_nat (Ascii.nat_of_ascii c1) - Z.of_nat (Ascii.nat_of_ascii c2)
  end.

Fixpoint strncmp (s1 s2 : string) (n : nat) : Z :=
  match n with
  | O => 0
  | S n' =>
      match s1, s2 with
      | EmptyString, EmptyString => 0
      | EmptyString, String _ _ => -1
      | String _ _, EmptyString => 1
      | String c1 r1, String c2 r2 =>
          if Ascii.eqb c1 c2 then strncmp r1 r2 n'
          else Z.of_nat (Ascii.nat_of_ascii c1) - Z.of_nat (Ascii.nat_of_ascii c2)
      end
  end.

(** tools.c, [shaCompare]: 0 if equal, 1 if greater, -1 if smaller, over
    the [SHA256_DIGEST_LENGTH] bytes of the two digests. *)
Fixpoint shaCompare_loop (sha1 sha2 : list byte) (i fuel : nat) : Z :=
  match fuel with
  | O => 0
  | S fuel' =>
      let a := Byte.to_N (nth i sha1 x00) in
      let b := Byte.to_N (nth i sha2 x00) in
      if (b <? a)%N then 1
      else if (a <? b)%N then -1
      else shaCompare_loop sha1 sha2 (S i) fuel'
  end.

Definition shaCompare (sha1 sha2 : list byte) : Z :=
  shaCompare_loop sha1 sha2 0 SHA256_DIGEST_LENGTH.

(** ** External capabilities

    The hash primitive and the image codec (libvips) are used as given. *)
Class External := {
  SHA256 : list byte -> list byte;
  VipsImage : Type;
  Xsize : VipsImage -> Z;
  Ysize : VipsImage -> Z;
  vips_jpegload_buffer : list byte -> option VipsImage;
  vips_resize : VipsImage -> Q -> option VipsImage;
  vips_jpegsave_buffer : option VipsImage -> option (list byte)
}.

(** What [fopen] finds: the files that exist, and the paths at which a file
    can be created. *)
Record filesystem := FileSystem {
  fs_file : string -> option contents;
  fs_creatable : string -> bool
}.

Definition fopen (fs : filesystem) (name : string) (mode : open_mode) : option FILE :=
  match mode with
  | WB => if fs_creatable fs name then Some (MkFILE WB (Short [])) else None
  | RB | RBplus =>
      match fs_file fs name with
      | Some c => Some (MkFILE mode c)
      | None => None
      end
  end.

Section ImgStore.
Context `{External}.

(** ** tools.c *)

(** [updateHeader]: rewind, then overwrite the header. *)
Definition updateHeader : M unit :=
  s ← get;
  if writable (f_mode (file s))
  then put (set_file (MkFILE (f_mode (file s)) (write_header (header s) (f_data (file s)))) s)
  else exit ERR_IO.

(** [updateMetadata]: seek to the slot, then overwrite it. *)
Definition updateMetadata (idx : nat) : M unit :=
  s ← get;
  M_EXIT_IF (max_files (header s) <=? Z.of_nat idx) ERR_FILE_NOT_FOUND;;
  m ← metadata_at idx;
  if writable (f_mode (file s))
  then match write_slot idx m (f_data (file s)) with
       | Some c => put (set_file (MkFILE (f_mode (file s)) c) s)
       | None => stuck
       end
  else exit ERR_IO.

(** [validMetadataIndex]. *)
Definition validMetadataIndex (idx : nat) : M unit :=
  s ← get;
  M_EXIT_IF (max_files (header s) <=? Z.of_nat idx) ERR_INVALID_ARGUMENT;;
  m ← metadata_at idx;
  M_EXIT_IF (is_valid m =? EMPTY) ERR_INVALID_ARGUMENT.

(** The [while] of [findMetadataIndex]; [fuel] is [max_files - i]. *)
Fixpoint findMetadataIndex_loop (id : string) (i fuel : nat) : M nat :=
  match fuel with
  | O => mret i
  | S fuel' =>
      m ← metadata_at i;
      if negb (strcmp (img_id m) id =? 0) || (is_valid m =? EMPTY)
      then findMetadataIndex_loop id (S i) fuel'
      else mret i
  end.

(** A callee's error code replaced by [e]. *)
Definition or_else {A} (m : M A) (e : error_code) : M A := fun s =>
  match m s with
  | Exit _ s' => Exit e s'
  | r => r
  end.

(** A callee whose error is followed by a [free] of an address that was
    never allocated: the call returns only when the callee succeeds. *)
Definition or_abort {A} (m : M A) : M A := fun s =>
  match m s with
  | Exit _ _ => Stuck
  | r => r
  end.

Definition findMetadataIndex (id : string) : M nat :=
  s ← get;
  i ← findMetadataIndex_loop id 0 (Z.to_nat (max_files (header s)));
  or_else (validMetadataIndex i) ERR_FILE_NOT_FOUND;;
  mret i.

(** ** dedup.c *)

(** The [while] of [do_name_and_content_dedup]; [fuel] is [max_files - i]. *)
Fixpoint dedup_loop (index : nat) (i fuel : nat) (has_content_clone : bool) : M bool :=
  match fuel with
  | O => mret has_content_clone
  | S fuel' =>
      m ← metadata_at i;
      if negb (i =? index)%nat && negb (is_valid m =? 0)
      then
        mi ← metadata_at index;
        M_EXIT_IF (strncmp (img_id mi) (img_id m) MAX_IMG_ID =? 0) ERR_DUPLICATE_ID;;
        if shaCompare (SHA mi) (SHA m) =? 0
        then
          modify_metadata index (set_offset (offset m));;
          modify_metadata index (set_size (size m));;
          dedup_loop index (S i) fuel' true
        else dedup_loop index (S i) fuel' has_content_clone
      else dedup_loop index (S i) fuel' has_content_clone
  end.

Definition do_name_and_content_dedup (index : nat) : M unit :=
  s ← get;
  M_EXIT_IF (max_files (header s) <=? Z.of_nat index) ERR_INVALID_ARGUMENT;;
  has_content_clone ← dedup_loop index 0 (Z.to_nat (max_files (header s))) false;
  if negb has_content_clone
  then modify_metadata index (fun m => set_offset (res_set (offset m) RES_ORIG 0) m)
  else mret tt.

(** ** image_content.c *)

(** [fread (buf, n, 1, file)] after a seek to [off]. *)
Definition fread_at (off n : Z) : M (list byte) :=
  s ← get;
  if readable (f_mode (file s))
  then match read_bytes off n (f_data (file s)) with
       | Some (Some bs) => mret bs
       | Some None => exit ERR_IO
       | None => stuck
       end
  else exit ERR_IO.

(** [fwrite (buf, n, 1, file)] after a seek to the end of the file. *)
Definition fwrite_end (bs : list byte) : M unit :=
  s ← get;
  if writable (f_mode (file s)) && (0 <? Z.of_nat (length bs))
  then match append_bytes bs (f_data (file s)) with
       | Some c => put (set_file (MkFILE (f_mode (file s)) c) s)
       | None => stuck
       end
  else exit ERR_IO.

(** [read_vips_from_file], the stream being at offset [off]. *)
Definition read_vips_from_file (off sz : Z) : M VipsImage :=
  buffer ← fread_at off sz;
  match vips_jpegload_buffer buffer with
  | Some image => mret image
  | None => exit ERR_IMGLIB
  end.

(** [write_vips_to_file], the stream being at the end of the file; gives
    back the number of bytes written.  When the encoding or the [fwrite]
    fails, the function runs [FREE_DEREF (buffer)] on its parameter
    [buffer], which is the address of the caller's variable and not an
    allocation, before its [return]: the call does not return. *)
Definition write_vips_to_file (image : option VipsImage) : M Z :=
  match vips_jpegsave_buffer image with
  | None => stuck
  | Some buffer => or_abort (fwrite_end buffer);; mret (Z.of_nat (length buffer))
  end.

(** [shrink_value]; the two [double] quotients are taken as exact
    rationals. *)
Definition shrink_value (image : VipsImage) (max_resized_width max_resized_height : Z) : Q :=
  let h_shrink := (inject_Z max_resized_width / inject_Z (Xsize image))%Q in
  let v_shrink := (inject_Z max_resized_height / inject_Z (Ysize image))%Q in
  if negb (Qle_bool h_shrink v_shrink) then v_shrink else h_shrink.

(** [lazily_resize]. *)
Definition lazily_resize (res_code : Z) (idx : nat) : M unit :=
  if res_code =? code_of_resolution RES_ORIG then mret tt
  else match resolution_of_code res_code with
  | None => exit ERR_RESOLUTIONS
  | Some r =>
      validMetadataIndex idx;;
      m ← metadata_at idx;
      if negb (res_get (offset m) r =? INIT_OFFSET) then (mret tt : M unit)
      else
        original_image ← read_vips_from_file (res_get (offset m) RES_ORIG)
                                             (res_get (size m) RES_ORIG);
        s ← get;
        let ratio := shrink_value original_image
                       (nth (Z.to_nat (2 * res_code)) (res_resized (header s)) 0)
                       (nth (Z.to_nat (2 * res_code + 1)) (res_resized (header s)) 0) in
        let resized_image := vips_resize original_image ratio in
        let offset_new := file_size (f_data (file s)) in
        resized_size ← write_vips_to_file resized_image;
        modify_metadata idx (fun m => set_offset (res_set (offset m) r offset_new) m);;
        modify_metadata idx (fun m => set_size (res_set (size m) r (uint32 resized_size)) m);;
        updateMetadata idx
  end.

(** [get_resolution]: height, then width. *)
Definition get_resolution (image_buffer : list byte) : M (Z * Z) :=
  match vips_jpegload_buffer image_buffer with
  | None => exit ERR_IMGLIB
  | Some vipsimage => mret (uint32 (Ysize vipsimage), uint32 (Xsize vipsimage))
  end.

(** [do_open].  The slot records are read up to [max_files]; a typed file
    whose bytes after the records could still hold a whole record is not
    in the model. *)
Definition do_open (fs : filesystem) (imgst_filename open_mode : string)
  : option (error_code + imgst_file) :=
  if negb ((strcmp open_mode "rb" =? 0) || (strcmp open_mode "rb+" =? 0))
  then Some (inl ERR_INVALID_ARGUMENT)
  else
    match fopen fs imgst_filename (if strcmp open_mode "rb" =? 0 then RB else RBplus) with
    | None => Some (inl ERR_IO)
    | Some f =>
        match f_data f with
        | Short _ => Some (inl ERR_IO)
        | Image h slots heap =>
            let wanted := Z.to_nat (max_files h) in
            if bool_decide (wanted <= length slots)%nat
            then
              if 1 + Z.of_nat wanted =? uint32 (max_files h + 1)
              then Some (inr (ImgstFile f h (take wanted slots)))
              else Some (inl ERR_IO)
            else if Z.of_nat (length heap) <? sizeof_img_metadata
            then
              if 1 + Z.of_nat (length slots) =? uint32 (max_files h + 1)
              then Some (inr (ImgstFile f h (slots ++ replicate (wanted - length slots) zero_metadata)))
              else Some (inl ERR_IO)
            else None
        end
    end.

(** ** imgst_create.c *)

(** The [for] of [do_create]; [fuel] is [max_files - i]. *)
Fixpoint do_create_loop (i fuel : nat) : M unit :=
  match fuel with
  | O => mret tt
  | S fuel' => updateMetadata i;; do_create_loop (S i) fuel'
  end.

(** [do_create]; [h] carries the fields the caller has set ([max_files] and
    [res_resized]). *)
Definition do_create (fs : filesystem) (imgst_filename : string) (h : imgst_header)
  : option (error_code + imgst_file) :=
  let h' := set_num_files INIT_NB_FILES
              (set_imgst_version INIT_VER
                 (set_imgst_name (String.substring 0 MAX_IMGST_NAME CAT_TXT) h)) in
  let md := replicate (Z.to_nat (max_files h')) zero_metadata in
  match fopen fs imgst_filename WB with
  | None => Some (inl ERR_IO)
  | Some f =>
      let write : M unit :=
        updateHeader;;
        do_create_loop 0 (Z.to_nat (max_files h'));;
        M_EXIT_IF (negb (1 + Z.of_nat (Z.to_nat (max_files h')) =? uint32 (max_files h' + 1)))
                  ERR_IO in
      match write (ImgstFile f h' md) with
      | Ret _ s => Some (inr s)
      | Exit e _ => Some (inl e)
      | Stuck => None
      end
  end.

(** ** imgst_insert.c *)

(** The C string read from an array of bytes: the characters before the
    first zero byte. *)
Fixpoint c_string (bs : list byte) : string :=
  match bs with
  | [] => EmptyString
  | b :: bs' =>
      if Byte.eqb b x00 then EmptyString
      else String (Ascii.ascii_of_byte b) (c_string bs')
  end.

(** What the field [img_id] reads as after
    [memcpy (metadata[index].img_id, img_id, MAX_IMG_ID + 1)], the digest
    [SHA] being in place.  An identifier of at most [MAX_IMG_ID]
    characters is held with its terminator.  A longer one fills the field
    with its first [MAX_IMG_ID + 1] characters and leaves it without a
    terminator: [strcmp] and [printf] then read on into the digest, which
    follows the field in the structure, up to its first zero byte.  The
    model does not follow the string past the digest, into the
    resolution, when the digest holds no zero byte. *)
Definition memcpy_img_id (img_id : string) (SHA : list byte) : string :=
  if (String.length img_id <=? MAX_IMG_ID)%nat then img_id
  else String.substring 0 (MAX_IMG_ID + 1) img_id +:+
       c_string (take SHA256_DIGEST_LENGTH SHA).

(** The [while] of [do_insert] that looks for an empty slot; [fuel] is
    [max_files - index]. *)
Fixpoint do_insert_loop (index fuel : nat) : M nat :=
  match fuel with
  | O => mret index
  | S fuel' =>
      m ← metadata_at index;
      if negb (is_valid m =? 0) then do_insert_loop (S index) fuel'
      else mret index
  end.

(** [do_insert]; [image_size] is the length of [image_buffer]. *)
Definition do_insert (image_buffer : list byte) (id : string) : M unit :=
  s ← get;
  M_EXIT_IF (max_files (header s) <=? num_files (header s)) ERR_FULL_IMGSTORE;;
  index ← do_insert_loop 0 (Z.to_nat (max_files (header s)));
  modify_metadata index (set_SHA (SHA256 image_buffer));;
  modify_metadata index (set_img_id (memcpy_img_id id (SHA256 image_buffer)));;
  do_name_and_content_dedup index;;
  m ← metadata_at index;
  (if res_get (offset m) RES_ORIG =? 0
   then
     s ← get;
     let offset_endfile := file_size (f_data (file s)) in
     modify_metadata index
       (fun m => set_offset (res_set (offset m) RES_ORIG offset_endfile) m);;
     fwrite_end image_buffer
   else mret tt);;
  '(height, width) ← get_resolution image_buffer;
  modify_metadata index (set_res_orig [width; height]);;
  modify_metadata index (set_is_valid NON_EMPTY);;
  modify_metadata index
    (fun m => set_size (res_set (size m) RES_ORIG (uint32 (Z.of_nat (length image_buffer)))) m);;
  modify_header (fun h => set_imgst_version (uint32 (imgst_version h + 1)) h);;
  modify_header (fun h => set_num_files (uint32 (num_files h + 1)) h);;
  updateHeader;;
  updateMetadata index.

(** ** imgst_delete.c *)

Definition do_delete (id : string) : M unit :=
  s ← get;
  M_EXIT_IF (num_files (header s) <=? 0) ERR_FILE_NOT_FOUND;;
  idx ← findMetadataIndex id;
  modify_metadata idx (set_is_valid EMPTY);;
  updateMetadata idx;;
  modify_header (fun h => set_num_files (uint32 (num_files h - 1)) h);;
  modify_header (fun h => set_imgst_version (uint32 (imgst_version h + 1)) h);;
  updateHeader.

(** ** imgst_read.c *)

(** [do_read]; the result is the buffer and [*image_size]. *)
Definition do_read (id : string) (resolution : Z) : M (list byte * Z) :=
  match resolution_of_code resolution with
  | None => exit ERR_RESOLUTIONS
  | Some r =>
      idx ← findMetadataIndex id;
      m ← metadata_at idx;
      (if res_get (offset m) r =? INIT_OFFSET
       then lazily_resize resolution idx
       else mret tt);;
      m ← metadata_at idx;
      let image_size := res_get (size m) r in
      buffer ← fread_at (res_get (offset m) r) image_size;
      mret (buffer, image_size)
  end.

End ImgStore.
(** * The rest of the library: names, listing *)

From Stdlib Require Import DecimalString.

(** ** tools.c: resolution names and file names *)

Definition NOT_RES : Z := -1.

(** [resolution_atoi]: the code of a resolution name, [NOT_RES] for
    anything else. *)
Definition resolution_atoi (resolution : string) : Z :=
  if (strcmp "thumb" resolution =? 0) || (strcmp "thumbnail" resolution =? 0)
  then code_of_resolution RES_THUMB
  else if strcmp "small" resolution =? 0
  then code_of_resolution RES_SMALL
  else if (strcmp "orig" resolution =? 0) || (strcmp "original" resolution =? 0)
  then code_of_resolution RES_ORIG
  else NOT_RES.

(** [strcat]. *)
Definition strcat (dest src : string) : string := dest +:+ src.

(** [create_name]: image identifier, resolution suffix, extension.  The
    allocation of the new name is taken to succeed. *)
Definition create_name (img_id : string) (resolution : Z) : error_code + string :=
  if negb (resolution =? code_of_resolution RES_SMALL)
     && negb (resolution =? code_of_resolution RES_THUMB)
     && negb (resolution =? code_of_resolution RES_ORIG)
  then inl ERR_RESOLUTIONS
  else
    let res_suffix : string :=
      if resolution =? code_of_resolution RES_ORIG then "_orig"
      else if resolution =? code_of_resolution RES_SMALL then "_small"
      else "_thumb" in
    let ext : string := ".jpg" in
    inr (strcat (strcat (strcat EmptyString img_id) res_suffix) ext).

(** ** tools.c: display *)

Definition newline : string := String (Ascii.ascii_of_nat 10) EmptyString.
Definition tab : string := String (Ascii.ascii_of_nat 9) EmptyString.

(** The conversion [%u] of [printf] for the unsigned fields. *)
Definition PRIu (z : Z) : string := NilZero.string_of_uint (N.to_uint (Z.to_N z)).

(** The conversion [%31s]: right-justified in a field of 31 characters. *)
Definition pad31 (s : string) : string :=
  String.string_of_list_ascii (replicate (31 - String.length s) (Ascii.ascii_of_nat 32)) +:+ s.

(** One digit of the conversion [%02x]. *)
Definition hex_digit (n : N) : Ascii.ascii :=
  match String.get (N.to_nat n) "0123456789abcdef" with
  | Some c => c
  | None => Ascii.ascii_of_nat 102
  end.

(** The [for] of [sha_to_string]; [fuel] is [SHA256_DIGEST_LENGTH - i]. *)
Fixpoint sha_to_string_loop (SHA : list byte) (i fuel : nat) : string :=
  match fuel with
  | O => EmptyString
  | S fuel' =>
      let b := Byte.to_N (nth i SHA x00) in
      String (hex_digit (b / 16)) (String (hex_digit (b mod 16))
        (sha_to_string_loop SHA (S i) fuel'))
  end.

(** [sha_to_string]: the digest in lower-case hexadecimal. *)
Definition sha_to_string (SHA : list byte) : string :=
  sha_to_string_loop SHA 0 SHA256_DIGEST_LENGTH.

(** [print_header]: what it sends to the standard output. *)
Definition print_header (header : imgst_header) : string :=
  "*****************************************" +:+ newline +:+
  "**********IMGSTORE HEADER START**********" +:+ newline +:+
  "TYPE:" +:+ tab +:+ pad31 (imgst_name header) +:+ newline +:+
  "VERSION: " +:+ PRIu (imgst_version header) +:+ newline +:+
  "IMAGE COUNT: " +:+ PRIu (num_files header) +:+ tab +:+ tab +:+
  "MAX IMAGES: " +:+ PRIu (max_files header) +:+ newline +:+
  "THUMBNAIL: " +:+ PRIu (nth 0 (res_resized header) 0) +:+ " x " +:+
  PRIu (nth 1 (res_resized header) 0) +:+ tab +:+
  "SMALL: " +:+ PRIu (nth 2 (res_resized header) 0) +:+ " x " +:+
  PRIu (nth 3 (res_resized header) 0) +:+ newline +:+
  "***********IMGSTORE HEADER END***********" +:+ newline +:+
  "*****************************************" +:+ newline.

(** [print_metadata]: what it sends to the standard output. *)
Definition print_metadata (metadata : img_metadata) : string :=
  "IMAGE ID: " +:+ img_id metadata +:+ newline +:+
  "SHA: " +:+ sha_to_string (SHA metadata) +:+ newline +:+
  "VALID: " +:+ PRIu (is_valid metadata) +:+ newline +:+
  "UNUSED: " +:+ PRIu (unused_16 metadata) +:+ newline +:+
  "OFFSET ORIG. : " +:+ PRIu (at_orig (offset metadata)) +:+ tab +:+ tab +:+
  "SIZE ORIG. : " +:+ PRIu (at_orig (size metadata)) +:+ newline +:+
  "OFFSET THUMB.: " +:+ PRIu (at_thumb (offset metadata)) +:+ tab +:+ tab +:+
  "SIZE THUMB.: " +:+ PRIu (at_thumb (size metadata)) +:+ newline +:+
  "OFFSET SMALL : " +:+ PRIu (at_small (offset metadata)) +:+ tab +:+ tab +:+
  "SIZE SMALL : " +:+ PRIu (at_small (size metadata)) +:+ newline +:+
  "ORIGINAL: " +:+ PRIu (nth 0 (res_orig metadata) 0) +:+ " x " +:+
  PRIu (nth 1 (res_orig metadata) 0) +:+ newline +:+
  "*****************************************" +:+ newline.

(** ** imgst_list.c *)

(** The [for] of [do_list]; [fuel] is [max_files - idx].  [None] is a read
    outside the slot array. *)
Fixpoint do_list_loop (md : list img_metadata) (idx fuel : nat) : option string :=
  match fuel with
  | O => Some EmptyString
  | S fuel' =>
      m ← md !! idx;
      rest ← do_list_loop md (S idx) fuel';
      Some ((if is_valid m =? NON_EMPTY then print_metadata m else EmptyString) +:+ rest)
  end.

(** [do_list] on an open handle: what it sends to the standard output. *)
Definition do_list (imgstfile : imgst_file) : option string :=
  let banner := print_header (header imgstfile) in
  if num_files (header imgstfile) =? 0
  then Some (banner +:+ "<< empty imgStore >>" +:+ newline)
  else
    rest ← do_list_loop (metadata imgstfile) 0 (Z.to_nat (max_files (header imgstfile)));
    Some (banner +:+ rest).


(** ** imgStoreMgr.c: the commands

    A command receives [args] and [argv] as [main] passes them: [argv]
    holds at least [args] strings, the name of the command first; a read
    past the strings of [argv] is not in the model ([None]).  A command
    returns its code and the file system it leaves. *)

Definition MIN_LIST_ARGS : Z := 2.
Definition MIN_DELETE_ARGS : Z := 3.
Definition MIN_READ_ARGS : Z := 3.
Definition MIN_INSERT_ARGS : Z := 4.

(** [do_close] of the handle opened on [name]: the stream is closed, and
    the file holds what was written through it. *)
Definition do_close (fs : filesystem) (name : string) (imgstfile : imgst_file) : filesystem :=
  FileSystem
    (fun n => if String.eqb n name then Some (f_data (file imgstfile)) else fs_file fs n)
    (fs_creatable fs).

(** The test made on the [imgID] argument of a command. *)
Definition invalid_img_id (img_id : string) : bool :=
  (String.length img_id =? 0)%nat || (MAX_IMG_ID <? String.length img_id)%nat.

Section Commands.
Context `{External}.

(** [do_list_cmd]: the code, the file system, and what went to the
    standard output. *)
Definition do_list_cmd (args : Z) (argv : list string) (fs : filesystem)
  : option (error_code * filesystem * string) :=
  if args <? MIN_LIST_ARGS then Some (ERR_NOT_ENOUGH_ARGUMENTS, fs, EmptyString)
  else
    filename ← argv !! 1%nat;
    opened ← do_open fs filename "rb";
    match opened with
    | inl e => Some (e, fs, EmptyString)
    | inr imgstfile =>
        out ← do_list imgstfile;
        Some (ERR_NONE, do_close fs filename imgstfile, out)
    end.

(** [do_delete_cmd]. *)
Definition do_delete_cmd (args : Z) (argv : list string) (fs : filesystem)
  : option (error_code * filesystem) :=
  if args <? MIN_DELETE_ARGS then Some (ERR_NOT_ENOUGH_ARGUMENTS, fs)
  else
    filename ← argv !! 1%nat;
    img_id ← argv !! 2%nat;
    if invalid_img_id img_id then Some (ERR_INVALID_IMGID, fs)
    else
      opened ← do_open fs filename "rb+";
      match opened with
      | inl e => Some (e, fs)
      | inr imgstfile =>
          match do_delete img_id imgstfile with
          | Ret _ imgstfile' => Some (ERR_NONE, do_close fs filename imgstfile')
          | Exit e imgstfile' => Some (e, do_close fs filename imgstfile')
          | Stuck => None
          end
      end.

(** [do_read_cmd]: the code, the file system, and the file it has written
    beside, as its name and its bytes.  The image file is written while
    the store is still open: a store that goes by the name of the image
    file, and a name at which no file can be created (the stream is then
    used without a test), are not in the model. *)
Definition do_read_cmd (args : Z) (argv : list string) (fs : filesystem)
  : option (error_code * filesystem * option (string * list byte)) :=
  if args <? MIN_READ_ARGS then Some (ERR_NOT_ENOUGH_ARGUMENTS, fs, None)
  else
    imgstore_filename ← argv !! 1%nat;
    img_id ← argv !! 2%nat;
    if invalid_img_id img_id then Some (ERR_INVALID_IMGID, fs, None)
    else
      resolution ← (if MIN_READ_ARGS + 1 <=? args
                    then resolution_atoi <$> argv !! 3%nat
                    else Some (code_of_resolution RES_ORIG));
      if resolution =? NOT_RES then Some (ERR_RESOLUTIONS, fs, None)
      else
        opened ← do_open fs imgstore_filename "rb+";
        match opened with
        | inl e => Some (e, fs, None)
        | inr imgstfile =>
            match do_read img_id resolution imgstfile with
            | Stuck => None
            | Exit e imgstfile' => Some (e, do_close fs imgstore_filename imgstfile', None)
            | Ret (image_buffer, image_size) imgstfile' =>
                match create_name img_id resolution with
                | inl e => Some (e, do_close fs imgstore_filename imgstfile', None)
                | inr new_name =>
                    if String.eqb new_name imgstore_filename then None
                    else if fs_creatable fs new_name
                    then Some (ERR_NONE, do_close fs imgstore_filename imgstfile',
                               Some (new_name, take (Z.to_nat image_size) image_buffer))
                    else None
                end
            end
        end.

(** [do_insert_cmd]; [images] gives the bytes of the files that [fopen]
    opens for reading.  The allocation of the buffer is taken to succeed;
    an image file of no bytes, for which what [calloc] returns is left to
    the implementation, is not in the model. *)
Definition do_insert_cmd (args : Z) (argv : list string) (fs : filesystem)
    (images : string -> option (list byte)) : option (error_code * filesystem) :=
  if args <? MIN_INSERT_ARGS then Some (ERR_NOT_ENOUGH_ARGUMENTS, fs)
  else
    imgstore_filename ← argv !! 1%nat;
    img_id ← argv !! 2%nat;
    if invalid_img_id img_id then Some (ERR_INVALID_IMGID, fs)
    else
      filename ← argv !! 3%nat;
      opened ← do_open fs imgstore_filename "rb+";
      match opened with
      | inl e => Some (e, fs)
      | inr imgstfile =>
          if max_files (header imgstfile) <=? num_files (header imgstfile)
          then Some (ERR_FULL_IMGSTORE, do_close fs imgstore_filename imgstfile)
          else
            match images filename with
            | None => Some (ERR_IO, do_close fs imgstore_filename imgstfile)
            | Some [] => None
            | Some image_buffer =>
                match do_insert image_buffer img_id imgstfile with
                | Ret _ imgstfile' => Some (ERR_NONE, do_close fs imgstore_filename imgstfile')
                | Exit e imgstfile' => Some (e, do_close fs imgstore_filename imgstfile')
                | Stuck => None
                end
            end
      end.

End Commands.

(** * Vocabulary of the properties *)

(** The state a call leaves, when the model defines it. *)
Definition final {A} (r : result A) : option imgst_file :=
  match r with
  | Ret _ s | Exit _ s => Some s
  | Stuck => None
  end.

(** A slot is valid when its flag is not [EMPTY]. *)
Definition valid (m : img_metadata) : Prop := is_valid m <> EMPTY.

#[global] Instance valid_dec m : Decision (valid m).
Proof. unfold valid. apply _. Defined.

(** The number of slots whose flag says valid. *)
Definition count_valid (md : list img_metadata) : Z :=
  Z.of_nat (length (filter valid md)).

(** The slot table of the handle has [max_files] slots, and the file holds
    a header and as many slot records: the state [do_create] and [do_open]
    leave. *)
Definition handle_ok (s : imgst_file) : Prop :=
  max_files (header s) = Z.of_nat (length (metadata s)) /\
  exists h slots heap,
    f_data (file s) = Image h slots heap /\ length slots = length (metadata s).

(** The header and the valid slots of the handle are what the file holds. *)
Definition mirrored (s : imgst_file) : Prop :=
  exists slots heap,
    f_data (file s) = Image (header s) slots heap /\
    length slots = length (metadata s) /\
    forall i m, metadata s !! i = Some m -> valid m -> slots !! i = Some m.

(** The bytes a slot designates as its original image. *)
Definition stored_original (s : imgst_file) (m : img_metadata) : option (option (list byte)) :=
  read_bytes (at_orig (offset m)) (at_orig (size m)) (f_data (file s)).

(** The raw bytes after the slot table. *)
Definition heap_of (s : imgst_file) : list byte :=
  match f_data (file s) with
  | Short _ => []
  | Image _ _ heap => heap
  end.

(** The slot records held by the file. *)
Definition slots_of (s : imgst_file) : list img_metadata :=
  match f_data (file s) with
  | Short _ => []
  | Image _ slots _ => slots
  end.

(** The header held by the file. *)
Definition header_of (s : imgst_file) : option imgst_header :=
  match f_data (file s) with
  | Short _ => None
  | Image h _ _ => Some h
  end.

(** What holds of a store between two calls: the table is in place, the
    stream takes writes, the capacity fits its 32 bits, [num_files] counts
    the valid slots, and the file holds the header of the handle and slots
    with the same validity flags. *)
Definition store_inv (s : imgst_file) : Prop :=
  handle_ok s /\
  writable (f_mode (file s)) = true /\
  0 <= max_files (header s) < 2 ^ 32 /\
  num_files (header s) = count_valid (metadata s) /\
  header_of s = Some (header s) /\
  is_valid <$> slots_of s = is_valid <$> metadata s.

(** Slot [k], other than [index], is valid and carries the identifier [id]
    (on its first [MAX_IMG_ID] characters), resp. the digest [sha]. *)
Definition same_id_at (md : list img_metadata) (index : nat) (id : string) (k : nat) : Prop :=
  k <> index /\
  exists mk, md !! k = Some mk /\ valid mk /\ strncmp id (img_id mk) MAX_IMG_ID = 0.

Definition same_content_at (md : list img_metadata) (index : nat) (sha : list byte) (k : nat)
  : Prop :=
  k <> index /\
  exists mk, md !! k = Some mk /\ valid mk /\ shaCompare sha (SHA mk) = 0.

Section Vocabulary.
Context `{External}.

(** Every valid slot designates bytes of the heap, at a non-zero offset,
    whose digest is the one the slot records. *)
Definition originals_ok (s : imgst_file) : Prop :=
  forall i m, metadata s !! i = Some m -> valid m ->
    at_orig (offset m) <> 0 /\
    exists bs, stored_original s m = Some (Some bs) /\ SHA m = SHA256 bs.

(** No stored original other than [C] itself has the digest of [C]. *)
Definition collision_free (C : list byte) (s : imgst_file) : Prop :=
  forall i m bs, metadata s !! i = Some m -> valid m ->
    stored_original s m = Some (Some bs) ->
    shaCompare (SHA256 C) (SHA256 bs) = 0 -> bs = C.

(** The file keeps its header and slot records and may have gained bytes
    at its end. *)
Definition grows (c c' : contents) : Prop :=
  match c, c' with
  | Image h slots heap, Image h' slots' heap' =>
      h' = h /\ slots' = slots /\ exists appended, heap' = heap ++ appended
  | Short bs, Short bs' => bs' = bs
  | _, _ => False
  end.

(** What a failed insertion may leave behind: the header, the validity of
    every slot and the header and slot records of the file are as before. *)
Definition scratched (s s' : imgst_file) : Prop :=
  header s' = header s /\
  f_mode (file s') = f_mode (file s) /\
  grows (f_data (file s)) (f_data (file s')) /\
  is_valid <$> metadata s' = is_valid <$> metadata s.

(** The header after a deletion. *)
Definition deleted_header (h : imgst_header) : imgst_header :=
  set_imgst_version (uint32 (imgst_version h + 1))
    (set_num_files (uint32 (num_files h - 1)) h).

(** The header after an insertion. *)
Definition inserted_header (h : imgst_header) : imgst_header :=
  set_num_files (uint32 (num_files h + 1))
    (set_imgst_version (uint32 (imgst_version h + 1)) h).

(** The slot an insertion leaves: [m0] is the slot as it was found, [o]
    and [z] the offset and size tables the deduplication decided. *)
Definition inserted_slot (image_buffer : list byte) (id : string) (image : VipsImage)
    (o z : res_array Z) (m0 : img_metadata) : img_metadata :=
  ImgMetadata (memcpy_img_id id (SHA256 image_buffer)) (SHA256 image_buffer)
    [uint32 (Xsize image); uint32 (Ysize image)]
    (res_set z RES_ORIG (uint32 (Z.of_nat (length image_buffer))))
    o NON_EMPTY (unused_16 m0).

(** What the deduplication decides for the slot [index] that held [m0]:
    the tables [o] and [z], and the bytes appended to the file.  Either no
    other valid slot has the digest of the new content, or the tables of
    the last such slot are taken (and the content still appended when that
    slot has no original). *)
Definition insert_tables (s : imgst_file) (index : nat) (image_buffer : list byte)
    (m0 : img_metadata) (o z : res_array Z) (appended : list byte) : Prop :=
  let sha := SHA256 image_buffer in
  let n := Z.to_nat (max_files (header s)) in
  let end_of_file := file_size (f_data (file s)) in
  ((forall k, (k < n)%nat -> ~ same_content_at (metadata s) index sha k) /\
   o = res_set (offset m0) RES_ORIG end_of_file /\ z = size m0 /\
   appended = image_buffer /\ image_buffer <> []) \/
  (exists k mk,
     (k < n)%nat /\ k <> index /\ metadata s !! k = Some mk /\ valid mk /\
     shaCompare sha (SHA mk) = 0 /\
     (forall k', (k < k' < n)%nat -> ~ same_content_at (metadata s) index sha k') /\
     z = size mk /\
     ((at_orig (offset mk) <> 0 /\ o = offset mk /\ appended = []) \/
      (at_orig (offset mk) = 0 /\ o = res_set (offset mk) RES_ORIG end_of_file /\
       appended = image_buffer /\ image_buffer <> []))).

(** The slot a materialization leaves: the variant [r] of [m] now lies at
    [off] and takes [len] bytes. *)
Definition materialized_slot (r : resolution) (off len : Z) (m : img_metadata) : img_metadata :=
  set_size (res_set (size m) r (uint32 len)) (set_offset (res_set (offset m) r off) m).

(** The bytes [lazily_resize] appends for the variant of code [res_code]
    of an original [original]: decoded, resized by the ratio of
    [shrink_value] for the target box of the header, encoded. *)
Definition resized_variant (h : imgst_header) (res_code : Z) (original : list byte)
  : option (list byte) :=
  match vips_jpegload_buffer original with
  | None => None
  | Some image =>
      vips_jpegsave_buffer
        (vips_resize image
           (shrink_value image
              (nth (Z.to_nat (2 * res_code)) (res_resized h) 0)
              (nth (Z.to_nat (2 * res_code + 1)) (res_resized h) 0)))
  end.

(** The states a store goes through: created, then any sequence of
    insertions and deletions, whether they succeed or fail, the file being
    possibly closed and opened again with "rb+" in between. *)
Inductive reachable : imgst_file -> Prop :=
| reachable_create fs name h s :
    0 <= max_files h < 2 ^ 32 ->
    do_create fs name h = Some (inr s) ->
    reachable s
| reachable_insert s image_buffer id s' :
    reachable s ->
    final (do_insert image_buffer id s) = Some s' ->
    reachable s'
| reachable_delete s id s' :
    reachable s ->
    final (do_delete id s) = Some s' ->
    reachable s'
| reachable_reopen s fs name s' :
    reachable s ->
    fs_file fs name = Some (f_data (file s)) ->
    do_open fs name "rb+" = Some (inr s') ->
    reachable s'.

End Vocabulary.
(** * Vocabulary of the further properties *)

(** The names a resolution goes by on the command line. *)
Definition names_of (r : resolution) : list string :=
  match r with
  | RES_THUMB => ["thumb"; "thumbnail"]
  | RES_SMALL => ["small"]
  | RES_ORIG => ["orig"; "original"]
  end.

(** No valid slot of the handle carries the identifier [id]. *)
Definition absent (id : string) (s : imgst_file) : Prop :=
  forall i m, metadata s !! i = Some m -> valid m -> img_id m <> id.

(** Slot [idx], which holds [m], is the first valid slot that carries the
    identifier [id]. *)
Definition found_at (id : string) (s : imgst_file) (idx : nat) (m : img_metadata) : Prop :=
  metadata s !! idx = Some m /\ img_id m = id /\ valid m /\
  forall k mk, (k < idx)%nat -> metadata s !! k = Some mk -> img_id mk = id -> ~ valid mk.

(** [s'] is [s] after the variant [r] of the valid slot [idx] has been
    materialized: the bytes [variant] appended to the file, and their
    place and length recorded in the slot, in the handle and in the file. *)
Definition materialized_at (s s' : imgst_file) (idx : nat) (m : img_metadata)
    (r : resolution) (variant : list byte) : Prop :=
  metadata s !! idx = Some m /\ valid m /\ r <> RES_ORIG /\ res_get (offset m) r = 0 /\
  variant <> [] /\
  exists hd slots heap,
    f_data (file s) = Image hd slots heap /\ (idx < length slots)%nat /\
    let mm := materialized_slot r (file_size (f_data (file s)))
                (Z.of_nat (length variant)) m in
    s' = ImgstFile (MkFILE (f_mode (file s)) (Image hd (<[idx := mm]> slots) (heap ++ variant)))
                   (header s) (<[idx := mm]> (metadata s)).

Definition materialized (s s' : imgst_file) : Prop :=
  exists idx m r variant, materialized_at s s' idx m r variant.

(** No two valid slots carry the same identifier. *)
Definition unique_ids (s : imgst_file) : Prop :=
  forall i j mi mj,
    metadata s !! i = Some mi -> metadata s !! j = Some mj ->
    valid mi -> valid mj -> img_id mi = img_id mj -> i = j.

(** Every validity flag is [EMPTY] or [NON_EMPTY]. *)
Definition flags_ok (s : imgst_file) : Prop :=
  forall i m, metadata s !! i = Some m -> is_valid m = EMPTY \/ is_valid m = NON_EMPTY.

(** A store in order: the invariant of the counts, every valid slot of
    the handle also in the file, identifiers that tell the images apart,
    and flags that are 0 or 1. *)
Definition store_wf (s : imgst_file) : Prop :=
  store_inv s /\ mirrored s /\ unique_ids s /\ flags_ok s.

(** What a failed insertion leaves: the header, the mode and the records
    of the file as they were, the file possibly longer, and at most one
    slot of the handle changed, which was free and still is. *)
Definition failed_insert (s s' : imgst_file) : Prop :=
  header s' = header s /\ f_mode (file s') = f_mode (file s) /\
  grows (f_data (file s)) (f_data (file s')) /\
  (metadata s' = metadata s \/
   exists index m0 m',
     metadata s !! index = Some m0 /\ is_valid m0 = 0 /\ is_valid m' = 0 /\
     metadata s' = <[index := m']> (metadata s)).

(** The calls of the library on an open handle. *)
Inductive call :=
| Insert (image_buffer : list byte) (img_id : string)
| Delete (img_id : string)
| Read (img_id : string) (resolution : Z)
| Resize (res_code : Z) (idx : nat).

Section Calls.
Context `{External}.

(** The handle a call leaves, whether it returns [ERR_NONE] or an error. *)
Definition run (c : call) (s : imgst_file) : option imgst_file :=
  match c with
  | Insert image_buffer img_id => final (do_insert image_buffer img_id s)
  | Delete img_id => final (do_delete img_id s)
  | Read img_id resolution => final (do_read img_id resolution s)
  | Resize res_code idx => final (lazily_resize res_code idx s)
  end.

End Calls.

(** What [do_list] shows of a slot table: the display of each valid slot,
    in the order of the table. *)
Definition listing (md : list img_metadata) : string :=
  foldr (fun m rest => print_metadata m +:+ rest) EmptyString (filter valid md).


(** The resolution a [read] command line asks for: the one its fourth
    string names, the original when there is no fourth string. *)
Definition asks_for (args : Z) (argv : list string) (r : resolution) : Prop :=
  (args = MIN_READ_ARGS /\ r = RES_ORIG) \/
  (MIN_READ_ARGS < args /\ exists name, argv !! 3%nat = Some name /\ name ∈ names_of r).

(** The name of the file for the variant [r] of an image. *)
Definition name_of_image (img_id : string) (r : resolution) : string :=
  (img_id +:+ match r with
              | RES_THUMB => "_thumb"
              | RES_SMALL => "_small"
              | RES_ORIG => "_orig"
              end) +:+ ".jpg".

(** The file [store] of [fs] is the file of a store in order, whose
    capacity leaves the count of the records read by [do_open] in its 32
    bits. *)
Definition holds_store `{External} (fs : filesystem) (store : string) : Prop :=
  exists s,
    fs_file fs store = Some (f_data (file s)) /\ store_wf s /\
    max_files (header s) < 2 ^ 32 - 1.

(** * A small instance

    A digest and a codec small enough to run the library on concrete
    stores: the digest is the first 32 bytes of the content, an image is
    its marker byte followed by its width and its height. *)

Definition byte_of_Z (z : Z) : byte :=
  match Byte.of_N (Z.to_N (z mod 256)) with
  | Some b => b
  | None => x00
  end.

Definition small_external : External := {|
  SHA256 := fun bs => take SHA256_DIGEST_LENGTH (bs ++ replicate SHA256_DIGEST_LENGTH x00);
  VipsImage := Z * Z;
  Xsize := fst;
  Ysize := snd;
  vips_jpegload_buffer := fun bs =>
    match bs with
    | xff :: w :: h :: _ => Some (Z.of_N (Byte.to_N w), Z.of_N (Byte.to_N h))
    | _ => None
    end;
  vips_resize := fun image ratio =>
    Some (Qfloor (inject_Z (fst image) * ratio), Qfloor (inject_Z (snd image) * ratio));
  vips_jpegsave_buffer := fun image =>
    match image with
    | Some (w, h) => Some [xff; byte_of_Z w; byte_of_Z h]
    | None => None
    end
|}.

Section SmallStores.
#[local] Existing Instance small_external.

(** A file system where any file can be created and none exists yet. *)
Definition empty_fs : filesystem := FileSystem (fun _ => None) (fun _ => true).

(** The header a caller hands to [do_create]: capacity and target boxes. *)
Definition caller_header (capacity : Z) : imgst_header :=
  ImgstHeader EmptyString 0 0 capacity [64; 64; 256; 256] 0 0.

Definition nowhere : imgst_file := ImgstFile (MkFILE RB (Short [])) (caller_header 0) [].

Definition state_of {A} (r : result A) : imgst_file :=
  match r with
  | Ret _ s | Exit _ s => s
  | Stuck => nowhere
  end.

(** The handle [do_create] leaves for a store of [capacity] slots. *)
Definition created (capacity : Z) : imgst_file :=
  match do_create empty_fs "store" (caller_header capacity) with
  | Some (inr s) => s
  | _ => nowhere
  end.

(** The same store behind a stream opened with "rb+". *)
Definition reopened (s : imgst_file) : imgst_file :=
  set_file (MkFILE RBplus (f_data (file s))) s.

(** An empty store of two slots. *)
Definition store2 : imgst_file := reopened (created 2).

(** A 32 x 32 image and a 200 x 100 one. *)
Definition image_a : list byte := [xff; x20; x20; x01].
Definition image_b : list byte := [xff; xc8; x64; x02].


(** [store2] after the insertion of [image_a] as "a", then again as "b",
    then after the deletion of "a". *)
Definition store2_a : imgst_file := state_of (do_insert image_a "a" store2).
Definition store2_ab : imgst_file := state_of (do_insert image_a "b" store2_a).
Definition store2_b : imgst_file := state_of (do_delete "a" store2_ab).


(** [created 2] and [created 1] after the insertion of [image_a] as "a". *)
Definition created2_a : imgst_file := state_of (do_insert image_a "a" (created 2)).
Definition created1_a : imgst_file := state_of (do_insert image_a "a" (created 1)).

(** A file whose header announces two slots and that holds one. *)
Definition truncated_fs : filesystem :=
  FileSystem
    (fun name =>
       if String.eqb name "store"
       then Some (Image (header store2) [zero_metadata] [])
       else None)
    (fun _ => true).

End SmallStores.
(** * More small stores *)

Section MoreSmallStores.
#[local] Existing Instance small_external.

(** The same store behind a stream opened with "rb". *)
Definition read_only (s : imgst_file) : imgst_file :=
  set_file (MkFILE RB (f_data (file s))) s.

(** A file system that holds the file of [s] under the name "store". *)
Definition holding (s : imgst_file) : filesystem :=
  FileSystem
    (fun name => if String.eqb name "store" then Some (f_data (file s)) else None)
    (fun _ => true).

(** The slot of "a" in [store2_a]. *)
Definition slot_a : img_metadata := default zero_metadata (metadata store2_a !! 0%nat).

(** The thumbnail of [image_a] (64 x 64) and the one of [image_b]
    (64 x 32), as the small codec encodes them. *)
Definition thumb_a : list byte := [xff; x40; x40].
Definition thumb_b : list byte := [xff; x40; x20].

(** Bytes that the small codec does not read as an image. *)
Definition not_an_image : list byte := [x00; x01; x02].

(** [store2_a] after a read of the thumbnail of "a", then after the
    deletion of "a", then after the insertion of [image_b] as "b". *)
Definition store2_a_thumb : imgst_file :=
  state_of (do_read "a" (code_of_resolution RES_THUMB) store2_a).
Definition store2_freed : imgst_file := state_of (do_delete "a" store2_a_thumb).
Definition store2_reused : imgst_file := state_of (do_insert image_b "b" store2_freed).

(** [store2_a] after the insertion of [image_b] as "b". *)
Definition store2_a_b : imgst_file := state_of (do_insert image_b "b" store2_a).

(** The image files of the directory: "a.jpg" holds [image_a]. *)
Definition image_files (name : string) : option (list byte) :=
  if String.eqb name "a.jpg" then Some image_a else None.

End MoreSmallStores.


(** * Proofs *)

Section Proofs.
Context `{External}.

#[local] Arguments res_set : simpl never.
#[local] Arguments res_get : simpl never.
#[local] Arguments set_offset : simpl never.
#[local] Arguments set_size : simpl never.
#[local] Arguments set_SHA : simpl never.
#[local] Arguments set_img_id : simpl never.
#[local] Arguments set_res_orig : simpl never.
#[local] Arguments set_is_valid : simpl never.
#[local] Arguments set_num_files : simpl never.
#[local] Arguments set_imgst_version : simpl never.
#[local] Arguments file_size : simpl never.
#[local] Arguments uint32 : simpl never.

(** ** Strings and digests *)

Lemma strcmp_refl s : strcmp s s = 0.
Proof. induction s as [|c s IH]; simpl; [done|]. by rewrite Ascii.eqb_refl. Qed.

Lemma strcmp_eq s t : strcmp s t = 0 -> s = t.
Proof.
  revert t. induction s as [|c s IH]; intros [|d t]; simpl; try done.
  destruct (Ascii.eqb c d) eqn:E.
  - apply Ascii.eqb_eq in E as ->. intros Hs. f_equal. by apply IH.
  - intros Hd. apply Ascii.eqb_neq in E. exfalso. apply E.
    rewrite <- (Ascii.ascii_nat_embedding c), <- (Ascii.ascii_nat_embedding d).
    f_equal. lia.
Qed.

Lemma strncmp_refl s n : strncmp s s n = 0.
Proof.
  revert s. induction n as [|n IH]; intros [|c s]; simpl; try done.
  by rewrite Ascii.eqb_refl.
Qed.

Lemma length_substring k s :
  String.length (String.substring 0 k s) = (k `min` String.length s)%nat.
Proof.
  revert s. induction k as [|k IH]; intros [|c s]; simpl; try done. by rewrite IH.
Qed.

Lemma strncmp_substring s x n k :
  (n <= k)%nat -> strncmp (String.substring 0 k s) x n = strncmp s x n.
Proof.
  revert s x k. induction n as [|n IH]; intros s x k Hk.
  { by destruct s, k. }
  destruct k as [|k]; [lia|].
  destruct s as [|c s], x as [|d x]; simpl; try done.
  destruct (Ascii.eqb c d); [|done]. apply IH. lia.
Qed.

Lemma strncmp_app_l s t x n :
  (n <= String.length s)%nat -> strncmp (s +:+ t) x n = strncmp s x n.
Proof.
  revert s x. induction n as [|n IH]; intros s x Hn.
  { destruct s; [|done]. by destruct t. }
  destruct s as [|c s]; [simpl in Hn; lia|].
  change (String c s +:+ t) with (String c (s +:+ t)).
  destruct x as [|d x]; simpl; [done|].
  destruct (Ascii.eqb c d); [|done]. apply IH. simpl in Hn. lia.
Qed.

Lemma strncmp_substring_r s x n k :
  (n <= k)%nat -> strncmp x (String.substring 0 k s) n = strncmp x s n.
Proof.
  revert s x k. induction n as [|n IH]; intros s x k Hk.
  { by destruct x. }
  destruct k as [|k]; [lia|].
  destruct s as [|c s], x as [|d x]; simpl; try done.
  destruct (Ascii.eqb d c); [|done]. apply IH. lia.
Qed.

Lemma strncmp_app_r s t x n :
  (n <= String.length s)%nat -> strncmp x (s +:+ t) n = strncmp x s n.
Proof.
  revert s x. induction n as [|n IH]; intros s x Hn.
  { by destruct x. }
  destruct s as [|c s]; [simpl in Hn; lia|].
  change (String c s +:+ t) with (String c (s +:+ t)).
  destruct x as [|d x]; simpl; [done|].
  destruct (Ascii.eqb d c); [|done]. apply IH. simpl in Hn. lia.
Qed.

Lemma memcpy_img_id_short id sha :
  (String.length id <= MAX_IMG_ID)%nat -> memcpy_img_id id sha = id.
Proof.
  intros Hid. unfold memcpy_img_id.
  by destruct (Nat.leb_spec (String.length id) MAX_IMG_ID); [|lia].
Qed.

Lemma strncmp_memcpy_img_id id sha x :
  strncmp (memcpy_img_id id sha) x MAX_IMG_ID = strncmp id x MAX_IMG_ID.
Proof.
  unfold memcpy_img_id.
  destruct (Nat.leb_spec (String.length id) MAX_IMG_ID) as [|Hlong]; [done|].
  rewrite strncmp_app_l by (rewrite length_substring; lia).
  apply strncmp_substring. lia.
Qed.

Lemma strncmp_memcpy_img_id_r id sha x :
  strncmp x (memcpy_img_id id sha) MAX_IMG_ID = strncmp x id MAX_IMG_ID.
Proof.
  unfold memcpy_img_id.
  destruct (Nat.leb_spec (String.length id) MAX_IMG_ID) as [|Hlong]; [done|].
  rewrite strncmp_app_r by (rewrite length_substring; lia).
  apply strncmp_substring_r. lia.
Qed.

Lemma same_id_at_memcpy_img_id md index id sha k :
  same_id_at md index (memcpy_img_id id sha) k <-> same_id_at md index id k.
Proof. unfold same_id_at. by setoid_rewrite strncmp_memcpy_img_id. Qed.



(** ** Control flow *)

Lemma bind_Ret_inv {A B} (m : M A) (f : A -> M B) s b s' :
  (m ≫= f) s = Ret b s' -> exists a s1, m s = Ret a s1 /\ f a s1 = Ret b s'.
Proof.
  unfold mbind, M_bind. destruct (m s) as [a s1| |]; try discriminate; eauto.
Qed.

Lemma bind_Exit_inv {A B} (m : M A) (f : A -> M B) s e s' :
  (m ≫= f) s = Exit e s' ->
  m s = Exit e s' \/ exists a s1, m s = Ret a s1 /\ f a s1 = Exit e s'.
Proof.
  unfold mbind, M_bind. destruct (m s) as [a s1| |]; try discriminate; eauto.
  intros [= -> ->]. by left.
Qed.

Lemma bind_Ret_eq {A B} (m : M A) (f : A -> M B) s a s1 :
  m s = Ret a s1 -> (m ≫= f) s = f a s1.
Proof. unfold mbind, M_bind. by intros ->. Qed.

Lemma bind_Exit_eq {A B} (m : M A) (f : A -> M B) s e s1 :
  m s = Exit e s1 -> (m ≫= f) s = Exit e s1.
Proof. unfold mbind, M_bind. by intros ->. Qed.

Lemma or_abort_Ret {A} (m : M A) s a s' : or_abort m s = Ret a s' -> m s = Ret a s'.
Proof. unfold or_abort. by destruct (m s). Qed.

Lemma or_abort_Exit {A} (m : M A) s e s' : or_abort m s <> Exit e s'.
Proof. unfold or_abort. by destruct (m s). Qed.

Lemma or_abort_eq {A} (m : M A) s a s' : m s = Ret a s' -> or_abort m s = Ret a s'.
Proof. unfold or_abort. by intros ->. Qed.

Lemma get_eq s : get s = Ret s s.
Proof. done. Qed.

Lemma M_EXIT_IF_Ret b e s u s' : M_EXIT_IF b e s = Ret u s' -> b = false /\ s' = s.
Proof. destruct b; simpl; [done|]. by intros [= _ <-]. Qed.

Lemma M_EXIT_IF_Exit b e s e' s' : M_EXIT_IF b e s = Exit e' s' -> b = true /\ e' = e /\ s' = s.
Proof. destruct b; simpl; [|done]. by intros [= <- <-]. Qed.

Lemma M_EXIT_IF_false e s : M_EXIT_IF false e s = Ret tt s.
Proof. done. Qed.

Lemma M_EXIT_IF_true e s : M_EXIT_IF true e s = Exit e s.
Proof. done. Qed.

Lemma metadata_at_Ret i s m s' :
  metadata_at i s = Ret m s' -> metadata s !! i = Some m /\ s' = s.
Proof. unfold metadata_at. destruct (metadata s !! i); [|done]. by intros [= <- <-]. Qed.

Lemma metadata_at_eq i s m : metadata s !! i = Some m -> metadata_at i s = Ret m s.
Proof. unfold metadata_at. by intros ->. Qed.

Lemma metadata_at_Exit i s e s' : metadata_at i s = Exit e s' -> False.
Proof. unfold metadata_at. by destruct (metadata s !! i). Qed.

Lemma modify_metadata_Ret i f s u s' :
  modify_metadata i f s = Ret u s' ->
  exists m, metadata s !! i = Some m /\ s' = set_metadata (<[i := f m]> (metadata s)) s.
Proof.
  unfold modify_metadata. destruct (metadata s !! i) as [m|]; [|done].
  intros [= _ <-]. eauto.
Qed.

Lemma modify_metadata_eq i f s m :
  metadata s !! i = Some m ->
  modify_metadata i f s = Ret tt (set_metadata (<[i := f m]> (metadata s)) s).
Proof. unfold modify_metadata. by intros ->. Qed.

Lemma modify_metadata_Exit i f s e s' : modify_metadata i f s = Exit e s' -> False.
Proof. unfold modify_metadata. by destruct (metadata s !! i). Qed.

(** Steps through a hypothesis [H : m s = Ret _ _] of a sequence. *)
Ltac step_with H a H1 :=
  let s1 := fresh "s" in
  apply bind_Ret_inv in H as (a & s1 & H1 & H);
  first
    [ apply M_EXIT_IF_Ret in H1 as [H1 ->]
    | apply metadata_at_Ret in H1 as [H1 ->]
    | (rewrite get_eq in H1; injection H1 as <- <-)
    | idtac ].

Tactic Notation "step" hyp(H) "as" ident(a) ident(H1) := step_with H a H1.
Tactic Notation "step" hyp(H) :=
  let a := fresh "a" in let H1 := fresh "Hstep" in step_with H a H1.

(** ** The scans of the slot table *)

Lemma valid_iff m : valid m <-> (is_valid m =? 0) = false.
Proof. unfold valid, EMPTY. by rewrite Z.eqb_neq. Qed.

Lemma do_insert_loop_Ret fuel index s j s' :
  do_insert_loop index fuel s = Ret j s' ->
  s' = s /\ (index <= j <= index + fuel)%nat /\
  (forall k, (index <= k < j)%nat -> exists m, metadata s !! k = Some m /\ valid m) /\
  ((j < index + fuel)%nat -> exists m, metadata s !! j = Some m /\ is_valid m = 0).
Proof.
  revert index. induction fuel as [|fuel IH]; intros index; simpl.
  - intros [= <- <-]. split_and!; [done | lia | lia | intros; lia | intros; lia].
  - intros Hl. step Hl as a Ha.
    destruct (is_valid a =? 0) eqn:E; simpl in Hl.
    + injection Hl as <- <-. apply Z.eqb_eq in E.
      split_and!; [done | lia | lia | intros; lia | eauto].
    + apply IH in Hl as (-> & Hj & Hbefore & Hat).
      split_and!; [done | lia | lia | | intros; apply Hat; lia].
      intros k Hk. destruct (decide (k = index)) as [->|].
      * exists a. split; [done|]. by apply valid_iff.
      * apply Hbefore. lia.
Qed.

Lemma findMetadataIndex_loop_Ret id fuel i s j s' :
  findMetadataIndex_loop id i fuel s = Ret j s' ->
  s' = s /\ (i <= j <= i + fuel)%nat /\
  (forall k mk, (i <= k < j)%nat -> metadata s !! k = Some mk -> img_id mk = id -> ~ valid mk) /\
  ((j < i + fuel)%nat -> exists m, metadata s !! j = Some m /\ img_id m = id /\ valid m).
Proof.
  revert i. induction fuel as [|fuel IH]; intros i; simpl.
  - intros [= <- <-]. split_and!; [done | lia | lia | intros; lia | intros; lia].
  - intros Hl. step Hl as a Ha.
    destruct (strcmp (img_id a) id =? 0) eqn:Eid; simpl in Hl;
      [destruct (is_valid a =? EMPTY) eqn:Ev; simpl in Hl|].
    + apply IH in Hl as (-> & Hj & Hbefore & Hat).
      split_and!; [done | lia | lia | | intros; apply Hat; lia].
      intros k mk Hk Hmk Hid. destruct (decide (k = i)) as [->|].
      * replace mk with a by congruence. rewrite valid_iff. unfold EMPTY in Ev. by rewrite Ev.
      * eapply Hbefore; [|done..]. lia.
    + injection Hl as <- <-. split_and!; [done | lia | lia | intros; lia |].
      intros _. exists a. split_and!; [done | | by apply valid_iff].
      apply strcmp_eq. by apply Z.eqb_eq.
    + apply IH in Hl as (-> & Hj & Hbefore & Hat).
      split_and!; [done | lia | lia | | intros; apply Hat; lia].
      intros k mk Hk Hmk Hid. destruct (decide (k = i)) as [->|].
      * replace mk with a in * by congruence. subst id.
        rewrite strcmp_refl in Eid. done.
      * eapply Hbefore; [|done..]. lia.
Qed.

Lemma findMetadataIndex_loop_final id fuel i s s' :
  final (findMetadataIndex_loop id i fuel s) = Some s' -> s' = s.
Proof.
  revert i. induction fuel as [|fuel IH]; intros i; simpl.
  - by intros [= <-].
  - unfold mbind, M_bind, metadata_at. destruct (metadata s !! i) as [m|]; [|done].
    destruct (_ || _); [apply IH | by intros [= <-]].
Qed.

Lemma findMetadataIndex_loop_found id fuel i s j m :
  (i <= j < i + fuel)%nat ->
  (forall k, (i <= k < j)%nat ->
     exists mk, metadata s !! k = Some mk /\ (img_id mk = id -> ~ valid mk)) ->
  metadata s !! j = Some m -> img_id m = id -> valid m ->
  findMetadataIndex_loop id i fuel s = Ret j s.
Proof.
  revert i. induction fuel as [|fuel IH]; intros i Hj Hbefore Hm Hid Hv; [lia|].
  simpl. destruct (decide (i = j)) as [->|Hne].
  - rewrite (bind_Ret_eq _ _ _ _ _ (metadata_at_eq _ _ _ Hm)).
    rewrite Hid, strcmp_refl. apply valid_iff in Hv. unfold EMPTY. by rewrite Hv.
  - destruct (Hbefore i) as (mk & Hmk & Hnot); [lia|].
    rewrite (bind_Ret_eq _ _ _ _ _ (metadata_at_eq _ _ _ Hmk)).
    assert ((negb (strcmp (img_id mk) id =? 0) || (is_valid mk =? EMPTY)) = true) as ->.
    { destruct (strcmp (img_id mk) id =? 0) eqn:E; [|done]. simpl.
      apply Z.eqb_eq, strcmp_eq in E. specialize (Hnot E).
      unfold valid in Hnot. apply Z.eqb_eq. lia. }
    apply IH; [lia| |done..]. intros k Hk. apply Hbefore. lia.
Qed.

Lemma validMetadataIndex_Ret idx s u s' :
  validMetadataIndex idx s = Ret u s' ->
  s' = s /\ Z.of_nat idx < max_files (header s) /\
  exists m, metadata s !! idx = Some m /\ valid m.
Proof.
  unfold validMetadataIndex. intros Hv. step Hv. step Hv as u1 Hlt. step Hv as m Hm.
  apply M_EXIT_IF_Ret in Hv as [Hv ->].
  split_and!; [done | lia |]. exists m. split; [done|]. by apply valid_iff.
Qed.

Lemma validMetadataIndex_final idx s s' :
  final (validMetadataIndex idx s) = Some s' -> s' = s.
Proof.
  unfold validMetadataIndex, mbind, M_bind. simpl.
  destruct (_ <=? _); simpl; [by intros [= <-]|].
  unfold metadata_at. destruct (metadata s !! idx) as [m|]; [|done].
  destruct (is_valid m =? EMPTY); simpl; by intros [= <-].
Qed.

Lemma validMetadataIndex_eq idx s m :
  Z.of_nat idx < max_files (header s) -> metadata s !! idx = Some m -> valid m ->
  validMetadataIndex idx s = Ret tt s.
Proof.
  intros Hidx Hm Hv. unfold validMetadataIndex.
  rewrite (bind_Ret_eq _ _ _ _ _ (get_eq s)).
  assert ((max_files (header s) <=? Z.of_nat idx) = false) as -> by lia.
  rewrite (bind_Ret_eq _ _ _ _ _ (M_EXIT_IF_false _ _)).
  rewrite (bind_Ret_eq _ _ _ _ _ (metadata_at_eq _ _ _ Hm)).
  apply valid_iff in Hv. unfold EMPTY. by rewrite Hv.
Qed.

Lemma findMetadataIndex_Ret id s j s' :
  findMetadataIndex id s = Ret j s' ->
  s' = s /\ Z.of_nat j < max_files (header s) /\
  (exists m, metadata s !! j = Some m /\ img_id m = id /\ valid m) /\
  (forall k mk, (k < j)%nat -> metadata s !! k = Some mk -> img_id mk = id -> ~ valid mk).
Proof.
  unfold findMetadataIndex. intros Hf. step Hf. step Hf as i Hl.
  apply findMetadataIndex_loop_Ret in Hl as (-> & Hj & Hbefore & Hat).
  step Hf as u1 Hv1. injection Hf as <- <-.
  unfold or_else in Hv1.
  destruct (validMetadataIndex i s) as [u s2|e s2|] eqn:Ev; try done.
  injection Hv1 as _ <-.
  apply validMetadataIndex_Ret in Ev as (-> & Hlt & m & Hm & Hv).
  split_and!; [done | done | |].
  - destruct Hat as (m' & Hm' & Hid & Hv'); [lia|]. eauto.
  - intros k mk Hk. apply Hbefore. lia.
Qed.

Lemma findMetadataIndex_final id s s' :
  final (findMetadataIndex id s) = Some s' -> s' = s.
Proof.
  unfold findMetadataIndex, mbind, M_bind. simpl.
  destruct (findMetadataIndex_loop _ _ _ _) as [i s1|e s1|] eqn:El; simpl; try done.
  - apply (f_equal final), findMetadataIndex_loop_final in El as ->.
    unfold or_else.
    destruct (validMetadataIndex i s) as [u s2|e s2|] eqn:Ev; simpl; try done;
      apply (f_equal final), validMetadataIndex_final in Ev as ->; by intros [= <-].
  - apply (f_equal final), findMetadataIndex_loop_final in El as ->. by intros [= <-].
Qed.

Lemma findMetadataIndex_Exit id s e s' :
  findMetadataIndex id s = Exit e s' -> e = ERR_FILE_NOT_FOUND /\ s' = s.
Proof.
  intros Hf. split; [|apply (findMetadataIndex_final id); by rewrite Hf].
  unfold findMetadataIndex in Hf.
  apply bind_Exit_inv in Hf as [Hf|(a & s1 & Hg & Hf)]; [done|].
  apply bind_Exit_inv in Hf as [Hf|(i & s2 & Hl & Hf)].
  - revert Hf. generalize 0%nat. generalize (Z.to_nat (max_files (header a))).
    intros fuel. induction fuel as [|fuel IH]; intros i; simpl; [done|].
    unfold mbind, M_bind, metadata_at. destruct (metadata s1 !! i); [|done].
    destruct (_ || _); [apply IH | done].
  - apply bind_Exit_inv in Hf as [Hf|(u & s3 & Hv & Hf)]; [|done].
    unfold or_else in Hf. destruct (validMetadataIndex i s2); try done. congruence.
Qed.

Lemma findMetadataIndex_found id s j m :
  Z.of_nat j < max_files (header s) ->
  metadata s !! j = Some m -> img_id m = id -> valid m ->
  (forall k mk, (k < j)%nat -> metadata s !! k = Some mk -> img_id mk = id -> ~ valid mk) ->
  findMetadataIndex id s = Ret j s.
Proof.
  intros Hj Hm Hid Hv Hfirst. unfold findMetadataIndex.
  rewrite (bind_Ret_eq _ _ _ _ _ (get_eq s)).
  rewrite (bind_Ret_eq _ _ _ j s).
  - unfold or_else. rewrite (bind_Ret_eq _ _ _ tt s); [done|].
    by rewrite (validMetadataIndex_eq j s m).
  - apply (findMetadataIndex_loop_found id _ 0 s j m); [lia| |done..].
    intros k Hk. destruct (metadata s !! k) as [mk|] eqn:Hmk.
    + exists mk. split; [done|]. intros Hid'. eapply Hfirst; [|done..]. lia.
    + apply lookup_ge_None in Hmk. apply lookup_lt_Some in Hm. lia.
Qed.

(** ** Writing the header and a slot *)

Lemma updateHeader_Ret s u s' :
  updateHeader s = Ret u s' ->
  writable (f_mode (file s)) = true /\
  s' = set_file (MkFILE (f_mode (file s)) (write_header (header s) (f_data (file s)))) s.
Proof.
  unfold updateHeader. intros Hu. step Hu.
  destruct (writable _); [|done]. by injection Hu as <-.
Qed.

Lemma updateHeader_Exit s e s' :
  updateHeader s = Exit e s' -> e = ERR_IO /\ s' = s /\ writable (f_mode (file s)) = false.
Proof.
  unfold updateHeader, mbind, M_bind. simpl.
  destruct (writable _); [done|]. by intros [= <- <-].
Qed.

Lemma updateMetadata_Ret idx s u s' :
  updateMetadata idx s = Ret u s' ->
  Z.of_nat idx < max_files (header s) /\ writable (f_mode (file s)) = true /\
  exists m c, metadata s !! idx = Some m /\ write_slot idx m (f_data (file s)) = Some c /\
              s' = set_file (MkFILE (f_mode (file s)) c) s.
Proof.
  unfold updateMetadata. intros Hu. step Hu. step Hu as u1 Hlt. step Hu as m Hm.
  destruct (writable _); [|done].
  destruct (write_slot _ _ _) as [c|] eqn:Ew; [|done].
  injection Hu as <-. split_and!; [lia | done |]. eauto.
Qed.

Lemma updateHeader_eq s :
  writable (f_mode (file s)) = true ->
  updateHeader s
  = Ret tt (set_file (MkFILE (f_mode (file s)) (write_header (header s) (f_data (file s)))) s).
Proof. unfold updateHeader, mbind, M_bind. simpl. by intros ->. Qed.

Lemma updateMetadata_eq idx s m c :
  Z.of_nat idx < max_files (header s) -> metadata s !! idx = Some m ->
  writable (f_mode (file s)) = true ->
  write_slot idx m (f_data (file s)) = Some c ->
  updateMetadata idx s = Ret tt (set_file (MkFILE (f_mode (file s)) c) s).
Proof.
  intros Hlt Hm Hw Hc. unfold updateMetadata.
  rewrite (bind_Ret_eq _ _ _ _ _ (get_eq s)).
  assert ((max_files (header s) <=? Z.of_nat idx) = false) as -> by lia.
  rewrite (bind_Ret_eq _ _ _ _ _ (M_EXIT_IF_false _ _)).
  rewrite (bind_Ret_eq _ _ _ _ _ (metadata_at_eq idx s m Hm)).
  by rewrite Hw, Hc.
Qed.

Lemma updateMetadata_Exit idx s e s' :
  updateMetadata idx s = Exit e s' ->
  s' = s /\ (e = ERR_FILE_NOT_FOUND /\ max_files (header s) <= Z.of_nat idx \/
             e = ERR_IO /\ writable (f_mode (file s)) = false).
Proof.
  unfold updateMetadata, mbind, M_bind. simpl.
  destruct (_ <=? _) eqn:E; simpl.
  - intros [= <- <-]. split; [done|]. left. split; [done|lia].
  - unfold metadata_at. destruct (metadata s !! idx); [|done].
    destruct (writable _); [by destruct (write_slot _ _ _)|].
    intros [= <- <-]. split; [done|]. by right.
Qed.

(** ** Deduplication *)

Lemma set_metadata_same s : set_metadata (metadata s) s = s.
Proof. by destruct s. Qed.

Lemma set_tables_same m : set_size (size m) (set_offset (offset m) m) = m.
Proof. by destruct m. Qed.

Lemma same_id_at_insert md index m id k :
  same_id_at (<[index := m]> md) index id k <-> same_id_at md index id k.
Proof.
  unfold same_id_at. split; intros [Hk Hr]; (split; [done|]);
    by rewrite list_lookup_insert_ne in * by done.
Qed.

Lemma same_content_at_insert md index m sha k :
  same_content_at (<[index := m]> md) index sha k <-> same_content_at md index sha k.
Proof.
  unfold same_content_at. split; intros [Hk Hr]; (split; [done|]);
    by rewrite list_lookup_insert_ne in * by done.
Qed.

Lemma dedup_loop_Ret index fuel i b s b' s' mi :
  metadata s !! index = Some mi ->
  dedup_loop index i fuel b s = Ret b' s' ->
  (forall k, (i <= k < i + fuel)%nat -> ~ same_id_at (metadata s) index (img_id mi) k) /\
  ((b' = b /\ s' = s /\
    forall k, (i <= k < i + fuel)%nat -> ~ same_content_at (metadata s) index (SHA mi) k) \/
   (b' = true /\ exists k mk,
      (i <= k < i + fuel)%nat /\ k <> index /\ metadata s !! k = Some mk /\ valid mk /\
      shaCompare (SHA mi) (SHA mk) = 0 /\
      (forall k', (k < k' < i + fuel)%nat -> ~ same_content_at (metadata s) index (SHA mi) k') /\
      s' = set_metadata (<[index := set_size (size mk) (set_offset (offset mk) mi)]> (metadata s)) s)).
Proof.
  revert i b s mi. induction fuel as [|fuel IH]; intros i b s mi Hmi; simpl.
  - intros [= <- <-]. split; [intros; lia|]. left. split_and!; [done..|intros; lia].
  - intros Hl. step Hl as m Hm.
    assert (forall P : nat -> Prop, ~ P i -> (forall k, (S i <= k < S i + fuel)%nat -> ~ P k) ->
            forall k, (i <= k < i + S fuel)%nat -> ~ P k) as Hrange.
    { intros P Hi Hr k Hk. destruct (decide (k = i)) as [->|]; [done|]. apply Hr. lia. }
    destruct (negb (i =? index)%nat && negb (is_valid m =? 0)) eqn:Econd.
    + apply andb_true_iff in Econd as [Hne Hv].
      apply negb_true_iff, Nat.eqb_neq in Hne. apply negb_true_iff, valid_iff in Hv.
      step Hl as mi' Hmi'. replace mi' with mi in * by congruence.
      step Hl as u Hdup. apply Z.eqb_neq in Hdup.
      assert (~ same_id_at (metadata s) index (img_id mi) i) as Hnodup.
      { intros [_ (mk & Hmk & _ & Hs)]. congruence. }
      destruct (shaCompare (SHA mi) (SHA m) =? 0) eqn:Esha.
      * apply Z.eqb_eq in Esha.
        step Hl as u1 Hmod1. apply modify_metadata_Ret in Hmod1 as (m1 & Hm1 & ->).
        step Hl as u2 Hmod2. apply modify_metadata_Ret in Hmod2 as (m2 & Hm2 & ->).
        simpl in Hm2. rewrite list_lookup_insert_eq in Hm2 by (by eapply lookup_lt_Some).
        injection Hm2 as <-. replace m1 with mi in * by congruence.
        unfold set_metadata in Hl. simpl in Hl. rewrite list_insert_insert_eq in Hl.
        apply IH with (mi := set_size (size m) (set_offset (offset m) mi)) in Hl;
          [|simpl; apply list_lookup_insert_eq; by eapply lookup_lt_Some].
        simpl in Hl. destruct Hl as [Hnd Hcl]. split.
        { apply Hrange; [done|]. intros k Hk. rewrite <- same_id_at_insert. by apply Hnd. }
        right. destruct Hcl as [(-> & -> & Hnone)|(-> & k & mk & Hk & Hkne & Hmk & Hvk & Hsk & Hlast & ->)].
        -- split; [done|]. exists i, m. split_and!; try done; try lia.
           intros k' Hk'. rewrite <- same_content_at_insert. apply Hnone. lia.
        -- split; [done|]. exists k, mk.
           rewrite list_lookup_insert_ne in Hmk by done.
           split_and!; try done; try lia.
           ++ intros k' Hk'. rewrite <- same_content_at_insert. apply Hlast. lia.
           ++ unfold set_metadata. simpl. by rewrite list_insert_insert_eq.
      * apply Z.eqb_neq in Esha.
        apply IH with (mi := mi) in Hl; [|done]. destruct Hl as [Hnd Hcl].
        split; [by apply Hrange|].
        destruct Hcl as [(-> & -> & Hnone)|(-> & k & mk & Hk & Hkne & Hmk & Hvk & Hsk & Hlast & ->)].
        -- left. split_and!; [done..|]. apply Hrange; [|done].
           intros [_ (mk & Hmk & _ & Hs)]. congruence.
        -- right. split; [done|]. exists k, mk. split_and!; try done; try lia.
           intros k' Hk'. apply Hlast. lia.
    + assert (~ same_id_at (metadata s) index (img_id mi) i /\
              ~ same_content_at (metadata s) index (SHA mi) i) as [Hnodup Hnoclone].
      { apply andb_false_iff in Econd as [Hne|Hv].
        - apply negb_false_iff, Nat.eqb_eq in Hne. split; by intros [? _].
        - apply negb_false_iff, Z.eqb_eq in Hv.
          split; intros [_ (mk & Hmk & Hvk & _)]; apply Hvk; unfold EMPTY; congruence. }
      apply IH with (mi := mi) in Hl; [|done]. destruct Hl as [Hnd Hcl].
      split; [by apply Hrange|].
      destruct Hcl as [(-> & -> & Hnone)|(-> & k & mk & Hk & Hkne & Hmk & Hvk & Hsk & Hlast & ->)].
      * left. split_and!; [done..|]. by apply Hrange.
      * right. split; [done|]. exists k, mk. split_and!; try done; try lia.
        intros k' Hk'. apply Hlast. lia.
Qed.

Lemma dedup_loop_Exit index fuel i b s e s' mi :
  metadata s !! index = Some mi ->
  dedup_loop index i fuel b s = Exit e s' ->
  e = ERR_DUPLICATE_ID /\
  exists o z, s' = set_metadata (<[index := set_size z (set_offset o mi)]> (metadata s)) s.
Proof.
  revert i b s mi. induction fuel as [|fuel IH]; intros i b s mi Hmi; simpl; [done|].
  intros Hl. apply bind_Exit_inv in Hl as [Hl|(m & s1 & Hm & Hl)];
    [by apply metadata_at_Exit in Hl|].
  apply metadata_at_Ret in Hm as [Hm ->].
  destruct (negb (i =? index)%nat && negb (is_valid m =? 0)); [|by eapply IH].
  apply bind_Exit_inv in Hl as [Hl|(mi' & s1 & Hmi' & Hl)];
    [by apply metadata_at_Exit in Hl|].
  apply metadata_at_Ret in Hmi' as [Hmi' ->].
  apply bind_Exit_inv in Hl as [Hl|(u & s1 & Hd & Hl)].
  { apply M_EXIT_IF_Exit in Hl as (_ & -> & ->). split; [done|].
    exists (offset mi), (size mi).
    by rewrite set_tables_same, list_insert_id, set_metadata_same. }
  apply M_EXIT_IF_Ret in Hd as [_ ->].
  destruct (shaCompare (SHA mi') (SHA m) =? 0); [|by eapply IH].
  apply bind_Exit_inv in Hl as [Hl|(u1 & s1 & Hmod1 & Hl)];
    [by apply modify_metadata_Exit in Hl|].
  apply modify_metadata_Ret in Hmod1 as (m1 & Hm1 & ->).
  apply bind_Exit_inv in Hl as [Hl|(u2 & s2 & Hmod2 & Hl)];
    [by apply modify_metadata_Exit in Hl|].
  apply modify_metadata_Ret in Hmod2 as (m2 & Hm2 & ->).
  simpl in Hm2. rewrite list_lookup_insert_eq in Hm2 by (by eapply lookup_lt_Some).
  injection Hm2 as <-. replace m1 with mi in * by congruence.
  unfold set_metadata in Hl. simpl in Hl. rewrite list_insert_insert_eq in Hl.
  apply IH with (mi := set_size (size m) (set_offset (offset m) mi)) in Hl;
    [|simpl; apply list_lookup_insert_eq; by eapply lookup_lt_Some].
  destruct Hl as (-> & o & z & ->). split; [done|]. exists o, z.
  unfold set_metadata. simpl. by rewrite list_insert_insert_eq.
Qed.

Lemma dedup_loop_not_Stuck index fuel i b s :
  (index < length (metadata s))%nat -> (i + fuel <= length (metadata s))%nat ->
  dedup_loop index i fuel b s <> Stuck.
Proof.
  revert i b s. induction fuel as [|fuel IH]; intros i b s Hindex Hlen; simpl; [done|].
  destruct (lookup_lt_is_Some_2 (metadata s) i) as [m Hm]; [lia|].
  destruct (lookup_lt_is_Some_2 (metadata s) index) as [mi Hmi]; [lia|].
  rewrite (bind_Ret_eq _ _ _ _ _ (metadata_at_eq _ _ _ Hm)).
  destruct (negb (i =? index)%nat && negb (is_valid m =? 0)); [|apply IH; lia].
  rewrite (bind_Ret_eq _ _ _ _ _ (metadata_at_eq _ _ _ Hmi)).
  destruct (strncmp (img_id mi) (img_id m) MAX_IMG_ID =? 0).
  { by rewrite (bind_Exit_eq _ _ _ _ _ (M_EXIT_IF_true _ _)). }
  rewrite (bind_Ret_eq _ _ _ _ _ (M_EXIT_IF_false _ _)).
  destruct (shaCompare (SHA mi) (SHA m) =? 0); [|apply IH; lia].
  rewrite (bind_Ret_eq _ _ _ _ _ (modify_metadata_eq _ _ _ _ Hmi)).
  erewrite bind_Ret_eq; last first.
  { apply modify_metadata_eq. simpl. by apply list_lookup_insert_eq. }
  apply IH; simpl; rewrite !length_insert; lia.
Qed.

Lemma do_name_and_content_dedup_Ret index s u s' mi :
  metadata s !! index = Some mi ->
  do_name_and_content_dedup index s = Ret u s' ->
  let n := Z.to_nat (max_files (header s)) in
  (index < n)%nat /\
  (forall k, (k < n)%nat -> ~ same_id_at (metadata s) index (img_id mi) k) /\
  (((forall k, (k < n)%nat -> ~ same_content_at (metadata s) index (SHA mi) k) /\
    s' = set_metadata
           (<[index := set_offset (res_set (offset mi) RES_ORIG 0) mi]> (metadata s)) s) \/
   (exists k mk,
      (k < n)%nat /\ k <> index /\ metadata s !! k = Some mk /\ valid mk /\
      shaCompare (SHA mi) (SHA mk) = 0 /\
      (forall k', (k < k' < n)%nat -> ~ same_content_at (metadata s) index (SHA mi) k') /\
      s' = set_metadata (<[index := set_size (size mk) (set_offset (offset mk) mi)]> (metadata s)) s)).
Proof.
  intros Hmi Hd n. unfold do_name_and_content_dedup in Hd.
  step Hd. step Hd as u1 Hlt. step Hd as b Hloop.
  apply (dedup_loop_Ret _ _ _ _ _ _ _ mi Hmi) in Hloop as [Hnodup Hclone].
  split; [lia|]. split; [intros k Hk; apply Hnodup; lia|].
  destruct Hclone as [(-> & -> & Hnone)|(-> & k & mk & Hk & Hkne & Hmk & Hvk & Hsk & Hlast & ->)];
    simpl in Hd.
  - left. split; [intros k Hk; apply Hnone; lia|].
    apply modify_metadata_Ret in Hd as (m & Hm & ->). by replace m with mi by congruence.
  - right. injection Hd as <-. exists k, mk.
    split_and!; try done; try lia; intros k' Hk'; apply Hlast; lia.
Qed.

Lemma do_name_and_content_dedup_Exit index s e s' mi :
  metadata s !! index = Some mi ->
  do_name_and_content_dedup index s = Exit e s' ->
  (e = ERR_INVALID_ARGUMENT /\ max_files (header s) <= Z.of_nat index /\ s' = s) \/
  (e = ERR_DUPLICATE_ID /\
   exists o z, s' = set_metadata (<[index := set_size z (set_offset o mi)]> (metadata s)) s).
Proof.
  intros Hmi Hd. unfold do_name_and_content_dedup in Hd.
  apply bind_Exit_inv in Hd as [Hd|(a & s1 & Hg & Hd)]; [done|].
  rewrite get_eq in Hg. injection Hg as <- <-.
  apply bind_Exit_inv in Hd as [Hd|(u1 & s1 & Hlt & Hd)].
  { apply M_EXIT_IF_Exit in Hd as (Hle & -> & ->). left. split_and!; [done|lia|done]. }
  apply M_EXIT_IF_Ret in Hlt as [Hlt ->].
  apply bind_Exit_inv in Hd as [Hd|(b & s1 & Hloop & Hd)].
  { right. by eapply dedup_loop_Exit. }
  destruct b; simpl in Hd; [done|]. by apply modify_metadata_Exit in Hd.
Qed.

(** A valid slot carrying the new identifier makes the scan stop with
    [ERR_DUPLICATE_ID]. *)
Lemma do_name_and_content_dedup_duplicate index s mi k :
  metadata s !! index = Some mi ->
  max_files (header s) = Z.of_nat (length (metadata s)) ->
  same_id_at (metadata s) index (img_id mi) k ->
  exists o z,
    do_name_and_content_dedup index s =
    Exit ERR_DUPLICATE_ID
         (set_metadata (<[index := set_size z (set_offset o mi)]> (metadata s)) s).
Proof.
  intros Hmi Hmax Hdup.
  pose proof (lookup_lt_Some _ _ _ Hmi) as Hindex.
  destruct (do_name_and_content_dedup index s) as [u s'|e s'|] eqn:Ed.
  - apply (do_name_and_content_dedup_Ret _ _ _ _ mi Hmi) in Ed as (_ & Hnodup & _).
    exfalso. apply (Hnodup k); [|done].
    destruct Hdup as [_ (mk & Hmk & _)]. apply lookup_lt_Some in Hmk. lia.
  - apply (do_name_and_content_dedup_Exit _ _ _ _ mi Hmi) in Ed
      as [(_ & Hle & _)|(-> & o & z & ->)]; [lia|]. eauto.
  - exfalso. unfold do_name_and_content_dedup in Ed.
    rewrite (bind_Ret_eq _ _ _ _ _ (get_eq s)) in Ed.
    assert ((max_files (header s) <=? Z.of_nat index) = false) as Hf by lia.
    rewrite Hf, (bind_Ret_eq _ _ _ _ _ (M_EXIT_IF_false _ _)) in Ed.
    pose proof (dedup_loop_not_Stuck index (Z.to_nat (max_files (header s))) 0 false s Hindex)
      as Hns.
    unfold mbind, M_bind in Ed.
    destruct (dedup_loop _ _ _ _ _) as [b s1|e s1|] eqn:El; [|done|apply Hns; [lia|done]].
    destruct b; simpl in Ed; [done|].
    apply (dedup_loop_Ret _ _ _ _ _ _ _ mi Hmi) in El as [_ [(_ & -> & _)|(? & _)]]; [|done].
    by rewrite (modify_metadata_eq _ _ _ _ Hmi) in Ed.
Qed.

(** ** Insertion *)

Lemma fwrite_end_Ret bs s u s' :
  fwrite_end bs s = Ret u s' ->
  writable (f_mode (file s)) = true /\ bs <> [] /\
  exists c, append_bytes bs (f_data (file s)) = Some c /\
            s' = set_file (MkFILE (f_mode (file s)) c) s.
Proof.
  unfold fwrite_end. intros Hw. step Hw.
  destruct (writable _); [|done]. simpl in Hw.
  destruct (0 <? Z.of_nat (length bs)) eqn:El; [|done].
  destruct (append_bytes _ _) as [c|]; [|done]. injection Hw as _ <-.
  split; [done|]. split; [|by exists c]. by intros ->.
Qed.

Lemma get_resolution_Ret image_buffer s hw s' :
  get_resolution image_buffer s = Ret hw s' ->
  s' = s /\ exists image, vips_jpegload_buffer image_buffer = Some image /\
                          hw = (uint32 (Ysize image), uint32 (Xsize image)).
Proof.
  unfold get_resolution. destruct (vips_jpegload_buffer _) as [image|]; [|done].
  intros [= <- <-]. eauto.
Qed.

Lemma modify_metadata_inserted i f F hd md m u s' :
  (i < length md)%nat ->
  modify_metadata i f (ImgstFile F hd (<[i := m]> md)) = Ret u s' ->
  s' = ImgstFile F hd (<[i := f m]> md).
Proof.
  intros Hi Hm. apply modify_metadata_Ret in Hm as (m' & Hm' & ->).
  simpl in *. rewrite list_lookup_insert_eq in Hm' by done. injection Hm' as <-.
  unfold set_metadata. simpl. by rewrite list_insert_insert_eq.
Qed.

Lemma metadata_at_inserted i F hd md m m' s' :
  (i < length md)%nat ->
  metadata_at i (ImgstFile F hd (<[i := m]> md)) = Ret m' s' ->
  m' = m /\ s' = ImgstFile F hd (<[i := m]> md).
Proof.
  intros Hi Hm. apply metadata_at_Ret in Hm as [Hm ->].
  simpl in Hm. rewrite list_lookup_insert_eq in Hm by done. by injection Hm as <-.
Qed.

Ltac modify_step H :=
  let u := fresh "u" in
  let H1 := fresh "Hmod" in
  step H as u H1; apply modify_metadata_inserted in H1 as ->; [|done].

Lemma do_insert_Ret image_buffer id s u s' :
  do_insert image_buffer id s = Ret u s' ->
  exists index m0 image o z appended c1 c,
    num_files (header s) < max_files (header s) /\
    Z.of_nat index < max_files (header s) /\
    (forall k, (k < index)%nat -> exists m, metadata s !! k = Some m /\ valid m) /\
    metadata s !! index = Some m0 /\ is_valid m0 = 0 /\
    (forall k, (k < Z.to_nat (max_files (header s)))%nat ->
               ~ same_id_at (metadata s) index id k) /\
    vips_jpegload_buffer image_buffer = Some image /\
    writable (f_mode (file s)) = true /\
    insert_tables s index image_buffer m0 o z appended /\
    (appended = [] /\ c1 = f_data (file s) \/
     append_bytes appended (f_data (file s)) = Some c1) /\
    write_slot index (inserted_slot image_buffer id image o z m0)
               (write_header (inserted_header (header s)) c1) = Some c /\
    s' = ImgstFile (MkFILE (f_mode (file s)) c) (inserted_header (header s))
                   (<[index := inserted_slot image_buffer id image o z m0]> (metadata s)).
Proof.
  unfold do_insert. intros Hi. step Hi. step Hi as u1 Hfull. step Hi as index Hloop.
  apply do_insert_loop_Ret in Hloop as (-> & Hrange & Hbefore & Hfree).
  step Hi as u2 Hsha. apply modify_metadata_Ret in Hsha as (m0 & Hm0 & ->).
  pose proof (lookup_lt_Some _ _ _ Hm0) as Hindex.
  assert (is_valid m0 = 0 /\ (index < Z.to_nat (max_files (header s)))%nat) as [Hinvalid Hlt].
  { destruct (decide (index < Z.to_nat (max_files (header s)))%nat) as [Hlt|Hge].
    - destruct Hfree as (m & Hm & Hz); [lia|]. split; [congruence|done].
    - exfalso. (* the deduplication refuses an index past the table *)
      step Hi as u3 Hid. apply modify_metadata_Ret in Hid as (m1 & Hm1 & ->).
      step Hi as u4 Hd. unfold do_name_and_content_dedup in Hd.
      step Hd. step Hd as u5 Hle. simpl in Hle. lia. }
  unfold set_metadata in Hi. cbn [file header metadata] in Hi.
  modify_step Hi. step Hi as u4 Hd.
  apply (do_name_and_content_dedup_Ret _ _ _ _ (set_img_id (memcpy_img_id id (SHA256 image_buffer)) (set_SHA (SHA256 image_buffer) m0)))
    in Hd; [|by apply list_lookup_insert_eq].
  unfold set_metadata in Hd. cbn [file header metadata] in Hd.
  rewrite !list_insert_insert_eq in Hd.
  change (img_id (set_img_id (memcpy_img_id id (SHA256 image_buffer))
                             (set_SHA (SHA256 image_buffer) m0)))
    with (memcpy_img_id id (SHA256 image_buffer)) in Hd.
  change (SHA (set_img_id (memcpy_img_id id (SHA256 image_buffer))
                          (set_SHA (SHA256 image_buffer) m0)))
    with (SHA256 image_buffer) in Hd.
  destruct Hd as (_ & Hnodup & Hclone).
  assert (forall k, (k < Z.to_nat (max_files (header s)))%nat ->
                    ~ same_id_at (metadata s) index id k) as Hnodup'.
  { intros k Hk. rewrite <- same_id_at_memcpy_img_id, <- same_id_at_insert. by apply Hnodup. }
  clear Hnodup.
  set (n := Z.to_nat (max_files (header s))) in *.
  set (mi := set_img_id (memcpy_img_id id (SHA256 image_buffer)) (set_SHA (SHA256 image_buffer) m0)) in *.
  assert (exists o1 z1,
    s0 = ImgstFile (file s) (header s) (<[index := set_size z1 (set_offset o1 mi)]> (metadata s)) /\
    (((forall k, (k < n)%nat -> ~ same_content_at (metadata s) index (SHA256 image_buffer) k) /\
      o1 = res_set (offset m0) RES_ORIG 0 /\ z1 = size m0) \/
     (exists k mk,
        (k < n)%nat /\ k <> index /\ metadata s !! k = Some mk /\ valid mk /\
        shaCompare (SHA256 image_buffer) (SHA mk) = 0 /\
        (forall k', (k < k' < n)%nat ->
                    ~ same_content_at (metadata s) index (SHA256 image_buffer) k') /\
        o1 = offset mk /\ z1 = size mk))) as (o1 & z1 & -> & Htables).
  { destruct Hclone as [[Hnone ->]|(k & mk & Hk & Hkne & Hmk & Hvk & Hsk & Hlast & ->)].
    - exists (res_set (offset m0) RES_ORIG 0), (size m0). split; [reflexivity|]. left.
      split; [|done]. intros k Hk. rewrite <- same_content_at_insert. by apply Hnone.
    - exists (offset mk), (size mk). split; [by rewrite list_insert_insert_eq|].
      right. exists k, mk.
      rewrite list_lookup_insert_ne in Hmk by done. split_and!; try done.
      intros k' Hk'. rewrite <- same_content_at_insert. by apply Hlast. }
  clear Hclone.
  step Hi as m1 Hm1. cbn [metadata] in Hm1.
  rewrite list_lookup_insert_eq in Hm1 by done. injection Hm1 as <-.
  step Hi as u5 Happend.
  assert (exists o appended c1,
    (appended = [] /\ c1 = f_data (file s) \/
     append_bytes appended (f_data (file s)) = Some c1) /\
    s0 = ImgstFile (MkFILE (f_mode (file s)) c1) (header s)
                   (<[index := set_offset o (set_size z1 (set_offset o1 mi))]> (metadata s)) /\
    ((at_orig o1 <> 0 /\ o = o1 /\ appended = []) \/
     (at_orig o1 = 0 /\ o = res_set o1 RES_ORIG (file_size (f_data (file s))) /\
      appended = image_buffer /\ image_buffer <> [])))
    as (o & appended & c1 & Hc1 & -> & Ho).
  { change (res_get (offset (set_size z1 (set_offset o1 mi))) RES_ORIG) with (at_orig o1)
      in Happend.
    destruct (at_orig o1 =? 0) eqn:Eo.
    - apply Z.eqb_eq in Eo. step Happend. cbn [file f_data] in Happend.
      modify_step Happend.
      apply fwrite_end_Ret in Happend as (Hw & Hne & c & Hc & ->).
      cbn [file f_data f_mode] in *.
      exists (res_set o1 RES_ORIG (file_size (f_data (file s)))), image_buffer, c.
      split_and!; [by right|reflexivity|right; by split_and!].
    - apply Z.eqb_neq in Eo. injection Happend as _ <-.
      exists o1, [], (f_data (file s)).
      split_and!; [by left| |left; by split_and!].
      destruct s as [[mode data] hd md]. reflexivity. }
  step Hi as hw Hres. apply get_resolution_Ret in Hres as (-> & image & Himage & ->).
  do 3 modify_step Hi.
  step Hi as v1 Hhd1. injection Hhd1 as _ <-.
  step Hi as v2 Hhd2. injection Hhd2 as _ <-.
  step Hi as v3 Hupd. apply updateHeader_Ret in Hupd as [Hw ->].
  apply updateMetadata_Ret in Hi as (_ & _ & mf & c & Hmf & Hc & ->).
  unfold set_file, set_header in *. cbn [file header metadata f_mode f_data] in *.
  rewrite list_lookup_insert_eq in Hmf by done. injection Hmf as <-.
  exists index, m0, image, o, z1, appended, c1, c.
  split_and!; try done; try lia.
  - intros k Hk. apply Hbefore. lia.
  - unfold insert_tables. fold n.
    destruct Htables as [(Hnone & -> & ->)|(k & mk & Hk & Hkne & Hmk & Hvk & Hsk & Hlast & -> & ->)].
    + left. destruct Ho as [(Hnz & _)|(_ & -> & -> & Hne)]; [done|]. by split_and!.
    + right. exists k, mk.
      destruct Ho as [(Hnz & -> & ->)|(Hz & -> & -> & Hne)]; split_and!; try done;
        [left|right]; by split_and!.
Qed.

(** Under [handle_ok] the slot lands on its record of the file. *)
Lemma do_insert_Ret_ok image_buffer id s u s' :
  handle_ok s ->
  do_insert image_buffer id s = Ret u s' ->
  exists index m0 image o z appended hd slots heap,
    num_files (header s) < max_files (header s) /\
    (index < length (metadata s))%nat /\
    (forall k, (k < index)%nat -> exists m, metadata s !! k = Some m /\ valid m) /\
    metadata s !! index = Some m0 /\ is_valid m0 = 0 /\
    (forall k, ~ same_id_at (metadata s) index id k) /\
    vips_jpegload_buffer image_buffer = Some image /\
    writable (f_mode (file s)) = true /\
    insert_tables s index image_buffer m0 o z appended /\
    f_data (file s) = Image hd slots heap /\ length slots = length (metadata s) /\
    s' = ImgstFile
           (MkFILE (f_mode (file s))
              (Image (inserted_header (header s))
                 (<[index := inserted_slot image_buffer id image o z m0]> slots)
                 (heap ++ appended)))
           (inserted_header (header s))
           (<[index := inserted_slot image_buffer id image o z m0]> (metadata s)).
Proof.
  intros [Hmax (hd & slots & heap & Hdata & Hlen)] Hi.
  apply do_insert_Ret in Hi
    as (index & m0 & image & o & z & appended & c1 & c & Hfull & Hindex & Hbefore & Hm0 &
        Hinv & Hnodup & Himage & Hw & Htables & Hc1 & Hc & ->).
  exists index, m0, image, o, z, appended, hd, slots, heap.
  pose proof (lookup_lt_Some _ _ _ Hm0) as Hlt.
  split_and!; try done.
  - intros k Hdup. apply (Hnodup k); [|done].
    destruct Hdup as [_ (mk & Hmk & _)]. apply lookup_lt_Some in Hmk. lia.
  - assert (c1 = Image hd slots (heap ++ appended)) as ->.
    { destruct Hc1 as [[-> ->]|Hc1]; [by rewrite app_nil_r|].
      rewrite Hdata in Hc1. by injection Hc1 as <-. }
    simpl in Hc. rewrite bool_decide_eq_true_2 in Hc by lia. by injection Hc as <-.
Qed.

(** ** Deletion *)

Lemma do_delete_Ret id s u s' :
  do_delete id s = Ret u s' ->
  exists idx m c,
    0 < num_files (header s) /\ Z.of_nat idx < max_files (header s) /\
    metadata s !! idx = Some m /\ img_id m = id /\ valid m /\
    (forall k mk, (k < idx)%nat -> metadata s !! k = Some mk -> img_id mk = id -> ~ valid mk) /\
    writable (f_mode (file s)) = true /\
    write_slot idx (set_is_valid EMPTY m) (f_data (file s)) = Some c /\
    s' = ImgstFile (MkFILE (f_mode (file s)) (write_header (deleted_header (header s)) c))
                   (deleted_header (header s))
                   (<[idx := set_is_valid EMPTY m]> (metadata s)).
Proof.
  unfold do_delete. intros Hd. step Hd. step Hd as u1 Hnum. step Hd as idx Hfind.
  apply findMetadataIndex_Ret in Hfind as (-> & Hidx & (m & Hm & Hid & Hv) & Hfirst).
  step Hd as u2 Hmod. apply modify_metadata_Ret in Hmod as (m' & Hm' & ->).
  replace m' with m in * by congruence.
  step Hd as u3 Hupd. apply updateMetadata_Ret in Hupd as (_ & Hw & mf & c & Hmf & Hc & ->).
  step Hd as v1 Hhd1. injection Hhd1 as _ <-.
  step Hd as v2 Hhd2. injection Hhd2 as _ <-.
  apply updateHeader_Ret in Hd as [_ ->].
  unfold set_file, set_header, set_metadata in *.
  cbn [file header metadata f_mode f_data] in *.
  rewrite list_lookup_insert_eq in Hmf by (by eapply lookup_lt_Some). injection Hmf as <-.
  exists idx, m, c. split_and!; try done. lia.
Qed.

Lemma do_delete_Exit id s e s' :
  writable (f_mode (file s)) = true ->
  do_delete id s = Exit e s' -> e = ERR_FILE_NOT_FOUND /\ s' = s.
Proof.
  intros Hw. unfold do_delete. intros Hd.
  apply bind_Exit_inv in Hd as [Hd|(a & s1 & Hg & Hd)]; [done|].
  rewrite get_eq in Hg. injection Hg as <- <-.
  apply bind_Exit_inv in Hd as [Hd|(u1 & s1 & Hnum & Hd)].
  { by apply M_EXIT_IF_Exit in Hd as (_ & -> & ->). }
  apply M_EXIT_IF_Ret in Hnum as [Hnum ->].
  apply bind_Exit_inv in Hd as [Hd|(idx & s1 & Hfind & Hd)].
  { by apply findMetadataIndex_Exit in Hd. }
  apply findMetadataIndex_Ret in Hfind as (-> & Hidx & (m & Hm & Hid & Hv) & Hfirst).
  apply bind_Exit_inv in Hd as [Hd|(u2 & s1 & Hmod & Hd)].
  { by apply modify_metadata_Exit in Hd. }
  apply modify_metadata_Ret in Hmod as (m' & Hm' & ->).
  apply bind_Exit_inv in Hd as [Hd|(u3 & s1 & Hupd & Hd)].
  { apply updateMetadata_Exit in Hd as [_ [[_ Hle]|[_ Hnw]]];
      cbn [set_metadata file header f_mode] in *; [lia|congruence]. }
  apply updateMetadata_Ret in Hupd as (_ & _ & mf & c & Hmf & Hc & ->).
  apply bind_Exit_inv in Hd as [Hd|(v1 & s1 & Hhd1 & Hd)]; [done|].
  injection Hhd1 as _ <-.
  apply bind_Exit_inv in Hd as [Hd|(v2 & s1 & Hhd2 & Hd)]; [done|].
  injection Hhd2 as _ <-.
  apply updateHeader_Exit in Hd as (_ & _ & Hnw).
  cbn [set_metadata set_file set_header file header f_mode] in *. congruence.
Qed.

(** A deletion of an identifier a valid slot carries goes through, on a
    stream that takes writes. *)
Lemma do_delete_found id s idx m :
  handle_ok s -> writable (f_mode (file s)) = true ->
  0 < num_files (header s) ->
  metadata s !! idx = Some m -> img_id m = id -> valid m ->
  (forall k mk, (k < idx)%nat -> metadata s !! k = Some mk -> img_id mk = id -> ~ valid mk) ->
  exists s', do_delete id s = Ret tt s'.
Proof.
  intros [Hmax (hd & slots & heap & Hdata & Hlen)] Hw Hnum Hm Hid Hv Hfirst.
  pose proof (lookup_lt_Some _ _ _ Hm) as Hlt.
  assert (Z.of_nat idx < max_files (header s)) as Hidx by lia.
  unfold do_delete.
  rewrite (bind_Ret_eq _ _ _ _ _ (get_eq s)).
  assert ((num_files (header s) <=? 0) = false) as -> by lia.
  rewrite (bind_Ret_eq _ _ _ _ _ (M_EXIT_IF_false _ _)).
  rewrite (bind_Ret_eq _ _ _ _ _ (findMetadataIndex_found id s idx m Hidx Hm Hid Hv Hfirst)).
  rewrite (bind_Ret_eq _ _ _ _ _ (modify_metadata_eq idx _ s m Hm)).
  erewrite (bind_Ret_eq (updateMetadata idx)); cycle 1.
  { apply (updateMetadata_eq idx _ (set_is_valid EMPTY m)
             (Image hd (<[idx := set_is_valid EMPTY m]> slots) heap)); cbn [set_metadata header file metadata f_mode]; try done.
    - by apply list_lookup_insert_eq.
    - rewrite Hdata. simpl. by rewrite bool_decide_eq_true_2 by lia. }
  erewrite (bind_Ret_eq (modify_header _)) by reflexivity.
  erewrite (bind_Ret_eq (modify_header _)) by reflexivity.
  rewrite updateHeader_eq by done. eauto.
Qed.

(** ** Counting the valid slots *)

Lemma count_valid_app md1 md2 : count_valid (md1 ++ md2) = count_valid md1 + count_valid md2.
Proof. unfold count_valid. rewrite filter_app, length_app. lia. Qed.

Lemma count_valid_cons m md :
  count_valid (m :: md) = (if decide (valid m) then 1 else 0) + count_valid md.
Proof.
  unfold count_valid. rewrite filter_cons. destruct (decide (valid m)); simpl; lia.
Qed.

Lemma count_valid_insert md i m m' :
  md !! i = Some m ->
  count_valid (<[i := m']> md) =
  count_valid md - (if decide (valid m) then 1 else 0) + (if decide (valid m') then 1 else 0).
Proof.
  intros Hm. rewrite insert_take_drop by (by eapply lookup_lt_Some).
  rewrite <- (take_drop_middle md i m) at 3 by done.
  rewrite !count_valid_app, !count_valid_cons. lia.
Qed.

Lemma count_valid_bounds md : 0 <= count_valid md <= Z.of_nat (length md).
Proof. unfold count_valid. pose proof (length_filter valid md). lia. Qed.

Lemma count_valid_flags (md md' : list img_metadata) :
  is_valid <$> md' = is_valid <$> md -> count_valid md' = count_valid md.
Proof.
  revert md'. induction md as [|m md IH]; intros [|m' md']; try done.
  rewrite !fmap_cons. intros [= Hm Hmd]. rewrite !count_valid_cons, (IH md') by done.
  destruct (decide (valid m')) as [Hv'|Hv'], (decide (valid m)) as [Hv|Hv]; try done;
    unfold valid in *; rewrite Hm in *; tauto.
Qed.

Lemma count_valid_replicate n : count_valid (replicate n zero_metadata) = 0.
Proof.
  induction n as [|n IH]; [done|]. simpl. rewrite count_valid_cons, IH.
  by rewrite decide_False by (by intros Hv; apply Hv).
Qed.

(** ** Creation *)

Lemma do_create_loop_spec fuel i mode hd h md :
  writable mode = true -> max_files h = Z.of_nat (length md) ->
  (i + fuel = length md)%nat ->
  do_create_loop i fuel (ImgstFile (MkFILE mode (Image hd (take i md) [])) h md) =
  Ret tt (ImgstFile (MkFILE mode (Image hd md [])) h md).
Proof.
  intros Hw Hmax. revert i. induction fuel as [|fuel IH]; intros i Hlen; simpl.
  - by rewrite take_ge by lia.
  - destruct (lookup_lt_is_Some_2 md i) as [m Hm]; [lia|].
    rewrite (bind_Ret_eq _ _ _ tt (ImgstFile (MkFILE mode (Image hd (take (S i) md) [])) h md)).
    { apply IH. lia. }
    unfold updateMetadata. rewrite (bind_Ret_eq _ _ _ _ _ (get_eq _)).
    cbn [header file metadata f_mode f_data].
    assert ((max_files h <=? Z.of_nat i) = false) as -> by lia.
    rewrite (bind_Ret_eq _ _ _ _ _ (M_EXIT_IF_false _ _)).
    rewrite (bind_Ret_eq _ _ _ m _
               (metadata_at_eq i (ImgstFile (MkFILE mode (Image hd (take i md) [])) h md) m Hm)).
    rewrite Hw. unfold write_slot.
    rewrite bool_decide_eq_false_2 by (rewrite length_take; lia).
    rewrite length_take, Nat.min_l, Nat.sub_diag by lia. simpl.
    by rewrite (take_S_r md i m).
Qed.

Lemma do_create_Some fs name h s :
  0 <= max_files h ->
  do_create fs name h = Some (inr s) ->
  exists h' md,
    h' = set_num_files INIT_NB_FILES
           (set_imgst_version INIT_VER
              (set_imgst_name (String.substring 0 MAX_IMGST_NAME CAT_TXT) h)) /\
    md = replicate (Z.to_nat (max_files h)) zero_metadata /\
    s = ImgstFile (MkFILE WB (Image h' md [])) h' md.
Proof.
  intros Hmax. unfold do_create, fopen.
  destruct (fs_creatable fs name); [|done].
  set (h' := set_num_files _ _).
  set (md := replicate _ _).
  assert (max_files h' = max_files h) as Hh' by done.
  assert (length md = Z.to_nat (max_files h)) as Hlen by apply length_replicate.
  rewrite (bind_Ret_eq _ _ _ tt (ImgstFile (MkFILE WB (Image h' [] [])) h' md)) by done.
  rewrite (bind_Ret_eq _ _ _ tt (ImgstFile (MkFILE WB (Image h' md [])) h' md)).
  - destruct (negb _); simpl; [done|]. intros [= <-]. by exists h', md.
  - rewrite Hh'. apply (do_create_loop_spec _ 0 WB h' h' md); [done| |]; lia.
Qed.

(** ** What a failed insertion leaves *)

Lemma grows_refl c : grows c c.
Proof. destruct c; simpl; [done|]. split_and!; [done..|]. exists []. by rewrite app_nil_r. Qed.

Lemma scratched_slot s index m0 m c :
  metadata s !! index = Some m0 -> is_valid m = is_valid m0 ->
  grows (f_data (file s)) c ->
  scratched s (ImgstFile (MkFILE (f_mode (file s)) c) (header s) (<[index := m]> (metadata s))).
Proof.
  intros Hm0 Hv Hc. unfold scratched. cbn [header file metadata f_mode f_data].
  split_and!; [done..|].
  rewrite list_fmap_insert. apply list_insert_id. by rewrite list_lookup_fmap, Hm0, Hv.
Qed.

Lemma do_insert_loop_Exit fuel index s e s' : do_insert_loop index fuel s = Exit e s' -> False.
Proof.
  revert index. induction fuel as [|fuel IH]; intros index; simpl; [done|].
  unfold mbind, M_bind, metadata_at. destruct (metadata s !! index) as [m|]; [|done].
  destruct (negb (is_valid m =? 0)); [apply IH | done].
Qed.

Ltac exit_step H a Ha :=
  let s1 := fresh "s" in
  apply bind_Exit_inv in H as [H|(a & s1 & Ha & H)].

Lemma do_insert_Exit image_buffer id s e s' :
  writable (f_mode (file s)) = true ->
  do_insert image_buffer id s = Exit e s' -> scratched s s'.
Proof.
  intros Hw. unfold do_insert. intros Hi.
  assert (scratched s s) as Hrefl.
  { unfold scratched. split_and!; [done..|apply grows_refl|done]. }
  exit_step Hi a Hg; [done|]. rewrite get_eq in Hg. injection Hg as <- <-.
  exit_step Hi u1 Hfull. { by apply M_EXIT_IF_Exit in Hi as (_ & _ & ->). }
  apply M_EXIT_IF_Ret in Hfull as [Hfull ->].
  exit_step Hi index Hloop. { by apply do_insert_loop_Exit in Hi. }
  apply do_insert_loop_Ret in Hloop as (-> & _ & _ & _).
  exit_step Hi u2 Hsha. { by apply modify_metadata_Exit in Hi. }
  apply modify_metadata_Ret in Hsha as (m0 & Hm0 & ->).
  pose proof (lookup_lt_Some _ _ _ Hm0) as Hindex.
  unfold set_metadata in Hi. cbn [file header metadata] in Hi.
  exit_step Hi u3 Hid. { by apply modify_metadata_Exit in Hi. }
  apply modify_metadata_inserted in Hid as ->; [|done].
  set (mi := set_img_id (memcpy_img_id id (SHA256 image_buffer)) (set_SHA (SHA256 image_buffer) m0)) in *.
  assert (forall F hd m, is_valid m = is_valid m0 -> grows (f_data (file s)) (f_data F) ->
            f_mode F = f_mode (file s) -> hd = header s ->
            scratched s (ImgstFile F hd (<[index := m]> (metadata s)))) as Hok.
  { intros [mode c] hd m Hv Hc Hmode ->. simpl in Hmode. subst mode.
    by apply scratched_slot with m0. }
  exit_step Hi u4 Hd.
  { apply (do_name_and_content_dedup_Exit _ _ _ _ mi) in Hi; [|by apply list_lookup_insert_eq].
    destruct Hi as [(_ & _ & ->)|(_ & o & z & ->)].
    - apply Hok; [done|apply grows_refl|done..].
    - unfold set_metadata. cbn [file header metadata]. rewrite list_insert_insert_eq.
      apply Hok; [done|apply grows_refl|done..]. }
  apply (do_name_and_content_dedup_Ret _ _ _ _ mi) in Hd; [|by apply list_lookup_insert_eq].
  cbn [file header metadata] in Hd. destruct Hd as (Hlt & _ & Hd).
  assert (exists m1, is_valid m1 = is_valid m0 /\
            s0 = ImgstFile (file s) (header s) (<[index := m1]> (metadata s)))
    as (m1 & Hv1 & ->).
  { destruct Hd as [[_ ->]|(k & mk & _ & _ & _ & _ & _ & _ & ->)];
      unfold set_metadata; cbn [file header metadata]; rewrite list_insert_insert_eq;
      (eexists; split; [|reflexivity]; reflexivity). }
  exit_step Hi m1' Hm1. { by apply metadata_at_Exit in Hi. }
  apply metadata_at_inserted in Hm1 as [-> ->]; [|done].
  assert (forall (B : Type) (k : M B) eb sb,
    ((if res_get (offset m1) RES_ORIG =? 0
      then s ← get;
           modify_metadata index
             (fun m => set_offset (res_set (offset m) RES_ORIG (file_size (f_data (file s)))) m);;
           fwrite_end image_buffer
      else mret tt) ≫= (fun _ => k))
      (ImgstFile (file s) (header s) (<[index := m1]> (metadata s))) = Exit eb sb ->
    scratched s sb \/
    exists m2 c, is_valid m2 = is_valid m0 /\ grows (f_data (file s)) c /\
      k (ImgstFile (MkFILE (f_mode (file s)) c) (header s) (<[index := m2]> (metadata s)))
      = Exit eb sb) as Hbranch.
  { intros B k eb sb Hb. exit_step Hb u5 Happend.
    - left. destruct (res_get (offset m1) RES_ORIG =? 0); [|done].
      exit_step Hb a Hg; [done|]. rewrite get_eq in Hg. injection Hg as <- <-.
      exit_step Hb u6 Hmod. { by apply modify_metadata_Exit in Hb. }
      apply modify_metadata_inserted in Hmod as ->; [|done].
      unfold fwrite_end, mbind, M_bind in Hb. simpl in Hb.
      destruct (_ && _); [by destruct (append_bytes _ _)|].
      injection Hb as _ <-. apply Hok; [done|apply grows_refl|done..].
    - right. destruct (res_get (offset m1) RES_ORIG =? 0).
      + step Happend. modify_step Happend.
        apply fwrite_end_Ret in Happend as (_ & _ & c & Hc & ->).
        cbn [file f_data f_mode set_file header metadata] in *.
        eexists _, c. split_and!; [|  |exact Hb]; [done|].
        unfold append_bytes in Hc. destruct (f_data (file s)); [done|].
        injection Hc as <-. simpl. split_and!; eauto.
      + injection Happend as _ <-. exists m1, (f_data (file s)).
        split_and!; [done|apply grows_refl|]. by destruct s as [[? ?] ? ?]. }
  apply Hbranch in Hi as [Hi|(m2 & c & Hv2 & Hc & Hi)]; [done|]. clear Hbranch.
  exit_step Hi hw Hres.
  { unfold get_resolution in Hi. destruct (vips_jpegload_buffer _); [done|].
    injection Hi as _ <-. by apply Hok. }
  apply get_resolution_Ret in Hres as (-> & image & Himage & ->).
  exit_step Hi v1 Hmod. { by apply modify_metadata_Exit in Hi. }
  apply modify_metadata_inserted in Hmod as ->; [|done].
  exit_step Hi v2 Hmod. { by apply modify_metadata_Exit in Hi. }
  apply modify_metadata_inserted in Hmod as ->; [|done].
  exit_step Hi v3 Hmod. { by apply modify_metadata_Exit in Hi. }
  apply modify_metadata_inserted in Hmod as ->; [|done].
  exit_step Hi v4 Hhd1; [done|]. injection Hhd1 as _ <-.
  exit_step Hi v5 Hhd2; [done|]. injection Hhd2 as _ <-.
  exit_step Hi v6 Hupd.
  { apply updateHeader_Exit in Hi as (_ & _ & Hnw). simpl in Hnw. congruence. }
  apply updateHeader_Ret in Hupd as [_ ->].
  apply updateMetadata_Exit in Hi as [_ [[_ Hle]|[_ Hnw]]]; simpl in *; [lia|congruence].
Qed.

(** ** The hypotheses of the theorems hold of the stores the library makes *)

Lemma do_create_ok fs name h s C :
  0 <= max_files h ->
  do_create fs name h = Some (inr s) ->
  handle_ok s /\ mirrored s /\ originals_ok s /\ collision_free C s.
Proof.
  intros Hmax Hc. apply do_create_Some in Hc as (h' & md & -> & -> & ->); [|done].
  assert (forall i m, replicate (Z.to_nat (max_files h)) zero_metadata !! i = Some m -> ~ valid m)
    as Hzero.
  { intros i m Hm Hv. apply lookup_replicate in Hm as [-> _]. by apply Hv. }
  split_and!.
  - split; cbn [header file metadata f_data].
    + rewrite length_replicate. change (max_files h = Z.of_nat (Z.to_nat (max_files h))). lia.
    + by eexists _, _, _.
  - by eexists _, _.
  - intros i m Hm Hv. by destruct (Hzero i m Hm).
  - intros i m bs Hm Hv. by destruct (Hzero i m Hm).
Qed.

Lemma do_open_ok fs name open_mode s h slots heap :
  fs_file fs name = Some (Image h slots heap) ->
  length slots = Z.to_nat (max_files h) -> 0 <= max_files h ->
  do_open fs name open_mode = Some (inr s) ->
  handle_ok s /\ mirrored s /\ header s = h /\ metadata s = slots.
Proof.
  intros Hfile Hlen Hmax. unfold do_open, fopen.
  destruct (negb _); [done|].
  destruct (strcmp open_mode "rb" =? 0); rewrite Hfile; cbn [f_data];
    (rewrite bool_decide_eq_true_2 by lia);
    (destruct (_ =? _); [|done]); intros [= <-];
    rewrite <- Hlen, firstn_all;
    (split_and!; [split; [cbn; lia|by eexists _, _, _]|by eexists _, _|done|done]).
Qed.

Lemma mirrored_insert image_buffer id s u s' :
  handle_ok s -> mirrored s -> do_insert image_buffer id s = Ret u s' -> mirrored s'.
Proof.
  intros Hok (slots0 & heap0 & Hdata0 & Hlen0 & Hsync) Hi.
  apply do_insert_Ret_ok in Hi
    as (index & m0 & image & o & z & appended & hd & slots & heap & _ & Hindex & _ & _ & _ & _ &
        _ & _ & _ & Hdata & Hlen & ->); [|done].
  rewrite Hdata in Hdata0. injection Hdata0 as -> <- <-.
  eexists _, _. cbn [header file metadata f_data]. split_and!; [done|by rewrite !length_insert|].
  intros i m Hm Hv. destruct (decide (i = index)) as [->|Hne].
  - rewrite list_lookup_insert_eq in Hm by done. rewrite list_lookup_insert_eq by lia. done.
  - rewrite list_lookup_insert_ne in Hm by done. rewrite list_lookup_insert_ne by done. auto.
Qed.

Lemma mirrored_delete id s u s' :
  mirrored s -> do_delete id s = Ret u s' -> mirrored s'.
Proof.
  intros (slots & heap & Hdata & Hlen & Hsync) Hd.
  apply do_delete_Ret in Hd as (idx & m & c & _ & _ & Hm & _ & _ & _ & _ & Hc & ->).
  pose proof (lookup_lt_Some _ _ _ Hm) as Hlt.
  rewrite Hdata in Hc. simpl in Hc. rewrite bool_decide_eq_true_2 in Hc by lia.
  injection Hc as <-.
  eexists _, _. cbn [header file metadata f_data write_header].
  split_and!; [done|by rewrite !length_insert|].
  intros i mi Hmi Hv. destruct (decide (i = idx)) as [->|Hne].
  - rewrite list_lookup_insert_eq in Hmi by done. rewrite list_lookup_insert_eq by lia. done.
  - rewrite list_lookup_insert_ne in Hmi by done. rewrite list_lookup_insert_ne by done. auto.
Qed.

Lemma do_open_file fs name open_mode s c :
  fs_file fs name = Some c ->
  do_open fs name open_mode = Some (inr s) ->
  file s = MkFILE (if strcmp open_mode "rb" =? 0 then RB else RBplus) c.
Proof.
  intros Hfile. unfold do_open, fopen.
  destruct (negb _); [done|].
  destruct (strcmp open_mode "rb" =? 0); rewrite Hfile; cbn [f_data];
    destruct c; try done; repeat case_match; try done; by intros [= <-].
Qed.

(** ** The invariant of a store *)

Lemma uint32_small z : 0 <= z < 2 ^ 32 -> uint32 z = z.
Proof. intros Hz. unfold uint32. by apply Z.mod_small. Qed.

Lemma store_inv_create fs name h s :
  0 <= max_files h < 2 ^ 32 -> do_create fs name h = Some (inr s) -> store_inv s.
Proof.
  intros Hmax Hc. apply do_create_Some in Hc as (h' & md & -> & -> & ->); [|lia].
  unfold store_inv, handle_ok, header_of, slots_of.
  cbn [header file metadata f_mode f_data].
  rewrite length_replicate, count_valid_replicate.
  split_and!; try done; try lia.
  - change (max_files h = Z.of_nat (Z.to_nat (max_files h))). lia.
  - eexists _, _, _. split; [done|]. by rewrite length_replicate.
  - change (0 <= max_files h). lia.
  - change (max_files h < 2 ^ 32). lia.
Qed.

Lemma store_inv_insert_Ret image_buffer id s u s' :
  store_inv s -> do_insert image_buffer id s = Ret u s' ->
  store_inv s' /\ num_files (header s') = num_files (header s) + 1.
Proof.
  intros (Hok & Hw & Hmax & Hnum & Hhd & Hflags) Hi.
  apply do_insert_Ret_ok in Hi
    as (index & m0 & image & o & z & appended & hd & slots & heap & Hfull & Hindex & _ & Hm0 &
        Hinv & _ & _ & _ & _ & Hdata & Hlen & ->); [|done].
  destruct Hok as [Hmaxlen _].
  unfold slots_of in Hflags. rewrite Hdata in Hflags.
  pose proof (count_valid_bounds (metadata s)) as Hb.
  assert (num_files (inserted_header (header s)) = num_files (header s) + 1) as Hnum'.
  { change (uint32 (num_files (header s) + 1) = num_files (header s) + 1).
    apply uint32_small. lia. }
  split; [|done]. unfold store_inv, handle_ok, header_of, slots_of.
  cbn [header file metadata f_mode f_data]. rewrite Hnum', length_insert.
  split_and!; try exact Hmaxlen; try exact Hw; try apply Hmax; try reflexivity;
    try (eexists _, _, _; split; [reflexivity|]; by rewrite ?length_insert).
  - rewrite (count_valid_insert _ _ m0) by done.
    rewrite decide_False by (unfold valid, EMPTY; lia).
    rewrite decide_True by done. lia.
  - by rewrite !list_fmap_insert, Hflags.
Qed.

Lemma store_inv_insert_Exit image_buffer id s e s' :
  store_inv s -> do_insert image_buffer id s = Exit e s' -> store_inv s'.
Proof.
  intros ([Hmaxlen (hd & slots & heap & Hdata & Hlen)] & Hw & Hmax & Hnum & Hhdr & Hflags) Hi.
  apply do_insert_Exit in Hi as (Hhd & Hmode & Hgrow & Hvalid); [|done].
  assert (length (metadata s') = length (metadata s)) as Hlen'.
  { by rewrite <- (length_fmap is_valid), Hvalid, length_fmap. }
  unfold header_of, slots_of in *. rewrite Hdata in *.
  destruct (f_data (file s')) as [|hd' slots' heap'] eqn:Hdata'; [done|].
  destruct Hgrow as (-> & -> & _).
  unfold store_inv, handle_ok, header_of, slots_of. rewrite Hhd, Hmode, Hlen', Hdata', Hvalid.
  split_and!; try done; try apply Hmax.
  - eauto.
  - rewrite Hnum. symmetry. by apply count_valid_flags.
Qed.

Lemma store_inv_delete_Ret id s u s' :
  store_inv s -> do_delete id s = Ret u s' ->
  store_inv s' /\ num_files (header s') = num_files (header s) - 1.
Proof.
  intros ([Hmaxlen (hd & slots & heap & Hdata & Hlen)] & Hw & Hmax & Hnum & Hhdr & Hflags) Hd.
  apply do_delete_Ret in Hd as (idx & m & c & Hpos & Hidx & Hm & _ & Hv & _ & _ & Hc & ->).
  pose proof (lookup_lt_Some _ _ _ Hm) as Hlt.
  unfold slots_of in Hflags. rewrite Hdata in Hflags.
  rewrite Hdata in Hc. simpl in Hc. rewrite bool_decide_eq_true_2 in Hc by lia.
  injection Hc as <-.
  pose proof (count_valid_bounds (metadata s)) as Hb.
  assert (num_files (deleted_header (header s)) = num_files (header s) - 1) as Hnum'.
  { change (uint32 (num_files (header s) - 1) = num_files (header s) - 1).
    apply uint32_small. lia. }
  split; [|done]. unfold store_inv, handle_ok, header_of, slots_of.
  cbn [header file metadata f_mode f_data write_header]. rewrite Hnum', length_insert.
  split_and!; try exact Hmaxlen; try exact Hw; try apply Hmax; try reflexivity;
    try (eexists _, _, _; split; [reflexivity|]; by rewrite ?length_insert).
  - rewrite (count_valid_insert _ _ m) by done.
    rewrite decide_True by done.
    rewrite decide_False by (intros Hv'; by apply Hv'). lia.
  - by rewrite !list_fmap_insert, Hflags.
Qed.

Lemma store_inv_reopen s fs name s' :
  store_inv s -> fs_file fs name = Some (f_data (file s)) ->
  do_open fs name "rb+" = Some (inr s') -> store_inv s'.
Proof.
  intros ([Hmaxlen (hd & slots & heap & Hdata & Hlen)] & Hw & Hmax & Hnum & Hhdr & Hflags)
         Hfile Hopen.
  unfold header_of, slots_of in *. rewrite Hdata in *. injection Hhdr as ->.
  pose proof (do_open_file _ _ _ _ _ Hfile Hopen) as Hfile'.
  apply (do_open_ok _ _ _ _ (header s) slots heap) in Hopen as (Hok' & _ & Hh' & Hmd');
    [|done|lia|lia].
  unfold store_inv, header_of, slots_of.
  rewrite Hh', Hmd', Hfile'. cbn [f_data f_mode].
  split_and!; try done; try apply Hmax.
  rewrite Hnum. symmetry. by apply count_valid_flags.
Qed.

Lemma store_inv_reachable s : reachable s -> store_inv s.
Proof.
  induction 1 as [fs name h s Hmax Hc|s image_buffer id s' _ IH Hf|s id s' _ IH Hf
                 |s fs name s' _ IH Hfile Hopen].
  - by eapply store_inv_create.
  - destruct (do_insert image_buffer id s) as [u s1|e s1|] eqn:Hi; simpl in Hf; [| |done];
      injection Hf as ->.
    + by eapply store_inv_insert_Ret.
    + by eapply store_inv_insert_Exit.
  - destruct (do_delete id s) as [u s1|e s1|] eqn:Hd; simpl in Hf; [| |done];
      injection Hf as ->.
    + by eapply store_inv_delete_Ret.
    + apply do_delete_Exit in Hd as [_ ->]; [done|]. apply IH.
  - by eapply store_inv_reopen.
Qed.

(** C5: in every state a store reaches by creation, insertions and
    deletions, [num_files] is at most [max_files] and is the number of
    valid slots; a successful insertion adds exactly one to it and a
    successful deletion takes exactly one off. *)
Theorem num_files_counts_valid_slots s :
  reachable s ->
  num_files (header s) <= max_files (header s) /\
  num_files (header s) = count_valid (metadata s) /\
  (forall image_buffer id s',
     do_insert image_buffer id s = Ret tt s' ->
     num_files (header s') = num_files (header s) + 1) /\
  (forall id s',
     do_delete id s = Ret tt s' ->
     num_files (header s') = num_files (header s) - 1).
Proof.
  intros Hr. pose proof (store_inv_reachable s Hr) as Hinv.
  pose proof Hinv as ([Hmaxlen _] & _ & _ & Hnum & _).
  pose proof (count_valid_bounds (metadata s)).
  split_and!; [lia|done| |].
  - intros image_buffer id s' Hi. by eapply store_inv_insert_Ret.
  - intros id s' Hd. by eapply store_inv_delete_Ret.
Qed.

(** C6: when [num_files] has reached [max_files], [do_insert] returns
    [ERR_FULL_IMGSTORE] and leaves the handle as it was, whatever the slot
    table holds; so it does on a store of capacity 1 after its first
    insertion, whose [num_files] is 1. *)
Theorem do_insert_full :
  (forall image_buffer id s,
     max_files (header s) <= num_files (header s) ->
     do_insert image_buffer id s = Exit ERR_FULL_IMGSTORE s) /\
  (forall fs name h s0 image1 id1 s1 image2 id2,
     max_files h = 1 ->
     do_create fs name h = Some (inr s0) ->
     do_insert image1 id1 s0 = Ret tt s1 ->
     do_insert image2 id2 s1 = Exit ERR_FULL_IMGSTORE s1 /\ num_files (header s1) = 1).
Proof.
  assert (forall image_buffer id s,
     max_files (header s) <= num_files (header s) ->
     do_insert image_buffer id s = Exit ERR_FULL_IMGSTORE s) as Hfull.
  { intros image_buffer id s Hle. unfold do_insert.
    rewrite (bind_Ret_eq _ _ _ _ _ (get_eq s)).
    assert ((max_files (header s) <=? num_files (header s)) = true) as -> by lia.
    by rewrite (bind_Exit_eq _ _ _ _ _ (M_EXIT_IF_true _ _)). }
  split; [done|].
  intros fs name h s0 image1 id1 s1 image2 id2 Hcap Hc Hi.
  assert (store_inv s0) as Hinv by (eapply store_inv_create; [|done]; lia).
  pose proof Hinv as (_ & _ & _ & Hnum).
  apply do_create_Some in Hc as (h' & md & -> & -> & ->); [|lia].
  pose proof Hi as Hi'.
  apply store_inv_insert_Ret in Hi as [_ Hnum1]; [|done].
  apply do_insert_Ret in Hi' as (? & ? & ? & ? & ? & ? & ? & ? & _ & _ & _ & _ & _ & _ & _ & _ & _ & _ & _ & ->).
  cbn [header] in *. change (num_files (set_num_files _ _)) with 0 in Hnum1.
  split; [|done]. apply Hfull. cbn [header]. rewrite Hnum1.
  change (max_files h <= 0 + 1). lia.
Qed.

(** ** Materializing a variant *)

Lemma fread_at_Ret off n s bs s' :
  fread_at off n s = Ret bs s' ->
  s' = s /\ readable (f_mode (file s)) = true /\
  read_bytes off n (f_data (file s)) = Some (Some bs).
Proof.
  unfold fread_at. intros Hr. step Hr.
  destruct (readable _); [|done].
  destruct (read_bytes _ _ _) as [[bs'|]|]; try done. by injection Hr as <- <-.
Qed.

Lemma fread_at_eq off n s bs :
  readable (f_mode (file s)) = true ->
  read_bytes off n (f_data (file s)) = Some (Some bs) ->
  fread_at off n s = Ret bs s.
Proof.
  intros Hr Hb. unfold fread_at. rewrite (bind_Ret_eq _ _ _ _ _ (get_eq s)).
  by rewrite Hr, Hb.
Qed.

Lemma read_bytes_Some off n c bs :
  read_bytes off n c = Some (Some bs) ->
  exists h slots heap,
    c = Image h slots heap /\ 0 < n /\ table_end slots <= off /\
    off + n <= file_size c /\
    bs = take (Z.to_nat n) (drop (Z.to_nat (off - table_end slots)) heap) /\
    Z.of_nat (length bs) = n.
Proof.
  unfold read_bytes. destruct (_ || _) eqn:E; [done|].
  apply orb_false_iff in E as [Hn Hsize].
  destruct c as [|h slots heap]; [done|].
  destruct (off <? table_end slots) eqn:Eoff; [done|]. intros [= <-].
  exists h, slots, heap. unfold file_size in *.
  split_and!; try done; try lia.
  rewrite length_take, length_drop. lia.
Qed.

Lemma resolution_of_code_Some c r : resolution_of_code c = Some r -> c = code_of_resolution r.
Proof.
  unfold resolution_of_code.
  destruct (c =? 0) eqn:E0; [intros [= <-]; simpl; lia|].
  destruct (c =? 1) eqn:E1; [intros [= <-]; simpl; lia|].
  destruct (c =? 2) eqn:E2; [intros [= <-]; simpl; lia|done].
Qed.

Lemma resolution_of_code_of r : resolution_of_code (code_of_resolution r) = Some r.
Proof. by destruct r. Qed.

(** A call of [lazily_resize] that returns [ERR_NONE] either had nothing to
    do, or appended the resized variant of the original and recorded it in
    the slot, in memory and in the file. *)
Lemma lazily_resize_Ret res_code idx s u s' :
  lazily_resize res_code idx s = Ret u s' ->
  (s' = s /\
   (res_code = code_of_resolution RES_ORIG \/
    exists r m, resolution_of_code res_code = Some r /\ metadata s !! idx = Some m /\
                res_get (offset m) r <> 0)) \/
  exists r m original variant c c',
    resolution_of_code res_code = Some r /\ r <> RES_ORIG /\
    metadata s !! idx = Some m /\ valid m /\ res_get (offset m) r = 0 /\
    read_bytes (at_orig (offset m)) (at_orig (size m)) (f_data (file s)) = Some (Some original) /\
    resized_variant (header s) res_code original = Some variant /\
    append_bytes variant (f_data (file s)) = Some c /\
    write_slot idx (materialized_slot r (file_size (f_data (file s)))
                      (Z.of_nat (length variant)) m) c = Some c' /\
    s' = ImgstFile (MkFILE (f_mode (file s)) c') (header s)
           (<[idx := materialized_slot r (file_size (f_data (file s)))
                       (Z.of_nat (length variant)) m]> (metadata s)).
Proof.
  unfold lazily_resize. destruct (res_code =? code_of_resolution RES_ORIG) eqn:Eorig.
  { intros [= _ <-]. left. split; [done|]. left. lia. }
  destruct (resolution_of_code res_code) as [r|] eqn:Er; [|done].
  intros Hl. step Hl as u1 Hv.
  apply validMetadataIndex_Ret in Hv as (-> & _ & mv & Hmv & Hvalid).
  step Hl as m Hm. replace mv with m in * by congruence.
  destruct (res_get (offset m) r =? INIT_OFFSET) eqn:Eoff; simpl in Hl.
  2:{ injection Hl as _ <-. left. split; [done|]. right. exists r, m.
      split_and!; [done..|]. by apply Z.eqb_neq in Eoff. }
  right. apply Z.eqb_eq in Eoff.
  step Hl as image Hread. unfold read_vips_from_file in Hread.
  step Hread as original Horig. apply fread_at_Ret in Horig as (-> & Hr & Horig).
  destruct (vips_jpegload_buffer original) as [image'|] eqn:Himage; [|done].
  injection Hread as <- <-.
  step Hl. step Hl as size' Hwrite. unfold write_vips_to_file in Hwrite.
  destruct (vips_jpegsave_buffer _) as [variant|] eqn:Hsave; [|done].
  step Hwrite as u2 Happend. injection Hwrite as <- <-.
  apply or_abort_Ret, fwrite_end_Ret in Happend as (Hw & _ & c & Hc & ->).
  pose proof (lookup_lt_Some _ _ _ Hm) as Hidx.
  step Hl as u3 Hmod1. apply modify_metadata_Ret in Hmod1 as (m1 & Hm1 & ->).
  step Hl as u4 Hmod2. apply modify_metadata_Ret in Hmod2 as (m2 & Hm2 & ->).
  apply updateMetadata_Ret in Hl as (_ & _ & mf & c' & Hmf & Hc' & ->).
  unfold set_file, set_metadata in *. cbn [file header metadata f_mode f_data] in *.
  replace m1 with m in * by congruence.
  rewrite list_lookup_insert_eq in Hm2 by done. injection Hm2 as <-.
  rewrite list_insert_insert_eq in *.
  rewrite list_lookup_insert_eq in Hmf by done. injection Hmf as <-.
  exists r, m, original, variant, c, c'.
  split_and!; try done.
  - intros ->. apply resolution_of_code_Some in Er. subst res_code. done.
  - unfold resized_variant. by rewrite Himage.
Qed.

(** ** Reading *)

Lemma res_get_set_eq {A} (a : res_array A) r x : res_get (res_set a r x) r = x.
Proof. by destruct r. Qed.

Lemma do_read_Ret id resolution s result s' :
  do_read id resolution s = Ret result s' ->
  exists r idx m u m',
    resolution_of_code resolution = Some r /\
    findMetadataIndex id s = Ret idx s /\
    metadata s !! idx = Some m /\
    (res_get (offset m) r <> 0 /\ s' = s \/
     res_get (offset m) r = 0 /\ lazily_resize resolution idx s = Ret u s') /\
    metadata s' !! idx = Some m' /\
    fread_at (res_get (offset m') r) (res_get (size m') r) s' = Ret (fst result) s' /\
    snd result = res_get (size m') r.
Proof.
  unfold do_read. destruct (resolution_of_code resolution) as [r|] eqn:Er; [|done].
  intros Hr. step Hr as idx Hfind. pose proof Hfind as Hfind'.
  apply findMetadataIndex_Ret in Hfind' as (-> & _). step Hr as m Hm.
  step Hr as u Hresize. step Hr as m' Hm'. step Hr as buffer Hread.
  injection Hr as <- <-. pose proof Hread as Hread'.
  apply fread_at_Ret in Hread' as (-> & _).
  exists r, idx, m, u, m'. split_and!; try done.
  destruct (res_get (offset m) r =? INIT_OFFSET) eqn:Eoff.
  - right. split; [by apply Z.eqb_eq in Eoff|done].
  - left. split; [by apply Z.eqb_neq in Eoff|]. by injection Hresize as _ <-.
Qed.

Lemma findMetadataIndex_insert id s idx m m' F :
  findMetadataIndex id s = Ret idx s ->
  metadata s !! idx = Some m -> img_id m' = img_id m -> is_valid m' = is_valid m ->
  findMetadataIndex id (ImgstFile F (header s) (<[idx := m']> (metadata s))) =
  Ret idx (ImgstFile F (header s) (<[idx := m']> (metadata s))).
Proof.
  intros Hfind Hm Hid Hv.
  apply findMetadataIndex_Ret in Hfind as (_ & Hidx & (m0 & Hm0 & Hid0 & Hv0) & Hfirst).
  replace m0 with m in * by congruence.
  pose proof (lookup_lt_Some _ _ _ Hm) as Hlt.
  apply findMetadataIndex_found with m'; cbn [header metadata].
  - done.
  - by apply list_lookup_insert_eq.
  - congruence.
  - unfold valid in *. congruence.
  - intros k mk Hk Hmk. rewrite list_lookup_insert_ne in Hmk by lia. by eapply Hfirst.
Qed.

(** C7: a second [do_read] of the same variant returns the same bytes and
    the same size as the first and leaves the handle, slot table and file
    included, exactly as the first call left it; the offset of a THUMBNAIL
    or SMALL variant is not zero once the first call has returned. *)
Theorem do_read_twice id resolution s buffer image_size s1 :
  do_read id resolution s = Ret (buffer, image_size) s1 ->
  do_read id resolution s1 = Ret (buffer, image_size) s1 /\
  (forall r, resolution_of_code resolution = Some r -> r <> RES_ORIG ->
     exists idx m,
       findMetadataIndex id s1 = Ret idx s1 /\ metadata s1 !! idx = Some m /\
       res_get (offset m) r <> 0).
Proof.
  intros Hfirst. pose proof Hfirst as Hinv.
  apply do_read_Ret in Hinv
    as (r & idx & m & u & m' & Hr & Hfind & Hm & Hcase & Hm' & Hread & Hsize).
  simpl in Hread, Hsize.
  destruct Hcase as [[Hnz ->]|[Hz Hresize]].
  { split; [done|]. intros r' Hr' _. replace r' with r by congruence. eauto. }
  apply lazily_resize_Ret in Hresize
    as [[-> Hwhy]|(r' & m0 & original & variant & c & c' & Hr' & Hnot & Hm0 & Hv & _ &
                   Horig & _ & Hc & _ & ->)].
  { split; [done|]. intros r' Hr' Hnot. replace r' with r in * by congruence.
    destruct Hwhy as [->|(r'' & m'' & Hr'' & Hm'' & Hnz)].
    - rewrite resolution_of_code_of in Hr. congruence.
    - replace r'' with r in * by congruence. replace m'' with m in * by congruence. done. }
  replace r' with r in * by congruence. replace m0 with m in * by congruence.
  pose proof (lookup_lt_Some _ _ _ Hm) as Hidx.
  cbn [metadata] in Hm'. rewrite list_lookup_insert_eq in Hm' by done. injection Hm' as <-.
  set (mm := materialized_slot r _ _ m) in *.
  set (s1 := ImgstFile _ _ _) in *.
  assert (res_get (offset mm) r <> 0) as Hnz.
  { apply read_bytes_Some in Horig as (h & slots & heap & Hdata & Hn & Hoff & Hend & _).
    assert (0 < file_size (f_data (file s))).
    { rewrite Hdata in *.
      unfold file_size, table_end, sizeof_imgst_header, sizeof_img_metadata in *. lia. }
    subst mm. change (offset (materialized_slot r ?off ?len m)) with (res_set (offset m) r off).
    rewrite res_get_set_eq. lia. }
  assert (findMetadataIndex id s1 = Ret idx s1) as Hfind1.
  { by apply findMetadataIndex_insert with m. }
  assert (metadata s1 !! idx = Some mm) as Hmm.
  { cbn [s1 metadata]. by apply list_lookup_insert_eq. }
  split; [|intros r2 Hr2 _; replace r2 with r by congruence; eauto].
  unfold do_read. rewrite Hr.
  rewrite (bind_Ret_eq _ _ _ _ _ Hfind1).
  rewrite (bind_Ret_eq _ _ _ _ _ (metadata_at_eq _ _ _ Hmm)).
  apply Z.eqb_neq in Hnz. unfold INIT_OFFSET. rewrite Hnz.
  rewrite (bind_Ret_eq _ _ _ tt s1) by done.
  rewrite (bind_Ret_eq _ _ _ _ _ (metadata_at_eq _ _ _ Hmm)).
  rewrite (bind_Ret_eq _ _ _ _ _ Hread). by rewrite Hsize.
Qed.

(** ** The version counter *)

(** C9, as the code has it: a successful insertion and a successful
    deletion each add one to [imgst_version], modulo 2^32; a [do_read],
    also when it materializes a variant and rewrites the slot, leaves the
    whole header, version included, as it was. *)
Theorem version_bumped_by_insert_and_delete_only :
  (forall image_buffer id s s',
     do_insert image_buffer id s = Ret tt s' ->
     imgst_version (header s') = uint32 (imgst_version (header s) + 1)) /\
  (forall id s s',
     do_delete id s = Ret tt s' ->
     imgst_version (header s') = uint32 (imgst_version (header s) + 1)) /\
  (forall res_code idx s s',
     lazily_resize res_code idx s = Ret tt s' -> header s' = header s) /\
  (forall id resolution s result s',
     do_read id resolution s = Ret result s' -> header s' = header s).
Proof.
  assert (forall res_code idx s u s',
     lazily_resize res_code idx s = Ret u s' -> header s' = header s) as Hresize.
  { intros res_code idx s u s' Hl.
    apply lazily_resize_Ret in Hl
      as [[-> _]|(? & ? & ? & ? & ? & ? & _ & _ & _ & _ & _ & _ & _ & _ & _ & ->)]; done. }
  split_and!.
  - intros image_buffer id s s' Hi.
    by apply do_insert_Ret in Hi
      as (? & ? & ? & ? & ? & ? & ? & ? & _ & _ & _ & _ & _ & _ & _ & _ & _ & _ & _ & ->).
  - intros id s s' Hd.
    by apply do_delete_Ret in Hd as (? & ? & ? & _ & _ & _ & _ & _ & _ & _ & _ & ->).
  - intros res_code idx s s'. apply Hresize.
  - intros id resolution s result s' Hr.
    apply do_read_Ret in Hr as (? & ? & ? & ? & ? & _ & _ & _ & [[_ ->]|[_ Hl]] & _);
      [done|by eapply Hresize].
Qed.

(** ** The frame of a deletion *)

(** C10: a successful [do_delete] clears the [is_valid] flag of the slot
    found for the identifier and rewrites [num_files] and [imgst_version]
    in the header; the other fields of that slot, every other slot, the
    other fields of the header and the bytes after the table are as
    before, in the handle and in the file. *)
Theorem do_delete_frame id s s' :
  mirrored s ->
  do_delete id s = Ret tt s' ->
  exists idx m,
    metadata s !! idx = Some m /\ img_id m = id /\ valid m /\
    metadata s' = <[idx := set_is_valid EMPTY m]> (metadata s) /\
    header s' = deleted_header (header s) /\
    f_mode (file s') = f_mode (file s) /\
    header_of s' = Some (deleted_header (header s)) /\
    slots_of s !! idx = Some m /\
    slots_of s' = <[idx := set_is_valid EMPTY m]> (slots_of s) /\
    heap_of s' = heap_of s.
Proof.
  intros (slots & heap & Hdata & Hlen & Hsync) Hd.
  apply do_delete_Ret in Hd as (idx & m & c & _ & _ & Hm & Hid & Hv & _ & _ & Hc & ->).
  pose proof (lookup_lt_Some _ _ _ Hm) as Hlt.
  rewrite Hdata in Hc. simpl in Hc. rewrite bool_decide_eq_true_2 in Hc by lia.
  injection Hc as <-.
  exists idx, m. unfold header_of, slots_of, heap_of. rewrite Hdata.
  cbn [header file metadata f_mode f_data write_header].
  split_and!; try done. by apply Hsync.
Qed.

(** ** Name collision *)

Lemma do_insert_loop_found fuel i s j mj :
  (i <= j < i + fuel)%nat -> metadata s !! j = Some mj -> is_valid mj = 0 ->
  exists index m0,
    do_insert_loop i fuel s = Ret index s /\ (i <= index <= j)%nat /\
    metadata s !! index = Some m0 /\ is_valid m0 = 0.
Proof.
  revert i. induction fuel as [|fuel IH]; intros i Hj Hmj Hinv; [lia|]. simpl.
  destruct (lookup_lt_is_Some_2 (metadata s) i) as [m Hm].
  { apply lookup_lt_Some in Hmj. lia. }
  rewrite (bind_Ret_eq _ _ _ _ _ (metadata_at_eq _ _ _ Hm)).
  destruct (is_valid m =? 0) eqn:E; simpl.
  - apply Z.eqb_eq in E. exists i, m. split_and!; try done; lia.
  - apply Z.eqb_neq in E. assert (i <> j) by congruence.
    destruct (IH (S i)) as (index & m0 & Hl & Hrange & Hm0 & Hz); [lia|done..|].
    exists index, m0. split_and!; try done; lia.
Qed.

(** C3, as the code has it: with room left and a free slot in the table, an
    insertion under the identifier of a valid slot returns
    [ERR_DUPLICATE_ID]; the file and the header ([num_files] included) are
    untouched, and so is every slot of the handle but the free slot that
    was being prepared, which is overwritten and stays invalid. *)
Theorem do_insert_duplicate_id image_buffer id s k mk j mj :
  max_files (header s) = Z.of_nat (length (metadata s)) ->
  num_files (header s) < max_files (header s) ->
  metadata s !! j = Some mj -> is_valid mj = 0 ->
  metadata s !! k = Some mk -> valid mk -> img_id mk = id ->
  exists s' index m0 m',
    do_insert image_buffer id s = Exit ERR_DUPLICATE_ID s' /\
    file s' = file s /\ header s' = header s /\
    metadata s !! index = Some m0 /\ is_valid m0 = 0 /\
    metadata s' = <[index := m']> (metadata s) /\ is_valid m' = 0.
Proof.
  intros Hmax Hroom Hmj Hfree Hmk Hvk Hid.
  pose proof (lookup_lt_Some _ _ _ Hmj) as Hj.
  destruct (do_insert_loop_found (Z.to_nat (max_files (header s))) 0 s j mj)
    as (index & m0 & Hloop & _ & Hm0 & Hinv); [lia|done..|].
  pose proof (lookup_lt_Some _ _ _ Hm0) as Hindex.
  set (mi := set_img_id (memcpy_img_id id (SHA256 image_buffer)) (set_SHA (SHA256 image_buffer) m0)).
  set (s1 := ImgstFile (file s) (header s) (<[index := mi]> (metadata s))).
  destruct (do_name_and_content_dedup_duplicate index s1 mi k) as (o & z & Hdup).
  - by apply list_lookup_insert_eq.
  - cbn [s1 header metadata]. by rewrite length_insert.
  - assert (k <> index) as Hne.
    { intros ->. unfold valid, EMPTY in Hvk. congruence. }
    split; [done|]. exists mk. cbn [s1 metadata].
    rewrite list_lookup_insert_ne by done. split_and!; [done..|].
    change (img_id mi) with (memcpy_img_id id (SHA256 image_buffer)).
    rewrite strncmp_memcpy_img_id, Hid. apply strncmp_refl.
  - exists (ImgstFile (file s) (header s)
                      (<[index := set_size z (set_offset o mi)]> (metadata s))),
      index, m0, (set_size z (set_offset o mi)).
    split_and!; try done.
    unfold do_insert. rewrite (bind_Ret_eq _ _ _ _ _ (get_eq s)).
    assert ((max_files (header s) <=? num_files (header s)) = false) as -> by lia.
    rewrite (bind_Ret_eq _ _ _ _ _ (M_EXIT_IF_false _ _)).
    rewrite (bind_Ret_eq _ _ _ _ _ Hloop).
    rewrite (bind_Ret_eq _ _ _ _ _ (modify_metadata_eq _ _ _ _ Hm0)).
    rewrite (bind_Ret_eq _ _ _ tt s1).
    + rewrite (bind_Exit_eq _ _ _ _ _ Hdup). unfold set_metadata.
      cbn [s1 metadata file header]. by rewrite list_insert_insert_eq.
    + unfold modify_metadata, set_metadata. cbn [metadata file header].
      rewrite list_lookup_insert_eq by done. by rewrite list_insert_insert_eq.
Qed.

(** ** Round trip *)

Lemma table_end_length slots slots' :
  length slots' = length slots -> table_end slots' = table_end slots.
Proof. unfold table_end. by intros ->. Qed.

Lemma read_bytes_appended h slots heap h' slots' (C : list byte) :
  length slots' = length slots -> C <> [] ->
  read_bytes (file_size (Image h slots heap)) (Z.of_nat (length C))
             (Image h' slots' (heap ++ C)) = Some (Some C).
Proof.
  intros Hlen HC. unfold read_bytes, file_size.
  rewrite (table_end_length _ _ Hlen), length_app.
  generalize (table_end slots). intros t.
  assert (0 < Z.of_nat (length C)) by (destruct C; [done|simpl; lia]).
  assert ((Z.of_nat (length C) <=? 0) = false) as -> by (apply Z.leb_gt; lia).
  assert ((t + Z.of_nat (length heap + length C) <?
           t + Z.of_nat (length heap) + Z.of_nat (length C)) = false) as ->
    by (apply Z.ltb_ge; lia).
  assert ((t + Z.of_nat (length heap) <? t) = false) as -> by (apply Z.ltb_ge; lia).
  simpl. do 2 f_equal.
  replace (Z.to_nat (t + Z.of_nat (length heap) - t)) with (length heap) by lia.
  rewrite drop_app_length, Nat2Z.id. by rewrite take_ge.
Qed.

Lemma read_bytes_grow h slots heap h' slots' appended off n bs :
  length slots' = length slots ->
  read_bytes off n (Image h slots heap) = Some (Some bs) ->
  read_bytes off n (Image h' slots' (heap ++ appended)) = Some (Some bs).
Proof.
  intros Hlen Hb.
  apply read_bytes_Some in Hb as (? & ? & ? & [= <- <- <-] & Hn & Hoff & Hend & -> & _).
  unfold read_bytes, file_size in *.
  rewrite (table_end_length _ _ Hlen), length_app.
  revert Hoff Hend. generalize (table_end slots). intros t Hoff Hend.
  assert ((n <=? 0) = false) as -> by (apply Z.leb_gt; lia).
  assert ((t + Z.of_nat (length heap + length appended) <? off + n) = false) as ->
    by (apply Z.ltb_ge; lia).
  assert ((off <? t) = false) as -> by (apply Z.ltb_ge; lia).
  simpl. do 2 f_equal. rewrite drop_app_le by lia. apply take_app_le.
  rewrite length_drop. lia.
Qed.


(** What a successful insertion establishes, on a store whose originals
    are in place: the new slot designates the inserted bytes, and the
    store is again as it should be. *)
Lemma do_insert_post C id s u s' :
  handle_ok s -> originals_ok s -> collision_free C s ->
  Z.of_nat (length C) < 2 ^ 32 ->
  do_insert C id s = Ret u s' ->
  handle_ok s' /\ originals_ok s' /\ collision_free C s' /\
  f_mode (file s') = f_mode (file s) /\
  exists index m0 m o z appended,
    metadata s !! index = Some m0 /\ is_valid m0 = 0 /\
    insert_tables s index C m0 o z appended /\
    (forall k, ~ same_id_at (metadata s) index id k) /\
    metadata s' = <[index := m]> (metadata s) /\
    slots_of s' = <[index := m]> (slots_of s) /\
    heap_of s' = heap_of s ++ appended /\
    header s' = inserted_header (header s) /\
    img_id m = memcpy_img_id id (SHA256 C) /\ valid m /\ SHA m = SHA256 C /\
    offset m = o /\ size m = res_set z RES_ORIG (Z.of_nat (length C)) /\
    stored_original s' m = Some (Some C).
Proof.
  intros Hok Horig Hfree Hlen Hi. pose proof Hok as [Hmax _].
  apply do_insert_Ret_ok in Hi
    as (index & m0 & image & o & z & appended & hd & slots & heap & Hfull & Hindex & Hbefore &
        Hm0 & Hinv & Hnodup & Himage & Hw & Htables & Hdata & Hslots & ->); [|done].
  set (m := inserted_slot C id image o z m0).
  assert (uint32 (Z.of_nat (length C)) = Z.of_nat (length C)) as Hsize
    by (apply uint32_small; lia).
  (* the bytes of the new slot *)
  assert (at_orig o <> 0 /\
          read_bytes (at_orig o) (Z.of_nat (length C))
            (Image (inserted_header (header s)) (<[index := m]> slots) (heap ++ appended))
          = Some (Some C)) as [Hnz Hstored].
  { destruct Htables as [(_ & -> & _ & -> & HC)
                        |(k & mk & Hk & Hkne & Hmk & Hvk & Hsk & _ & _ & Hcase)].
    - rewrite Hdata. split.
      + change (file_size (Image hd slots heap) <> 0).
        unfold file_size, table_end, sizeof_imgst_header, sizeof_img_metadata. lia.
      + change (at_orig (res_set (offset m0) RES_ORIG ?x)) with x.
        apply read_bytes_appended; [by rewrite length_insert|done].
    - destruct (Horig k mk Hmk Hvk) as (Hnz & bs & Hbs & Hsha).
      destruct Hcase as [(_ & -> & ->)|(Hz & _)]; [|done]. split; [done|].
      assert (bs = C) as ->.
      { apply (Hfree k mk); [done..|]. by rewrite <- Hsha. }
      unfold stored_original in Hbs. rewrite Hdata in Hbs.
      pose proof Hbs as Hbs'.
      apply read_bytes_Some in Hbs' as (_ & _ & _ & _ & _ & _ & _ & _ & Hl).
      rewrite <- Hl in Hbs.
      apply (read_bytes_grow hd slots heap); [by rewrite length_insert|done]. }
  assert (forall mk bs,
    read_bytes (at_orig (offset mk)) (at_orig (size mk)) (Image hd slots heap) = Some (Some bs) ->
    read_bytes (at_orig (offset mk)) (at_orig (size mk))
      (Image (inserted_header (header s)) (<[index := m]> slots) (heap ++ appended))
    = Some (Some bs)) as Hgrow.
  { intros mk bs. apply read_bytes_grow. by rewrite length_insert. }
  assert (stored_original
            (ImgstFile (MkFILE (f_mode (file s))
               (Image (inserted_header (header s)) (<[index := m]> slots) (heap ++ appended)))
               (inserted_header (header s)) (<[index := m]> (metadata s))) m = Some (Some C))
    as Hm.
  { unfold stored_original. cbn [file f_data].
    change (at_orig (size m)) with (uint32 (Z.of_nat (length C))).
    change (offset m) with o. by rewrite Hsize. }
  split_and!.
  - unfold handle_ok. cbn [header file metadata f_data]. rewrite length_insert.
    split; [exact Hmax|]. eexists _, _, _. split; [done|]. by rewrite length_insert.
  - intros k mk Hmk Hvk. cbn [metadata] in Hmk.
    destruct (decide (k = index)) as [->|Hne].
    + rewrite list_lookup_insert_eq in Hmk by done. injection Hmk as <-.
      split; [done|]. by exists C.
    + rewrite list_lookup_insert_ne in Hmk by done.
      destruct (Horig k mk Hmk Hvk) as (Hnzk & bs & Hbs & Hsha).
      split; [done|]. exists bs. split; [|done].
      unfold stored_original in *. cbn [file f_data]. rewrite Hdata in Hbs. by apply Hgrow.
  - intros k mk bs Hmk Hvk Hbs Hsha. cbn [metadata] in Hmk.
    destruct (decide (k = index)) as [->|Hne].
    + rewrite list_lookup_insert_eq in Hmk by done. injection Hmk as <-. congruence.
    + rewrite list_lookup_insert_ne in Hmk by done.
      destruct (Horig k mk Hmk Hvk) as (_ & bs0 & Hbs0 & _).
      apply (Hfree k mk bs); [done..| |done].
      unfold stored_original in *. cbn [file f_data] in Hbs. rewrite Hdata in Hbs0.
      pose proof (Hgrow _ _ Hbs0). rewrite Hdata. congruence.
  - done.
  - exists index, m0, m, o, z, appended. unfold slots_of, heap_of. rewrite Hdata.
    cbn [header file metadata f_data].
    split_and!; try done. change (size m) with (res_set z RES_ORIG (uint32 (Z.of_nat (length C)))).
    by rewrite Hsize.
Qed.


(** The size a read gives back after an insertion is the length of the
    content as the slot keeps it, in 32 bits: a content of 2^32 bytes or
    more does not read back with its length. *)
Lemma do_read_inserted_size C id s s' result s'' :
  handle_ok s -> do_insert C id s = Ret tt s' ->
  do_read id (code_of_resolution RES_ORIG) s' = Ret result s'' ->
  snd result = uint32 (Z.of_nat (length C)) /\ snd result < 2 ^ 32.
Proof.
  intros Hok Hi Hread.
  apply do_insert_Ret_ok in Hi
    as (index & m0 & image & o & z & appended & hd & slots & heap & _ & Hindex & _ & Hm0 &
        Hz0 & Hnodup & _ & _ & _ & _ & _ & ->); [|done].
  set (mi := inserted_slot C id image o z m0) in *.
  apply do_read_Ret in Hread as (r & idx & m & u & m' & Hr & Hfind & Hm & Hcase & Hm' & _ & ->).
  rewrite resolution_of_code_of in Hr. injection Hr as <-.
  apply findMetadataIndex_Ret in Hfind as (_ & _ & (mf & Hmf & Hid & Hv) & _).
  cbn [metadata] in Hm, Hmf.
  assert (idx = index) as ->.
  { destruct (decide (idx = index)) as [|Hne]; [done|exfalso].
    rewrite list_lookup_insert_ne in Hmf by done.
    apply (Hnodup idx). split; [done|]. exists mf. split_and!; [done..|].
    rewrite Hid. apply strncmp_refl. }
  rewrite list_lookup_insert_eq in Hm by done. injection Hm as <-.
  assert (s'' = ImgstFile
            (MkFILE (f_mode (file s))
               (Image (inserted_header (header s)) (<[index := mi]> slots) (heap ++ appended)))
            (inserted_header (header s)) (<[index := mi]> (metadata s))) as ->.
  { destruct Hcase as [[_ ->]|[_ Hl]]; [done|]. unfold lazily_resize in Hl.
    rewrite Z.eqb_refl in Hl. by injection Hl as _ <-. }
  cbn [metadata] in Hm'. rewrite list_lookup_insert_eq in Hm' by done. injection Hm' as <-.
  change (res_get (size mi) RES_ORIG)
    with (res_get (res_set z RES_ORIG (uint32 (Z.of_nat (length C)))) RES_ORIG).
  rewrite res_get_set_eq. split; [done|]. unfold uint32.
  apply Z.mod_pos_bound. lia.
Qed.

(** ** Content deduplication *)






(** ** Opening a truncated file *)

(** C8, as the code has it: a file whose header announces more slots than
    the file holds whole records of is refused with [ERR_IO], the code
    [do_open] also returns for a file that cannot be opened. *)
Theorem do_open_truncated fs imgst_filename open_mode h slots rest :
  open_mode = "rb"%string \/ open_mode = "rb+"%string ->
  fs_file fs imgst_filename = Some (Image h slots rest) ->
  0 <= max_files h < 2 ^ 32 ->
  Z.of_nat (length slots) < max_files h ->
  Z.of_nat (length rest) < sizeof_img_metadata ->
  do_open fs imgst_filename open_mode = Some (inl ERR_IO) /\
  forall absent, fs_file fs absent = None -> do_open fs absent open_mode = Some (inl ERR_IO).
Proof.
  intros Hmode Hfile Hmax Hslots Hrest.
  assert (negb ((strcmp open_mode "rb" =? 0) || (strcmp open_mode "rb+" =? 0)) = false) as Hok.
  { by destruct Hmode as [-> | ->]. }
  split.
  - unfold do_open. rewrite Hok. unfold fopen.
    assert (forall mode, match mode with
                         | WB => if fs_creatable fs imgst_filename
                                 then Some (MkFILE WB (Short [])) else None
                         | _ => match fs_file fs imgst_filename with
                                | Some c => Some (MkFILE mode c)
                                | None => None
                                end
                         end = match mode with
                               | WB => if fs_creatable fs imgst_filename
                                       then Some (MkFILE WB (Short [])) else None
                               | _ => Some (MkFILE mode (Image h slots rest))
                               end) as Hopen.
    { intros []; by rewrite ?Hfile. }
    destruct (strcmp open_mode "rb" =? 0); rewrite Hfile; cbn [f_data];
      (rewrite bool_decide_eq_false_2 by lia);
      (assert ((Z.of_nat (length rest) <? sizeof_img_metadata) = true) as ->
         by (apply Z.ltb_lt; lia));
      (assert ((1 + Z.of_nat (length slots) =? uint32 (max_files h + 1)) = false) as ->;
       [|done]);
      apply Z.eqb_neq; unfold uint32;
      (destruct (decide (max_files h + 1 < 2 ^ 32));
       [rewrite Z.mod_small by lia; lia|]);
      (replace (max_files h + 1) with (2 ^ 32) by lia); rewrite Z.mod_same by lia; lia.
  - intros absent Habsent. unfold do_open. rewrite Hok. unfold fopen.
    by destruct (strcmp open_mode "rb" =? 0); rewrite Habsent.
Qed.

(** ** The shrink ratio *)

Lemma Qdiv_le_1 (a b : Z) : 0 < b -> (inject_Z a / inject_Z b <= 1)%Q <-> a <= b.
Proof.
  intros Hb. destruct b as [|p|p]; try lia.
  unfold Qle, Qdiv, Qmult, Qinv, inject_Z. simpl. lia.
Qed.

(** C4, as the code has it: the ratio is the smaller of the two quotients
    target / source, so the resized image fits the target box; it is at
    most 1 exactly when the original is at least as wide or as high as the
    box, and exceeds 1 for an original smaller than the box on both axes.
    A materialization appends the original decoded, resized by that one
    ratio and encoded. *)
Theorem shrink_value_is_min_ratio :
  (forall image w h,
     0 < Xsize image -> 0 < Ysize image ->
     let h_shrink := (inject_Z w / inject_Z (Xsize image))%Q in
     let v_shrink := (inject_Z h / inject_Z (Ysize image))%Q in
     let ratio := shrink_value image w h in
     (ratio = h_shrink \/ ratio = v_shrink) /\
     (ratio <= h_shrink)%Q /\ (ratio <= v_shrink)%Q /\
     ((ratio <= 1)%Q <-> (w <= Xsize image \/ h <= Ysize image))) /\
  (forall res_code idx s s' r m,
     lazily_resize res_code idx s = Ret tt s' ->
     resolution_of_code res_code = Some r -> r <> RES_ORIG ->
     metadata s !! idx = Some m -> res_get (offset m) r = 0 ->
     exists original variant,
       stored_original s m = Some (Some original) /\
       resized_variant (header s) res_code original = Some variant /\
       heap_of s' = heap_of s ++ variant).
Proof.
  split.
  - intros image w h HX HY h_shrink v_shrink ratio.
    pose proof (Qdiv_le_1 w (Xsize image) HX) as Hh.
    pose proof (Qdiv_le_1 h (Ysize image) HY) as Hv.
    fold h_shrink in Hh. fold v_shrink in Hv.
    unfold ratio, shrink_value. fold h_shrink v_shrink.
    destruct (Qle_bool h_shrink v_shrink) eqn:E; simpl.
    + apply Qle_bool_iff in E. split_and!; [by left|apply Qle_refl|done|].
      split; [intros Hle; left; by apply Hh|]. intros [Hw|Hh']; [by apply Hh|].
      apply Hv in Hh'. by eapply Qle_trans.
    + assert (v_shrink < h_shrink)%Q as Hlt.
      { apply Qnot_le_lt. intros Hle. apply Qle_bool_iff in Hle. congruence. }
      split_and!; [by right|by apply Qlt_le_weak|apply Qle_refl|].
      split; [intros Hle; right; by apply Hv|]. intros [Hw|Hh']; [|by apply Hv].
      apply Hh in Hw. apply Qlt_le_weak in Hlt. by eapply Qle_trans.
  - intros res_code idx s s' r m Hl Hr Hnot Hm Hz.
    apply lazily_resize_Ret in Hl
      as [[_ [->|(r' & m' & Hr' & Hm' & Hnz)]]
         |(r' & m' & original & variant & c & c' & _ & _ & Hm' & _ & _ & Horig & Hvar & Hc &
           Hc' & ->)].
    + rewrite resolution_of_code_of in Hr. congruence.
    + replace r' with r in * by congruence. replace m' with m in * by congruence. done.
    + replace m' with m in * by congruence.
      exists original, variant. split_and!; [done..|].
      unfold heap_of. cbn [file f_data]. unfold append_bytes in Hc.
      destruct (f_data (file s)) as [|hd slots heap]; [done|]. injection Hc as <-.
      unfold write_slot in Hc'. destruct (bool_decide _); [by injection Hc' as <-|].
      destruct (heap ++ variant) eqn:E; [by injection Hc' as <-|done].
Qed.

(** ** The calls of a store stay inside the file and the table *)

Lemma bind_Stuck_inv {A B} (m : M A) (f : A -> M B) s :
  (m ≫= f) s = Stuck -> m s = Stuck \/ exists a s1, m s = Ret a s1 /\ f a s1 = Stuck.
Proof. unfold mbind, M_bind. destruct (m s) as [a s1| |]; try discriminate; eauto. Qed.

Ltac stuck_step H a Ha :=
  let s1 := fresh "s" in
  apply bind_Stuck_inv in H as [H|(a & s1 & Ha & H)].

Lemma modify_metadata_Stuck i f s : modify_metadata i f s = Stuck -> metadata s !! i = None.
Proof. unfold modify_metadata. by destruct (metadata s !! i). Qed.

Lemma modify_metadata_inserted_Stuck i f F hd md m :
  (i < length md)%nat -> modify_metadata i f (ImgstFile F hd (<[i := m]> md)) <> Stuck.
Proof.
  intros Hi Hm. apply modify_metadata_Stuck in Hm. simpl in Hm.
  by rewrite list_lookup_insert_eq in Hm.
Qed.

Lemma count_valid_free md :
  count_valid md < Z.of_nat (length md) ->
  exists j mj, md !! j = Some mj /\ is_valid mj = 0.
Proof.
  induction md as [|m md IH]; [simpl; unfold count_valid; simpl; lia|].
  rewrite count_valid_cons. intros Hlt.
  destruct (decide (valid m)) as [Hv|Hv].
  - destruct IH as (j & mj & Hmj & Hz); [simpl in Hlt; lia|]. by exists (S j), mj.
  - exists 0%nat, m. split; [done|]. unfold valid, EMPTY in Hv.
    destruct (decide (is_valid m = 0)); [done|]. by destruct Hv.
Qed.

Lemma findMetadataIndex_loop_not_Stuck id fuel i s :
  (i + fuel <= length (metadata s))%nat -> findMetadataIndex_loop id i fuel s <> Stuck.
Proof.
  revert i. induction fuel as [|fuel IH]; intros i Hlen; simpl; [done|].
  destruct (lookup_lt_is_Some_2 (metadata s) i) as [m Hm]; [lia|].
  rewrite (bind_Ret_eq _ _ _ _ _ (metadata_at_eq _ _ _ Hm)).
  destruct (_ || _); [apply IH; lia|done].
Qed.

Lemma findMetadataIndex_not_Stuck id s :
  max_files (header s) = Z.of_nat (length (metadata s)) -> findMetadataIndex id s <> Stuck.
Proof.
  intros Hmax Hf. unfold findMetadataIndex in Hf.
  stuck_step Hf a Hg; [done|]. rewrite get_eq in Hg. injection Hg as <- <-.
  stuck_step Hf i Hl. { revert Hf. apply findMetadataIndex_loop_not_Stuck. lia. }
  apply findMetadataIndex_loop_Ret in Hl as (-> & Hi & _ & _).
  stuck_step Hf u Hv; [|done].
  unfold or_else, validMetadataIndex in Hf.
  rewrite (bind_Ret_eq _ _ _ _ _ (get_eq s)) in Hf.
  destruct (max_files (header s) <=? Z.of_nat i) eqn:E.
  { by rewrite (bind_Exit_eq _ _ _ _ _ (M_EXIT_IF_true _ _)) in Hf. }
  rewrite (bind_Ret_eq _ _ _ _ _ (M_EXIT_IF_false _ _)) in Hf.
  destruct (lookup_lt_is_Some_2 (metadata s) i) as [m Hm]; [lia|].
  rewrite (bind_Ret_eq _ _ _ _ _ (metadata_at_eq _ _ _ Hm)) in Hf.
  by destruct (is_valid m =? EMPTY).
Qed.

Lemma do_name_and_content_dedup_not_Stuck index s :
  max_files (header s) = Z.of_nat (length (metadata s)) ->
  (index < length (metadata s))%nat ->
  do_name_and_content_dedup index s <> Stuck.
Proof.
  intros Hmax Hindex Hd. unfold do_name_and_content_dedup in Hd.
  destruct (lookup_lt_is_Some_2 (metadata s) index) as [mi Hmi]; [done|].
  stuck_step Hd a Hg; [done|]. rewrite get_eq in Hg. injection Hg as <- <-.
  stuck_step Hd u1 Hlt. { by destruct (_ <=? _). }
  apply M_EXIT_IF_Ret in Hlt as [_ ->].
  stuck_step Hd b Hloop. { revert Hd. apply dedup_loop_not_Stuck; lia. }
  apply (dedup_loop_Ret _ _ _ _ _ _ _ mi Hmi) in Hloop as [_ Hclone].
  destruct Hclone as [(-> & -> & _)|(-> & _)]; simpl in Hd; [|done].
  apply modify_metadata_Stuck in Hd. congruence.
Qed.

(** A deletion on a store never leaves the table or the file. *)
Lemma do_delete_not_Stuck id s : store_inv s -> do_delete id s <> Stuck.
Proof.
  intros ([Hmaxlen (hd & slots & heap & Hdata & Hlen)] & _) Hd. unfold do_delete in Hd.
  stuck_step Hd a Hg; [done|]. rewrite get_eq in Hg. injection Hg as <- <-.
  stuck_step Hd u1 Hnum. { by destruct (_ <=? _). }
  apply M_EXIT_IF_Ret in Hnum as [_ ->].
  stuck_step Hd idx Hfind. { by apply findMetadataIndex_not_Stuck in Hd. }
  apply findMetadataIndex_Ret in Hfind as (-> & Hidx & (m & Hm & _) & _).
  pose proof (lookup_lt_Some _ _ _ Hm) as Hlt.
  rewrite (bind_Ret_eq _ _ _ _ _ (modify_metadata_eq idx _ s m Hm)) in Hd.
  stuck_step Hd u3 Hupd.
  { unfold updateMetadata in Hd. rewrite (bind_Ret_eq _ _ _ _ _ (get_eq _)) in Hd.
    cbn [set_metadata header file metadata f_mode f_data] in Hd.
    assert ((max_files (header s) <=? Z.of_nat idx) = false) as E by lia.
    rewrite E, (bind_Ret_eq _ _ _ _ _ (M_EXIT_IF_false _ _)) in Hd.
    erewrite bind_Ret_eq in Hd; cycle 1.
    { apply metadata_at_eq. simpl. by apply list_lookup_insert_eq. }
    rewrite Hdata in Hd. simpl in Hd. rewrite bool_decide_eq_true_2 in Hd by lia.
    by destruct (writable _). }
  stuck_step Hd v1 Hhd1; [done|]. stuck_step Hd v2 Hhd2; [done|].
  unfold updateHeader, mbind, M_bind in Hd. simpl in Hd. by destruct (writable _).
Qed.

Lemma do_insert_loop_not_Stuck fuel index s :
  (index + fuel <= length (metadata s))%nat -> do_insert_loop index fuel s <> Stuck.
Proof.
  revert index. induction fuel as [|fuel IH]; intros index Hlen; simpl; [done|].
  destruct (lookup_lt_is_Some_2 (metadata s) index) as [m Hm]; [lia|].
  rewrite (bind_Ret_eq _ _ _ _ _ (metadata_at_eq _ _ _ Hm)).
  destruct (negb _); [apply IH; lia|done].
Qed.

(** An insertion on a store never leaves the table or the file: the count
    kept in [num_files] leaves a free slot whenever the store is not full. *)
Lemma do_insert_not_Stuck image_buffer id s :
  store_inv s -> do_insert image_buffer id s <> Stuck.
Proof.
  intros ([Hmaxlen (hd & slots & heap & Hdata & Hlen)] & _ & _ & Hcount & _) Hi.
  unfold do_insert in Hi.
  stuck_step Hi a Hg; [done|]. rewrite get_eq in Hg. injection Hg as <- <-.
  stuck_step Hi u1 Hfull. { by destruct (_ <=? _). }
  apply M_EXIT_IF_Ret in Hfull as [Hfull ->].
  destruct (count_valid_free (metadata s)) as (j & mj & Hmj & Hzj); [lia|].
  pose proof (lookup_lt_Some _ _ _ Hmj) as Hj.
  destruct (do_insert_loop_found (Z.to_nat (max_files (header s))) 0 s j mj)
    as (index & m0 & Hloop & _ & Hm0 & Hz0); [lia|done..|].
  rewrite (bind_Ret_eq _ _ _ _ _ Hloop) in Hi.
  pose proof (lookup_lt_Some _ _ _ Hm0) as Hindex.
  rewrite (bind_Ret_eq _ _ _ _ _ (modify_metadata_eq index _ s m0 Hm0)) in Hi.
  unfold set_metadata in Hi. cbn [file header metadata] in Hi.
  stuck_step Hi u3 Hid. { by apply modify_metadata_inserted_Stuck in Hi. }
  apply modify_metadata_inserted in Hid as ->; [|done].
  set (mi := set_img_id (memcpy_img_id id (SHA256 image_buffer)) (set_SHA (SHA256 image_buffer) m0)) in *.
  stuck_step Hi u4 Hd.
  { revert Hi. apply do_name_and_content_dedup_not_Stuck;
      cbn [header metadata]; rewrite ?length_insert; done. }
  apply (do_name_and_content_dedup_Ret _ _ _ _ mi) in Hd; [|by apply list_lookup_insert_eq].
  cbn [file header metadata] in Hd. destruct Hd as (_ & _ & Hd).
  assert (exists m1, s0 = ImgstFile (file s) (header s) (<[index := m1]> (metadata s)))
    as (m1 & ->).
  { destruct Hd as [[_ ->]|(k & mk & _ & _ & _ & _ & _ & _ & ->)];
      unfold set_metadata; cbn [file header metadata]; rewrite list_insert_insert_eq; eauto. }
  stuck_step Hi m1' Hm1.
  { unfold metadata_at in Hi. simpl in Hi. by rewrite list_lookup_insert_eq in Hi. }
  apply metadata_at_inserted in Hm1 as [-> ->]; [|done].
  assert (exists m2 heap2,
    (fun _ : unit =>
       '(height, width) ← get_resolution image_buffer;
       modify_metadata index (set_res_orig [width; height]);;
       modify_metadata index (set_is_valid NON_EMPTY);;
       modify_metadata index
         (fun m => set_size (res_set (size m) RES_ORIG (uint32 (Z.of_nat (length image_buffer)))) m);;
       modify_header (fun h => set_imgst_version (uint32 (imgst_version h + 1)) h);;
       modify_header (fun h => set_num_files (uint32 (num_files h + 1)) h);;
       updateHeader;;
       updateMetadata index) tt
      (ImgstFile (MkFILE (f_mode (file s)) (Image hd slots heap2)) (header s)
                 (<[index := m2]> (metadata s))) = Stuck) as (m2 & heap2 & Hrest).
  { stuck_step Hi u5 Happend.
    - exfalso. destruct (res_get (offset m1) RES_ORIG =? 0); [|done].
      stuck_step Hi a Hg; [done|]. rewrite get_eq in Hg. injection Hg as <- <-.
      stuck_step Hi u6 Hmod. { by apply modify_metadata_inserted_Stuck in Hi. }
      apply modify_metadata_inserted in Hmod as ->; [|done].
      unfold fwrite_end, mbind, M_bind in Hi. simpl in Hi. rewrite Hdata in Hi.
      by destruct (_ && _).
    - destruct (res_get (offset m1) RES_ORIG =? 0).
      + step Happend. modify_step Happend.
        apply fwrite_end_Ret in Happend as (_ & _ & c & Hc & ->).
        cbn [file f_data f_mode set_file header metadata] in *.
        rewrite Hdata in Hc. injection Hc as <-. destruct u5. eauto.
      + injection Happend as _ <-. exists m1, heap. destruct u5.
        destruct s as [[mode c] h md]. simpl in *. by subst c. }
  clear Hi. cbv beta in Hrest.
  stuck_step Hrest hw Hres. { unfold get_resolution in Hrest. by destruct (vips_jpegload_buffer _). }
  apply get_resolution_Ret in Hres as (-> & image & Himage & ->).
  stuck_step Hrest v1 Hmod. { by apply modify_metadata_inserted_Stuck in Hrest. }
  apply modify_metadata_inserted in Hmod as ->; [|done].
  stuck_step Hrest v2 Hmod. { by apply modify_metadata_inserted_Stuck in Hrest. }
  apply modify_metadata_inserted in Hmod as ->; [|done].
  stuck_step Hrest v3 Hmod. { by apply modify_metadata_inserted_Stuck in Hrest. }
  apply modify_metadata_inserted in Hmod as ->; [|done].
  stuck_step Hrest v4 Hhd1; [done|]. injection Hhd1 as _ <-.
  stuck_step Hrest v5 Hhd2; [done|]. injection Hhd2 as _ <-.
  stuck_step Hrest v6 Hupd.
  { unfold updateHeader, mbind, M_bind in Hrest. simpl in Hrest. by destruct (writable _). }
  apply updateHeader_Ret in Hupd as [_ ->].
  unfold updateMetadata in Hrest. rewrite (bind_Ret_eq _ _ _ _ _ (get_eq _)) in Hrest.
  cbn [set_file set_header header file metadata f_mode f_data write_header] in Hrest.
  change (max_files (set_num_files _ (set_imgst_version _ (header s))))
    with (max_files (header s)) in Hrest.
  assert ((max_files (header s) <=? Z.of_nat index) = false) as E by lia.
  rewrite E, (bind_Ret_eq _ _ _ _ _ (M_EXIT_IF_false _ _)) in Hrest.
  erewrite bind_Ret_eq in Hrest; cycle 1.
  { apply metadata_at_eq. simpl. by apply list_lookup_insert_eq. }
  simpl in Hrest. rewrite bool_decide_eq_true_2 in Hrest by lia.
  by destruct (writable _).
Qed.

(** No call on a store a program reaches leaves the table or the file. *)
Lemma reachable_not_Stuck s image_buffer id :
  reachable s -> do_insert image_buffer id s <> Stuck /\ do_delete id s <> Stuck.
Proof.
  intros Hr. apply store_inv_reachable in Hr.
  split; [by apply do_insert_not_Stuck|by apply do_delete_not_Stuck].
Qed.

End Proofs.
(** * Further properties of the library *)

Section MoreProofs.
Context `{External}.

#[local] Arguments res_set : simpl never.
#[local] Arguments res_get : simpl never.
#[local] Arguments set_offset : simpl never.
#[local] Arguments set_size : simpl never.
#[local] Arguments set_SHA : simpl never.
#[local] Arguments set_img_id : simpl never.
#[local] Arguments set_res_orig : simpl never.
#[local] Arguments set_is_valid : simpl never.
#[local] Arguments set_num_files : simpl never.
#[local] Arguments set_imgst_version : simpl never.
#[local] Arguments file_size : simpl never.
#[local] Arguments uint32 : simpl never.

(** Steps through a hypothesis [H : m s = Ret _ _] of a sequence. *)
Ltac step_with H a H1 :=
  let s1 := fresh "s" in
  apply bind_Ret_inv in H as (a & s1 & H1 & H);
  first
    [ apply M_EXIT_IF_Ret in H1 as [H1 ->]
    | apply metadata_at_Ret in H1 as [H1 ->]
    | (rewrite get_eq in H1; injection H1 as <- <-)
    | idtac ].

Tactic Notation "step" hyp(H) "as" ident(a) ident(H1) := step_with H a H1.
Tactic Notation "step" hyp(H) :=
  let a := fresh "a" in let H1 := fresh "Hstep" in step_with H a H1.

Ltac exit_step H a Ha :=
  let s1 := fresh "s" in
  apply bind_Exit_inv in H as [H|(a & s1 & Ha & H)].

Ltac stuck_step H a Ha :=
  let s1 := fresh "s" in
  apply bind_Stuck_inv in H as [H|(a & s1 & Ha & H)].

Ltac modify_step H :=
  let u := fresh "u" in
  let H1 := fresh "Hmod" in
  step H as u H1; apply modify_metadata_inserted in H1 as ->; [|done].

Lemma bind_Stuck_eq {A B} (m : M A) (f : A -> M B) s : m s = Stuck -> (m ≫= f) s = Stuck.
Proof. unfold mbind, M_bind. by intros ->. Qed.

(** ** Digests: comparison and display *)

Lemma to_N_inj (x y : byte) : Byte.to_N x = Byte.to_N y -> x = y.
Proof.
  intros Hxy. pose proof (Byte.of_to_N x) as Hx. pose proof (Byte.of_to_N y) as Hy.
  rewrite Hxy in Hx. congruence.
Qed.

Lemma shaCompare_loop_zero sha1 sha2 i fuel :
  shaCompare_loop sha1 sha2 i fuel = 0 <->
  forall k, (i <= k < i + fuel)%nat -> nth k sha1 x00 = nth k sha2 x00.
Proof.
  revert i. induction fuel as [|fuel IH]; intros i; simpl.
  - split; [intros _ k Hk; lia|done].
  - destruct (_ <? _)%N eqn:E1.
    { split; [done|]. intros Hk. specialize (Hk i). rewrite Hk in E1 by lia.
      by rewrite N.ltb_irrefl in E1. }
    destruct (Byte.to_N (nth i sha1 x00) <? _)%N eqn:E2.
    { split; [done|]. intros Hk. specialize (Hk i). rewrite Hk in E2 by lia.
      by rewrite N.ltb_irrefl in E2. }
    rewrite IH. apply N.ltb_ge in E1, E2.
    assert (nth i sha1 x00 = nth i sha2 x00) as Hi by (apply to_N_inj; lia).
    split; intros Hk k Hrange.
    + destruct (decide (k = i)) as [->|]; [done|]. apply Hk. lia.
    + apply Hk. lia.
Qed.

Lemma shaCompare_loop_opp sha1 sha2 i fuel :
  shaCompare_loop sha2 sha1 i fuel = - shaCompare_loop sha1 sha2 i fuel.
Proof.
  revert i. induction fuel as [|fuel IH]; intros i; simpl; [done|].
  destruct (Byte.to_N (nth i sha2 x00) <? Byte.to_N (nth i sha1 x00))%N eqn:E1;
    destruct (Byte.to_N (nth i sha1 x00) <? Byte.to_N (nth i sha2 x00))%N eqn:E2;
    try done.
  apply N.ltb_lt in E1, E2. lia.
Qed.

Lemma nth_ext_eq (sha1 sha2 : list byte) :
  length sha1 = length sha2 ->
  (forall k, (k < length sha1)%nat -> nth k sha1 x00 = nth k sha2 x00) -> sha1 = sha2.
Proof.
  revert sha2. induction sha1 as [|a sha1 IH]; intros [|b sha2] Hlen Hk; try done.
  f_equal.
  - apply (Hk 0%nat). simpl. lia.
  - apply IH; [simpl in Hlen; lia|]. intros k Hlt. apply (Hk (S k)). simpl. lia.
Qed.

(** X1: two digests compare equal exactly when they are the same 32 bytes, and
    swapping the arguments of [shaCompare] negates its result. *)
Theorem shaCompare_zero_iff sha1 sha2 :
  length sha1 = SHA256_DIGEST_LENGTH -> length sha2 = SHA256_DIGEST_LENGTH ->
  (shaCompare sha1 sha2 = 0 <-> sha1 = sha2) /\
  shaCompare sha2 sha1 = - shaCompare sha1 sha2 /\
  (shaCompare sha1 sha2 = -1 \/ shaCompare sha1 sha2 = 0 \/ shaCompare sha1 sha2 = 1).
Proof.
  intros Hlen1 Hlen2. unfold shaCompare. split_and!.
  - rewrite shaCompare_loop_zero. split.
    + intros Hk. apply nth_ext_eq; [congruence|]. intros k Hlt. apply Hk. lia.
    + by intros ->.
  - apply shaCompare_loop_opp.
  - clear Hlen1 Hlen2. generalize 0%nat.
    induction SHA256_DIGEST_LENGTH as [|fuel IH]; intros i; simpl; [auto|].
    destruct (_ <? _)%N; [auto|]. destruct (_ <? _)%N; auto.
Qed.

Lemma hex_digit_inj n m : (n < 16)%N -> (m < 16)%N -> hex_digit n = hex_digit m -> n = m.
Proof.
  intros Hn Hm.
  assert (forall k, (k < 16)%N ->
            k = 0 \/ k = 1 \/ k = 2 \/ k = 3 \/ k = 4 \/ k = 5 \/ k = 6 \/ k = 7 \/ k = 8 \/
            k = 9 \/ k = 10 \/ k = 11 \/ k = 12 \/ k = 13 \/ k = 14 \/ k = 15)%N as Hcases
    by (intros k Hk; lia).
  destruct (Hcases n Hn) as [->|[->|[->|[->|[->|[->|[->|[->|[->|[->|[->|[->|[->|[->|[->| ->]]]]]]]]]]]]]]];
    destruct (Hcases m Hm) as [->|[->|[->|[->|[->|[->|[->|[->|[->|[->|[->|[->|[->|[->|[->| ->]]]]]]]]]]]]]]];
    vm_compute; congruence.
Qed.

Lemma sha_to_string_loop_length SHA i fuel :
  String.length (sha_to_string_loop SHA i fuel) = (2 * fuel)%nat.
Proof. revert i. induction fuel as [|fuel IH]; intros i; simpl; [done|]. rewrite IH. lia. Qed.

Lemma sha_to_string_loop_inj sha1 sha2 i fuel :
  sha_to_string_loop sha1 i fuel = sha_to_string_loop sha2 i fuel <->
  forall k, (i <= k < i + fuel)%nat -> nth k sha1 x00 = nth k sha2 x00.
Proof.
  revert i. induction fuel as [|fuel IH]; intros i; simpl.
  - split; [intros _ k Hk; lia|done].
  - split.
    + intros [= Hhi Hlo Hrest] k Hk.
      destruct (decide (k = i)) as [->|]; [|apply (proj1 (IH (S i)) Hrest); lia].
      pose proof (Byte.to_N_bounded (nth i sha1 x00)) as Hb1.
      pose proof (Byte.to_N_bounded (nth i sha2 x00)) as Hb2.
      apply hex_digit_inj in Hhi; [|apply N.Div0.div_lt_upper_bound; lia..].
      apply hex_digit_inj in Hlo; [|apply N.mod_lt; lia..].
      apply to_N_inj.
      rewrite (N.div_mod (Byte.to_N (nth i sha1 x00)) 16) by lia.
      rewrite (N.div_mod (Byte.to_N (nth i sha2 x00)) 16) by lia.
      by rewrite Hhi, Hlo.
    + intros Hk. rewrite (Hk i) by lia. do 2 f_equal. apply IH. intros k Hrange.
      apply Hk. lia.
Qed.

(** X2: [sha_to_string] writes 64 characters, and two digests are displayed
    alike exactly when [shaCompare] finds them equal. *)
Theorem sha_to_string_shaCompare sha1 sha2 :
  String.length (sha_to_string sha1) = (2 * SHA256_DIGEST_LENGTH)%nat /\
  (sha_to_string sha1 = sha_to_string sha2 <-> shaCompare sha1 sha2 = 0).
Proof.
  split; [apply sha_to_string_loop_length|].
  unfold sha_to_string, shaCompare.
  by rewrite sha_to_string_loop_inj, shaCompare_loop_zero.
Qed.

(** ** Resolution names and file names *)

Lemma strcmp_zero_iff s t : strcmp s t = 0 <-> s = t.
Proof. split; [apply strcmp_eq|intros ->; apply strcmp_refl]. Qed.

Lemma strcmp_eqb s t : (strcmp s t =? 0) = bool_decide (s = t).
Proof.
  destruct (decide (s = t)) as [->|Hne].
  - rewrite strcmp_refl. by rewrite bool_decide_eq_true_2.
  - rewrite bool_decide_eq_false_2 by done. apply Z.eqb_neq. by rewrite strcmp_zero_iff.
Qed.

(** X3: [resolution_atoi] gives the code of a resolution exactly for the names
    of that resolution, and [NOT_RES] for every other string; the codes it
    gives are the ones [create_name] accepts. *)
Theorem resolution_atoi_names name :
  (forall r, resolution_atoi name = code_of_resolution r <-> name ∈ names_of r) /\
  (resolution_atoi name = NOT_RES <-> forall r, name ∉ names_of r) /\
  (forall img_id, create_name img_id (resolution_atoi name) = inl ERR_RESOLUTIONS <->
                  resolution_atoi name = NOT_RES) /\
  (resolution_of_code (resolution_atoi name) = None <-> resolution_atoi name = NOT_RES).
Proof.
  assert (forall r, name ∈ names_of r <->
            match r with
            | RES_THUMB => name = "thumb"%string \/ name = "thumbnail"%string
            | RES_SMALL => name = "small"%string
            | RES_ORIG => name = "orig"%string \/ name = "original"%string
            end) as Hnames.
  { intros []; simpl; rewrite ?elem_of_cons, ?elem_of_nil; tauto. }
  unfold resolution_atoi. rewrite !strcmp_eqb.
  destruct (decide ("thumb"%string = name)) as [<-|H1];
    [|destruct (decide ("thumbnail"%string = name)) as [<-|H2];
      [|destruct (decide ("small"%string = name)) as [<-|H3];
        [|destruct (decide ("orig"%string = name)) as [<-|H4];
          [|destruct (decide ("original"%string = name)) as [<-|H5]]]]].
  6:{ rewrite !bool_decide_eq_false_2 by done. simpl.
      split_and!; try done.
      - intros r. rewrite Hnames. split; [by destruct r|]. destruct r; intuition congruence.
      - split; [|done]. intros _ r. rewrite Hnames. destruct r; intuition congruence. }
  all: vm_compute bool_decide; simpl; split_and!; try done.
  all: try (intros r; rewrite Hnames; destruct r; simpl; split; intros Hr; try done; try lia;
            try tauto; by intuition discriminate).
  all: split; [done|]; intros Hno; exfalso.
  1,2: apply (Hno RES_THUMB), Hnames; tauto.
  1: apply (Hno RES_SMALL), Hnames; tauto.
  1,2: apply (Hno RES_ORIG), Hnames; tauto.
Qed.

Lemma list_ascii_of_string_app s t :
  String.list_ascii_of_string (s +:+ t)
  = String.list_ascii_of_string s ++ String.list_ascii_of_string t.
Proof. induction s as [|c s IH]; simpl; [done|]. by rewrite IH. Qed.

Lemma list_ascii_of_string_inj s t :
  String.list_ascii_of_string s = String.list_ascii_of_string t -> s = t.
Proof.
  intros Hst. rewrite <- (String.string_of_list_ascii_of_string s),
    <- (String.string_of_list_ascii_of_string t). by rewrite Hst.
Qed.

Lemma create_name_inr img_id r :
  create_name img_id (code_of_resolution r)
  = inr ((img_id +:+ match r with
                     | RES_THUMB => "_thumb"
                     | RES_SMALL => "_small"
                     | RES_ORIG => "_orig"
                     end) +:+ ".jpg")%string.
Proof. by destruct r. Qed.

(** X4: [create_name] fails, with [ERR_RESOLUTIONS], exactly on the integers
    that are not a resolution code, and never gives the same file name for
    two different pairs of an identifier and a resolution. *)
Theorem create_name_inj :
  (forall img_id resolution e,
     create_name img_id resolution = inl e <->
     e = ERR_RESOLUTIONS /\ resolution_of_code resolution = None) /\
  (forall img_id1 resolution1 img_id2 resolution2 name,
     create_name img_id1 resolution1 = inr name ->
     create_name img_id2 resolution2 = inr name ->
     img_id1 = img_id2 /\ resolution1 = resolution2).
Proof.
  split.
  { intros img_id resolution e. unfold create_name, resolution_of_code, code_of_resolution.
    destruct (resolution =? 0) eqn:E0; [by rewrite andb_false_r; split; [|intros [_ ?]]|].
    destruct (resolution =? 1) eqn:E1; [by split; [|intros [_ ?]]|].
    destruct (resolution =? 2) eqn:E2; [by split; [|intros [_ ?]]|].
    simpl. split; [by intros [= <-]|by intros [-> _]]. }
  intros img_id1 resolution1 img_id2 resolution2 name H1 H2.
  assert (forall img_id resolution,
            create_name img_id resolution = inr name ->
            exists r, resolution = code_of_resolution r) as Hcode.
  { intros img_id resolution. unfold create_name, code_of_resolution.
    destruct (resolution =? 1) eqn:E1; [exists RES_SMALL; simpl; lia|].
    destruct (resolution =? 0) eqn:E0; [exists RES_THUMB; simpl; lia|].
    destruct (resolution =? 2) eqn:E2; [exists RES_ORIG; simpl; lia|]. done. }
  destruct (Hcode _ _ H1) as [r1 ->]. destruct (Hcode _ _ H2) as [r2 ->].
  rewrite create_name_inr in H1, H2. injection H1 as H1. injection H2 as H2.
  rewrite <- H2 in H1. clear H2 Hcode.
  apply (f_equal String.list_ascii_of_string) in H1.
  rewrite !list_ascii_of_string_app in H1.
  apply (f_equal (@rev Ascii.ascii)) in H1. rewrite !rev_app_distr in H1.
  destruct r1, r2; simpl in H1; try discriminate;
    (split; [|done]); apply list_ascii_of_string_inj, rev_inj; congruence.
Qed.

(** ** Looking an identifier up *)

Lemma findMetadataIndex_loop_absent id fuel i s :
  (i + fuel <= length (metadata s))%nat ->
  (forall k m, (i <= k)%nat -> metadata s !! k = Some m -> valid m -> img_id m <> id) ->
  findMetadataIndex_loop id i fuel s = Ret (i + fuel)%nat s.
Proof.
  revert i. induction fuel as [|fuel IH]; intros i Hlen Hno; simpl.
  - by rewrite Nat.add_0_r.
  - destruct (lookup_lt_is_Some_2 (metadata s) i) as [m Hm]; [lia|].
    rewrite (bind_Ret_eq _ _ _ _ _ (metadata_at_eq _ _ _ Hm)).
    assert ((negb (strcmp (img_id m) id =? 0) || (is_valid m =? EMPTY)) = true) as ->.
    { destruct (strcmp (img_id m) id =? 0) eqn:E; [|done]. simpl.
      apply Z.eqb_eq, strcmp_eq in E. apply Z.eqb_eq.
      destruct (decide (is_valid m = EMPTY)) as [|Hv]; [done|].
      by destruct (Hno i m). }
    rewrite IH; [f_equal; lia|lia|]. intros k mk Hk. apply Hno. lia.
Qed.

Lemma findMetadataIndex_absent id s :
  max_files (header s) = Z.of_nat (length (metadata s)) ->
  absent id s -> findMetadataIndex id s = Exit ERR_FILE_NOT_FOUND s.
Proof.
  intros Hmax Hno. unfold findMetadataIndex.
  rewrite (bind_Ret_eq _ _ _ _ _ (get_eq s)).
  rewrite (bind_Ret_eq _ _ _ (0 + Z.to_nat (max_files (header s)))%nat s).
  2:{ apply findMetadataIndex_loop_absent; [lia|]. intros k m _. apply Hno. }
  unfold or_else, validMetadataIndex.
  apply bind_Exit_eq.
  rewrite (bind_Ret_eq _ _ _ _ _ (get_eq s)).
  assert ((max_files (header s) <=? Z.of_nat (0 + Z.to_nat (max_files (header s)))) = true)
    as -> by (apply Z.leb_le; lia).
  by rewrite (bind_Exit_eq _ _ _ _ _ (M_EXIT_IF_true _ _)).
Qed.

Lemma findMetadataIndex_found_at id s idx m :
  max_files (header s) = Z.of_nat (length (metadata s)) ->
  found_at id s idx m -> findMetadataIndex id s = Ret idx s.
Proof.
  intros Hmax (Hm & Hid & Hv & Hfirst). apply findMetadataIndex_found with m; try done.
  apply lookup_lt_Some in Hm. lia.
Qed.

Lemma findMetadataIndex_Ret_found_at id s idx s' :
  findMetadataIndex id s = Ret idx s' -> s' = s /\ exists m, found_at id s idx m.
Proof.
  intros Hf. apply findMetadataIndex_Ret in Hf as (-> & _ & (m & Hm & Hid & Hv) & Hfirst).
  split; [done|]. by exists m.
Qed.

Lemma found_at_not_absent id s idx m : found_at id s idx m -> ~ absent id s.
Proof. intros (Hm & Hid & Hv & _) Hno. by apply (Hno idx m). Qed.

(** The lookup of an identifier either finds its first valid slot or
    finds no valid slot that carries it. *)
Lemma found_or_absent id s :
  max_files (header s) = Z.of_nat (length (metadata s)) ->
  absent id s \/ exists idx m, found_at id s idx m.
Proof.
  intros Hmax.
  destruct (findMetadataIndex id s) as [idx s'|e s'|] eqn:Hf.
  - right. apply findMetadataIndex_Ret_found_at in Hf as [_ [m Hm]]. eauto.
  - left. unfold findMetadataIndex in Hf.
    exit_step Hf a Hg; [done|]. rewrite get_eq in Hg. injection Hg as <- <-.
    exit_step Hf j Hl.
    { exfalso. revert Hf. generalize 0%nat, (Z.to_nat (max_files (header s))).
      intros i fuel. revert i. induction fuel as [|fuel IH]; intros i; simpl; [done|].
      unfold mbind, M_bind, metadata_at. destruct (metadata s !! i); [|done].
      destruct (_ || _); [apply IH|done]. }
    apply findMetadataIndex_loop_Ret in Hl as (-> & Hj & Hbefore & Hat).
    destruct (decide (j < Z.to_nat (max_files (header s)))%nat) as [Hlt|Hge].
    + exfalso. destruct Hat as (m & Hm & Hid & Hv); [lia|].
      rewrite (bind_Ret_eq _ _ _ tt s) in Hf; [done|].
      unfold or_else. rewrite (validMetadataIndex_eq j s m); [done|lia|done..].
    + intros k m Hm Hv Hid. apply (Hbefore k m); try done.
      apply lookup_lt_Some in Hm. lia.
  - by apply findMetadataIndex_not_Stuck in Hf.
Qed.

(** ** Deleting and reading what is not there *)

(** X5: on a stream that takes writes, [do_delete] fails exactly when the
    header counts no image or no valid slot carries the identifier; the
    code is then [ERR_FILE_NOT_FOUND] and the handle is left as it was. *)
Theorem do_delete_fails_iff id s :
  max_files (header s) = Z.of_nat (length (metadata s)) ->
  writable (f_mode (file s)) = true ->
  ((num_files (header s) <= 0 \/ absent id s) <->
   do_delete id s = Exit ERR_FILE_NOT_FOUND s) /\
  (forall e s', do_delete id s = Exit e s' -> e = ERR_FILE_NOT_FOUND /\ s' = s).
Proof.
  intros Hmax Hw. split; [|intros e s'; by apply do_delete_Exit].
  split.
  - intros Hwhy. unfold do_delete. rewrite (bind_Ret_eq _ _ _ _ _ (get_eq s)).
    destruct (num_files (header s) <=? 0) eqn:E.
    { by rewrite (bind_Exit_eq _ _ _ _ _ (M_EXIT_IF_true _ _)). }
    rewrite (bind_Ret_eq _ _ _ _ _ (M_EXIT_IF_false _ _)).
    destruct Hwhy as [Hnum|Hno]; [lia|].
    by rewrite (bind_Exit_eq _ _ _ _ _ (findMetadataIndex_absent _ _ Hmax Hno)).
  - intros Hd. destruct (decide (num_files (header s) <= 0)) as [|Hpos]; [by left|right].
    destruct (found_or_absent id s Hmax) as [|(idx & m & Hfound)]; [done|exfalso].
    unfold do_delete in Hd. rewrite (bind_Ret_eq _ _ _ _ _ (get_eq s)) in Hd.
    assert ((num_files (header s) <=? 0) = false) as E by lia.
    rewrite E, (bind_Ret_eq _ _ _ _ _ (M_EXIT_IF_false _ _)) in Hd.
    rewrite (bind_Ret_eq _ _ _ _ _ (findMetadataIndex_found_at _ _ _ _ Hmax Hfound)) in Hd.
    destruct Hfound as (Hm & _).
    rewrite (bind_Ret_eq _ _ _ _ _ (modify_metadata_eq idx _ s m Hm)) in Hd.
    exit_step Hd u3 Hupd.
    { apply updateMetadata_Exit in Hd as [_ [[_ Hle]|[_ Hnw]]];
        cbn [set_metadata file header f_mode] in *; [|congruence].
      apply lookup_lt_Some in Hm. lia. }
    apply updateMetadata_Ret in Hupd as (_ & _ & mf & c & Hmf & Hc & ->).
    exit_step Hd v1 Hhd1; [done|]. injection Hhd1 as _ <-.
    exit_step Hd v2 Hhd2; [done|]. injection Hhd2 as _ <-.
    apply updateHeader_Exit in Hd as (_ & _ & Hnw).
    cbn [set_metadata set_file set_header file header f_mode] in *. congruence.
Qed.

(** X6: [do_read] refuses an integer that is not a resolution code with
    [ERR_RESOLUTIONS] before it looks at the store, and an identifier that
    no valid slot carries with [ERR_FILE_NOT_FOUND]; the handle is left as
    it was. *)
Theorem do_read_fails id resolution s :
  max_files (header s) = Z.of_nat (length (metadata s)) ->
  (resolution_of_code resolution = None ->
   do_read id resolution s = Exit ERR_RESOLUTIONS s) /\
  (resolution_of_code resolution <> None -> absent id s ->
   do_read id resolution s = Exit ERR_FILE_NOT_FOUND s).
Proof.
  intros Hmax. unfold do_read. split.
  - by intros ->.
  - intros Hr Hno. destruct (resolution_of_code resolution) as [r|]; [|done].
    by rewrite (bind_Exit_eq _ _ _ _ _ (findMetadataIndex_absent _ _ Hmax Hno)).
Qed.

(** ** Materializing a variant *)

Lemma fread_at_Exit off n s e s' : fread_at off n s = Exit e s' -> e = ERR_IO /\ s' = s.
Proof.
  unfold fread_at, mbind, M_bind. simpl. destruct (readable _); [|by intros [= <- <-]].
  destruct (read_bytes _ _ _) as [[bs|]|]; try done. by intros [= <- <-].
Qed.

Lemma fwrite_end_Exit bs s e s' :
  fwrite_end bs s = Exit e s' ->
  e = ERR_IO /\ s' = s /\ (writable (f_mode (file s)) = false \/ bs = []).
Proof.
  unfold fwrite_end, mbind, M_bind. simpl.
  destruct (writable _) eqn:Ew; simpl; [|intros [= <- <-]; auto].
  destruct (0 <? Z.of_nat (length bs)) eqn:El; [by destruct (append_bytes _ _)|].
  intros [= <- <-]. split_and!; [done..|]. right. destruct bs; [done|]. apply Z.ltb_ge in El. simpl in El. lia.
Qed.

Lemma fwrite_end_eq bs s hd slots heap :
  writable (f_mode (file s)) = true -> bs <> [] ->
  f_data (file s) = Image hd slots heap ->
  fwrite_end bs s = Ret tt (set_file (MkFILE (f_mode (file s)) (Image hd slots (heap ++ bs))) s).
Proof.
  intros Hw Hbs Hdata. unfold fwrite_end. rewrite (bind_Ret_eq _ _ _ _ _ (get_eq s)).
  rewrite Hw, Hdata. simpl.
  assert ((0 <? Z.of_nat (length bs)) = true) as ->; [|done].
  apply Z.ltb_lt. destruct bs; [done|]. simpl. lia.
Qed.

(** A call of [lazily_resize] that returns [ERR_NONE] has either done
    nothing or materialized a variant. *)
Lemma lazily_resize_materialized res_code idx s u s' :
  lazily_resize res_code idx s = Ret u s' ->
  (s' = s /\
   (res_code = code_of_resolution RES_ORIG \/
    exists r m, resolution_of_code res_code = Some r /\ metadata s !! idx = Some m /\
                res_get (offset m) r <> 0)) \/
  exists m r original variant,
    resolution_of_code res_code = Some r /\
    stored_original s m = Some (Some original) /\
    resized_variant (header s) res_code original = Some variant /\
    readable (f_mode (file s)) = true /\ writable (f_mode (file s)) = true /\
    materialized_at s s' idx m r variant.
Proof.
  unfold lazily_resize. destruct (res_code =? code_of_resolution RES_ORIG) eqn:Eorig.
  { intros [= _ <-]. left. split; [done|]. left. lia. }
  destruct (resolution_of_code res_code) as [r|] eqn:Er; [|done].
  intros Hl. step Hl as u1 Hv.
  apply validMetadataIndex_Ret in Hv as (-> & _ & mv & Hmv & Hvalid).
  step Hl as m Hm. replace mv with m in * by congruence.
  destruct (res_get (offset m) r =? INIT_OFFSET) eqn:Eoff; simpl in Hl.
  2:{ injection Hl as _ <-. left. split; [done|]. right. exists r, m.
      split_and!; [done..|]. by apply Z.eqb_neq in Eoff. }
  right. apply Z.eqb_eq in Eoff.
  step Hl as image Hread. unfold read_vips_from_file in Hread.
  step Hread as original Horig. apply fread_at_Ret in Horig as (-> & Hr & Horig).
  destruct (vips_jpegload_buffer original) as [image'|] eqn:Himage; [|done].
  injection Hread as <- <-.
  step Hl. step Hl as size' Hwrite. unfold write_vips_to_file in Hwrite.
  destruct (vips_jpegsave_buffer _) as [variant|] eqn:Hsave; [|done].
  step Hwrite as u2 Happend. injection Hwrite as <- <-.
  apply or_abort_Ret, fwrite_end_Ret in Happend as (Hw & Hne & c & Hc & ->).
  pose proof (lookup_lt_Some _ _ _ Hm) as Hidx.
  step Hl as u3 Hmod1. apply modify_metadata_Ret in Hmod1 as (m1 & Hm1 & ->).
  step Hl as u4 Hmod2. apply modify_metadata_Ret in Hmod2 as (m2 & Hm2 & ->).
  apply updateMetadata_Ret in Hl as (_ & _ & mf & c' & Hmf & Hc' & ->).
  unfold set_file, set_metadata in *. cbn [file header metadata f_mode f_data] in *.
  replace m1 with m in * by congruence.
  rewrite list_lookup_insert_eq in Hm2 by done. injection Hm2 as <-.
  rewrite list_insert_insert_eq in *.
  rewrite list_lookup_insert_eq in Hmf by done. injection Hmf as <-.
  destruct (f_data (file s)) as [|hd slots heap] eqn:Hdata; [done|].
  injection Hc as <-. simpl in Hc'.
  destruct (bool_decide (idx < length slots)%nat) eqn:Hslot.
  2:{ destruct (heap ++ variant) eqn:E; [|done]. apply app_eq_nil in E as [_ ->]. done. }
  apply bool_decide_eq_true in Hslot. injection Hc' as <-.
  exists m, r, original, variant. split_and!; try done.
  - unfold stored_original. by rewrite Hdata.
  - unfold resized_variant. by rewrite Himage.
  - unfold materialized_at. split_and!; try done.
    + intros ->. apply resolution_of_code_Some in Er. subst res_code. done.
    + exists hd, slots, heap. by rewrite Hdata.
Qed.

(** A call of [lazily_resize] that returns an error has changed nothing. *)
Lemma lazily_resize_Exit res_code idx s e s' :
  lazily_resize res_code idx s = Exit e s' -> s' = s.
Proof.
  unfold lazily_resize. destruct (res_code =? code_of_resolution RES_ORIG); [done|].
  destruct (resolution_of_code res_code) as [r|]; [|by intros [= _ <-]].
  intros Hl. exit_step Hl u1 Hv.
  { apply (validMetadataIndex_final idx). by rewrite Hl. }
  apply validMetadataIndex_Ret in Hv as (-> & Hidx & _).
  exit_step Hl m Hm. { by apply metadata_at_Exit in Hl. }
  apply metadata_at_Ret in Hm as [Hm ->].
  destruct (res_get (offset m) r =? INIT_OFFSET); simpl in Hl; [|done].
  exit_step Hl image Hread.
  { unfold read_vips_from_file in Hl. exit_step Hl original Horig.
    - by apply fread_at_Exit in Hl as [_ ->].
    - apply fread_at_Ret in Horig as (-> & _). destruct (vips_jpegload_buffer _); [done|].
      by injection Hl as _ <-. }
  unfold read_vips_from_file in Hread. step Hread as original Horig.
  apply fread_at_Ret in Horig as (-> & _). destruct (vips_jpegload_buffer _); [|done].
  injection Hread as _ <-.
  exit_step Hl a Hg; [done|]. rewrite get_eq in Hg. injection Hg as <- <-.
  exit_step Hl size' Hwrite.
  { unfold write_vips_to_file in Hl. destruct (vips_jpegsave_buffer _); [|done].
    exit_step Hl u2 Happend; [|done]. by apply or_abort_Exit in Hl. }
  unfold write_vips_to_file in Hwrite.
  destruct (vips_jpegsave_buffer _) as [variant|]; [|done].
  step Hwrite as u2 Happend. injection Hwrite as _ <-.
  apply or_abort_Ret, fwrite_end_Ret in Happend as (Hw & _ & c & _ & ->).
  exit_step Hl u3 Hmod1. { by apply modify_metadata_Exit in Hl. }
  apply modify_metadata_Ret in Hmod1 as (m1 & _ & ->).
  exit_step Hl u4 Hmod2. { by apply modify_metadata_Exit in Hl. }
  apply modify_metadata_Ret in Hmod2 as (m2 & _ & ->).
  apply updateMetadata_Exit in Hl as [_ [[_ Hle]|[_ Hnw]]];
    cbn [set_metadata set_file file header f_mode] in *; [lia|congruence].
Qed.

Lemma lazily_resize_final res_code idx s s' :
  final (lazily_resize res_code idx s) = Some s' -> s' = s \/ materialized s s'.
Proof.
  destruct (lazily_resize res_code idx s) as [u s1|e s1|] eqn:Hl; simpl; [| |done];
    intros [= <-].
  - apply lazily_resize_materialized in Hl as [[-> _]|(m & r & original & variant & _ & _ & _ &
                                                         _ & _ & Hm)]; [by left|right].
    by exists idx, m, r, variant.
  - left. by eapply lazily_resize_Exit.
Qed.

Lemma do_read_final id resolution s s' :
  final (do_read id resolution s) = Some s' -> s' = s \/ materialized s s'.
Proof.
  unfold do_read. destruct (resolution_of_code resolution) as [r|]; [|intros [= <-]; by left].
  destruct (findMetadataIndex id s) as [idx s1|e s1|] eqn:Hf.
  2:{ rewrite (bind_Exit_eq _ _ _ _ _ Hf). apply findMetadataIndex_Exit in Hf as [_ ->].
      intros [= <-]. by left. }
  2:{ unfold mbind, M_bind. by rewrite Hf. }
  rewrite (bind_Ret_eq _ _ _ _ _ Hf). apply findMetadataIndex_Ret_found_at in Hf as [-> _].
  unfold mbind at 1, M_bind at 1, metadata_at at 1.
  destruct (metadata s !! idx) as [m|]; [|done].
  assert (forall (k : M (list byte * Z)) s2,
            s2 = s \/ materialized s s2 ->
            (forall s3, final (k s2) = Some s3 -> s3 = s2) ->
            final (k s2) = Some s' -> s' = s \/ materialized s s') as Hk.
  { intros k s2 Hs2 Hsame Hfin. by rewrite (Hsame _ Hfin). }
  assert (forall s2 s3,
    final ((m0 ← metadata_at idx;
            buffer ← fread_at (res_get (offset m0) r) (res_get (size m0) r);
            mret (buffer, res_get (size m0) r)) s2) = Some s3 -> s3 = s2) as Htail.
  { intros s2 s3. unfold mbind, M_bind, metadata_at.
    destruct (metadata s2 !! idx) as [m2|]; [|done].
    destruct (fread_at _ _ s2) as [bs s4|e s4|] eqn:Hr; simpl; [| |done]; intros [= <-].
    - by apply fread_at_Ret in Hr as (-> & _).
    - by apply fread_at_Exit in Hr as (_ & ->). }
  destruct (res_get (offset m) r =? INIT_OFFSET).
  - destruct (lazily_resize resolution idx s) as [u s2|e s2|] eqn:Hl.
    + rewrite (bind_Ret_eq _ _ _ _ _ Hl). apply Hk; [|apply Htail].
      apply (lazily_resize_final resolution idx). by rewrite Hl.
    + rewrite (bind_Exit_eq _ _ _ _ _ Hl). apply lazily_resize_Exit in Hl as ->.
      intros [= <-]. by left.
    + unfold mbind, M_bind. by rewrite Hl.
  - rewrite (bind_Ret_eq _ _ _ tt s) by done. apply Hk; [by left|apply Htail].
Qed.

(** ** Serving a variant *)

Lemma do_read_cached id r s idx m bs :
  max_files (header s) = Z.of_nat (length (metadata s)) ->
  readable (f_mode (file s)) = true ->
  found_at id s idx m -> res_get (offset m) r <> 0 ->
  read_bytes (res_get (offset m) r) (res_get (size m) r) (f_data (file s)) = Some (Some bs) ->
  do_read id (code_of_resolution r) s = Ret (bs, res_get (size m) r) s.
Proof.
  intros Hmax Hr Hfound Hnz Hbs. unfold do_read. rewrite resolution_of_code_of.
  rewrite (bind_Ret_eq _ _ _ _ _ (findMetadataIndex_found_at _ _ _ _ Hmax Hfound)).
  destruct Hfound as (Hm & _).
  rewrite (bind_Ret_eq _ _ _ _ _ (metadata_at_eq _ _ _ Hm)).
  apply Z.eqb_neq in Hnz. unfold INIT_OFFSET. rewrite Hnz.
  rewrite (bind_Ret_eq _ _ _ tt s) by done.
  rewrite (bind_Ret_eq _ _ _ _ _ (metadata_at_eq _ _ _ Hm)).
  by rewrite (bind_Ret_eq _ _ _ _ _ (fread_at_eq _ _ _ _ Hr Hbs)).
Qed.

Lemma code_of_resolution_not_orig r :
  r <> RES_ORIG -> (code_of_resolution r =? code_of_resolution RES_ORIG) = false.
Proof. by destruct r. Qed.

Lemma lazily_resize_eq r idx s m original variant hd slots heap :
  max_files (header s) = Z.of_nat (length (metadata s)) ->
  metadata s !! idx = Some m -> valid m -> r <> RES_ORIG -> res_get (offset m) r = 0 ->
  readable (f_mode (file s)) = true -> writable (f_mode (file s)) = true ->
  f_data (file s) = Image hd slots heap -> length slots = length (metadata s) ->
  stored_original s m = Some (Some original) ->
  resized_variant (header s) (code_of_resolution r) original = Some variant ->
  variant <> [] ->
  let mm := materialized_slot r (file_size (f_data (file s))) (Z.of_nat (length variant)) m in
  lazily_resize (code_of_resolution r) idx s
  = Ret tt (ImgstFile (MkFILE (f_mode (file s)) (Image hd (<[idx := mm]> slots) (heap ++ variant)))
                      (header s) (<[idx := mm]> (metadata s))).
Proof.
  intros Hmax Hm Hv Hr Hz Hread Hwrite Hdata Hlen Horig Hvar Hne mm.
  pose proof (lookup_lt_Some _ _ _ Hm) as Hidx.
  unfold lazily_resize. rewrite code_of_resolution_not_orig, resolution_of_code_of by done.
  rewrite (bind_Ret_eq _ _ _ _ _ (validMetadataIndex_eq idx s m ltac:(lia) Hm Hv)).
  rewrite (bind_Ret_eq _ _ _ _ _ (metadata_at_eq _ _ _ Hm)).
  unfold INIT_OFFSET. rewrite Hz, Z.eqb_refl. cbn [negb].
  unfold resized_variant in Hvar.
  destruct (vips_jpegload_buffer original) as [image|] eqn:Himage; [|done].
  rewrite (bind_Ret_eq _ _ _ image s).
  2:{ unfold read_vips_from_file.
      rewrite (bind_Ret_eq _ _ _ _ _ (fread_at_eq _ _ _ _ Hread Horig)). by rewrite Himage. }
  rewrite (bind_Ret_eq _ _ _ _ _ (get_eq s)).
  erewrite bind_Ret_eq; cycle 1.
  { unfold write_vips_to_file. rewrite Hvar.
    by rewrite (bind_Ret_eq _ _ _ _ _ (or_abort_eq _ _ _ _ (fwrite_end_eq _ _ _ _ _ Hwrite Hne Hdata))). }
  erewrite bind_Ret_eq; cycle 1.
  { apply modify_metadata_eq. exact Hm. }
  erewrite bind_Ret_eq; cycle 1.
  { apply modify_metadata_eq. cbn [set_metadata set_file metadata]. by apply list_lookup_insert_eq. }
  unfold set_metadata, set_file. cbn [metadata file header f_mode f_data].
  rewrite list_insert_insert_eq.
  erewrite updateMetadata_eq; cbn [header file metadata f_mode f_data]; try done.
  - lia.
  - by apply list_lookup_insert_eq.
  - simpl. rewrite bool_decide_eq_true_2 by lia. done.
Qed.

Lemma do_read_materialize id r s idx m original variant :
  handle_ok s -> f_mode (file s) = RBplus ->
  found_at id s idx m -> r <> RES_ORIG -> res_get (offset m) r = 0 ->
  stored_original s m = Some (Some original) ->
  resized_variant (header s) (code_of_resolution r) original = Some variant ->
  variant <> [] -> Z.of_nat (length variant) < 2 ^ 32 ->
  exists s',
    do_read id (code_of_resolution r) s = Ret (variant, Z.of_nat (length variant)) s' /\
    materialized_at s s' idx m r variant /\
    header s' = header s /\ heap_of s' = heap_of s ++ variant.
Proof.
  intros [Hmax (hd & slots & heap & Hdata & Hlen)] Hmode Hfound Hr Hz Horig Hvar Hne Hsize.
  pose proof Hfound as (Hm & _ & Hv & _).
  pose proof (lookup_lt_Some _ _ _ Hm) as Hidx.
  set (mm := materialized_slot r (file_size (f_data (file s))) (Z.of_nat (length variant)) m).
  set (s' := ImgstFile (MkFILE (f_mode (file s)) (Image hd (<[idx := mm]> slots) (heap ++ variant)))
                       (header s) (<[idx := mm]> (metadata s))).
  assert (lazily_resize (code_of_resolution r) idx s = Ret tt s') as Hl.
  { apply lazily_resize_eq with original; try done; by rewrite Hmode. }
  assert (metadata s' !! idx = Some mm) as Hmm by (by apply list_lookup_insert_eq).
  exists s'. split_and!; try done.
  - unfold do_read. rewrite resolution_of_code_of.
    rewrite (bind_Ret_eq _ _ _ _ _ (findMetadataIndex_found_at _ _ _ _ Hmax Hfound)).
    rewrite (bind_Ret_eq _ _ _ _ _ (metadata_at_eq _ _ _ Hm)).
    unfold INIT_OFFSET. rewrite Hz, Z.eqb_refl.
    rewrite (bind_Ret_eq _ _ _ _ _ Hl).
    rewrite (bind_Ret_eq _ _ _ _ _ (metadata_at_eq _ _ _ Hmm)).
    assert (res_get (size mm) r = Z.of_nat (length variant)) as ->.
    { subst mm. change (size (materialized_slot r ?off ?len m)) with (res_set (size m) r (uint32 len)).
      rewrite res_get_set_eq. apply uint32_small. lia. }
    assert (res_get (offset mm) r = file_size (f_data (file s))) as ->.
    { subst mm. change (offset (materialized_slot r ?off ?len m)) with (res_set (offset m) r off).
      by rewrite res_get_set_eq. }
    erewrite bind_Ret_eq; [done|].
    apply fread_at_eq; [cbn [s' file f_mode]; by rewrite Hmode|].
    cbn [s' file f_data]. rewrite Hdata. apply read_bytes_appended; [|done].
    by rewrite length_insert.
  - unfold materialized_at. split_and!; try done. exists hd, slots, heap.
    split_and!; try done. lia.
  - unfold heap_of. cbn [s' file f_data]. by rewrite Hdata.
Qed.

(** X7: on a stream opened for reading and writing, the first [do_read] of a
    thumbnail or small variant appends the resized original to the file,
    records its place and length in the slot, and returns exactly these
    bytes and their number. *)
Theorem do_read_materializes id r s idx m original variant :
  handle_ok s -> f_mode (file s) = RBplus ->
  found_at id s idx m -> r <> RES_ORIG -> res_get (offset m) r = 0 ->
  stored_original s m = Some (Some original) ->
  resized_variant (header s) (code_of_resolution r) original = Some variant ->
  variant <> [] -> Z.of_nat (length variant) < 2 ^ 32 ->
  exists s',
    do_read id (code_of_resolution r) s = Ret (variant, Z.of_nat (length variant)) s' /\
    materialized_at s s' idx m r variant /\
    header s' = header s /\ heap_of s' = heap_of s ++ variant.
Proof.
  apply do_read_materialize.
Qed.

(** X8: on a stream opened for reading only, [do_read] serves what the file
    already holds, original or variant, and leaves the handle as it was;
    for a variant that is not in the file yet the call does not return:
    the write of the resized bytes fails, and [write_vips_to_file] then
    frees the address of its caller's variable. *)
Theorem do_read_read_only id r s idx m :
  handle_ok s -> f_mode (file s) = RB -> found_at id s idx m ->
  (forall bs,
     res_get (offset m) r <> 0 ->
     read_bytes (res_get (offset m) r) (res_get (size m) r) (f_data (file s)) = Some (Some bs) ->
     do_read id (code_of_resolution r) s = Ret (bs, res_get (size m) r) s) /\
  (forall original variant,
     r <> RES_ORIG -> res_get (offset m) r = 0 ->
     stored_original s m = Some (Some original) ->
     resized_variant (header s) (code_of_resolution r) original = Some variant ->
     do_read id (code_of_resolution r) s = Stuck).
Proof.
  intros [Hmax _] Hmode Hfound. split.
  - intros bs Hnz Hbs. apply do_read_cached with idx; try done. by rewrite Hmode.
  - intros original variant Hr Hz Horig Hvar.
    pose proof Hfound as (Hm & _ & Hv & _).
    pose proof (lookup_lt_Some _ _ _ Hm) as Hidx.
    unfold do_read. rewrite resolution_of_code_of.
    rewrite (bind_Ret_eq _ _ _ _ _ (findMetadataIndex_found_at _ _ _ _ Hmax Hfound)).
    rewrite (bind_Ret_eq _ _ _ _ _ (metadata_at_eq _ _ _ Hm)).
    unfold INIT_OFFSET. rewrite Hz, Z.eqb_refl.
    apply bind_Stuck_eq.
    unfold lazily_resize. rewrite code_of_resolution_not_orig, resolution_of_code_of by done.
    rewrite (bind_Ret_eq _ _ _ _ _ (validMetadataIndex_eq idx s m ltac:(lia) Hm Hv)).
    rewrite (bind_Ret_eq _ _ _ _ _ (metadata_at_eq _ _ _ Hm)).
    unfold INIT_OFFSET. rewrite Hz, Z.eqb_refl. cbn [negb].
    unfold resized_variant in Hvar.
    destruct (vips_jpegload_buffer original) as [image|] eqn:Himage; [|done].
    rewrite (bind_Ret_eq _ _ _ image s).
    2:{ unfold read_vips_from_file. erewrite bind_Ret_eq; [by rewrite Himage|].
        apply fread_at_eq; [by rewrite Hmode|done]. }
    rewrite (bind_Ret_eq _ _ _ _ _ (get_eq s)).
    apply bind_Stuck_eq. unfold write_vips_to_file. rewrite Hvar.
    apply bind_Stuck_eq. unfold or_abort, fwrite_end.
    rewrite (bind_Ret_eq _ _ _ _ _ (get_eq s)). by rewrite Hmode.
Qed.

(** ** What a failed insertion leaves, slot by slot *)

Lemma do_insert_Exit_frame image_buffer id s e s' :
  max_files (header s) = Z.of_nat (length (metadata s)) ->
  writable (f_mode (file s)) = true ->
  do_insert image_buffer id s = Exit e s' -> failed_insert s s'.
Proof.
  intros Hmax Hw. unfold do_insert. intros Hi.
  assert (failed_insert s s) as Hrefl.
  { unfold failed_insert. split_and!; [done..|apply grows_refl|by left]. }
  exit_step Hi a Hg; [done|]. rewrite get_eq in Hg. injection Hg as <- <-.
  exit_step Hi u1 Hfull. { by apply M_EXIT_IF_Exit in Hi as (_ & _ & ->). }
  apply M_EXIT_IF_Ret in Hfull as [Hfull ->].
  exit_step Hi index Hloop. { by apply do_insert_loop_Exit in Hi. }
  apply do_insert_loop_Ret in Hloop as (-> & _ & _ & Hfree).
  exit_step Hi u2 Hsha. { by apply modify_metadata_Exit in Hi. }
  apply modify_metadata_Ret in Hsha as (m0 & Hm0 & ->).
  pose proof (lookup_lt_Some _ _ _ Hm0) as Hindex.
  assert (is_valid m0 = 0) as Hz0.
  { destruct Hfree as (m & Hm & Hz); [lia|]. congruence. }
  unfold set_metadata in Hi. cbn [file header metadata] in Hi.
  exit_step Hi u3 Hid. { by apply modify_metadata_Exit in Hi. }
  apply modify_metadata_inserted in Hid as ->; [|done].
  set (mi := set_img_id (memcpy_img_id id (SHA256 image_buffer)) (set_SHA (SHA256 image_buffer) m0)) in *.
  assert (forall F hd m, is_valid m = is_valid m0 -> grows (f_data (file s)) (f_data F) ->
            f_mode F = f_mode (file s) -> hd = header s ->
            failed_insert s (ImgstFile F hd (<[index := m]> (metadata s)))) as Hok.
  { intros [mode c] hd m Hv Hc Hmode ->. simpl in Hmode. subst mode.
    unfold failed_insert. cbn [header file metadata f_mode f_data].
    split_and!; [done..|]. right. exists index, m0, m. split_and!; [done..|congruence|done]. }
  exit_step Hi u4 Hd.
  { apply (do_name_and_content_dedup_Exit _ _ _ _ mi) in Hi; [|by apply list_lookup_insert_eq].
    destruct Hi as [(_ & _ & ->)|(_ & o & z & ->)].
    - apply Hok; [done|apply grows_refl|done..].
    - unfold set_metadata. cbn [file header metadata]. rewrite list_insert_insert_eq.
      apply Hok; [done|apply grows_refl|done..]. }
  apply (do_name_and_content_dedup_Ret _ _ _ _ mi) in Hd; [|by apply list_lookup_insert_eq].
  cbn [file header metadata] in Hd. destruct Hd as (Hlt & _ & Hd).
  assert (exists m1, is_valid m1 = is_valid m0 /\
            s0 = ImgstFile (file s) (header s) (<[index := m1]> (metadata s)))
    as (m1 & Hv1 & ->).
  { destruct Hd as [[_ ->]|(k & mk & _ & _ & _ & _ & _ & _ & ->)];
      unfold set_metadata; cbn [file header metadata]; rewrite list_insert_insert_eq;
      (eexists; split; [|reflexivity]; reflexivity). }
  exit_step Hi m1' Hm1. { by apply metadata_at_Exit in Hi. }
  apply metadata_at_inserted in Hm1 as [-> ->]; [|done].
  assert (forall (B : Type) (k : M B) eb sb,
    ((if res_get (offset m1) RES_ORIG =? 0
      then s ← get;
           modify_metadata index
             (fun m => set_offset (res_set (offset m) RES_ORIG (file_size (f_data (file s)))) m);;
           fwrite_end image_buffer
      else mret tt) ≫= (fun _ => k))
      (ImgstFile (file s) (header s) (<[index := m1]> (metadata s))) = Exit eb sb ->
    failed_insert s sb \/
    exists m2 c, is_valid m2 = is_valid m0 /\ grows (f_data (file s)) c /\
      k (ImgstFile (MkFILE (f_mode (file s)) c) (header s) (<[index := m2]> (metadata s)))
      = Exit eb sb) as Hbranch.
  { intros B k eb sb Hb. exit_step Hb u5 Happend.
    - left. destruct (res_get (offset m1) RES_ORIG =? 0); [|done].
      exit_step Hb a Hg; [done|]. rewrite get_eq in Hg. injection Hg as <- <-.
      exit_step Hb u6 Hmod. { by apply modify_metadata_Exit in Hb. }
      apply modify_metadata_inserted in Hmod as ->; [|done].
      unfold fwrite_end, mbind, M_bind in Hb. simpl in Hb.
      destruct (_ && _); [by destruct (append_bytes _ _)|].
      injection Hb as _ <-. apply Hok; [done|apply grows_refl|done..].
    - right. destruct (res_get (offset m1) RES_ORIG =? 0).
      + step Happend. modify_step Happend.
        apply fwrite_end_Ret in Happend as (_ & _ & c & Hc & ->).
        cbn [file f_data f_mode set_file header metadata] in *.
        eexists _, c. split_and!; [|  |exact Hb]; [done|].
        unfold append_bytes in Hc. destruct (f_data (file s)); [done|].
        injection Hc as <-. simpl. split_and!; eauto.
      + injection Happend as _ <-. exists m1, (f_data (file s)).
        split_and!; [done|apply grows_refl|]. by destruct s as [[? ?] ? ?]. }
  apply Hbranch in Hi as [Hi|(m2 & c & Hv2 & Hc & Hi)]; [done|]. clear Hbranch.
  exit_step Hi hw Hres.
  { unfold get_resolution in Hi. destruct (vips_jpegload_buffer _); [done|].
    injection Hi as _ <-. by apply Hok. }
  apply get_resolution_Ret in Hres as (-> & image & Himage & ->).
  exit_step Hi v1 Hmod. { by apply modify_metadata_Exit in Hi. }
  apply modify_metadata_inserted in Hmod as ->; [|done].
  exit_step Hi v2 Hmod. { by apply modify_metadata_Exit in Hi. }
  apply modify_metadata_inserted in Hmod as ->; [|done].
  exit_step Hi v3 Hmod. { by apply modify_metadata_Exit in Hi. }
  apply modify_metadata_inserted in Hmod as ->; [|done].
  exit_step Hi v4 Hhd1; [done|]. injection Hhd1 as _ <-.
  exit_step Hi v5 Hhd2; [done|]. injection Hhd2 as _ <-.
  exit_step Hi v6 Hupd.
  { apply updateHeader_Exit in Hi as (_ & _ & Hnw). simpl in Hnw. congruence. }
  apply updateHeader_Ret in Hupd as [_ ->].
  apply updateMetadata_Exit in Hi as [_ [[_ Hle]|[_ Hnw]]]; simpl in *; [lia|congruence].
Qed.

(** ** A store in order stays in order *)

Lemma valid_inserted_old (md : list img_metadata) index m0 m' k mk :
  md !! index = Some m0 -> is_valid m' = 0 ->
  <[index := m']> md !! k = Some mk -> valid mk -> md !! k = Some mk.
Proof.
  intros Hm0 Hz Hmk Hv. destruct (decide (k = index)) as [->|Hne].
  - rewrite list_lookup_insert_eq in Hmk by (by eapply lookup_lt_Some).
    injection Hmk as <-. by destruct Hv.
  - by rewrite list_lookup_insert_ne in Hmk.
Qed.

Lemma store_wf_insert_Ret image_buffer id s u s' :
  store_wf s -> do_insert image_buffer id s = Ret u s' -> store_wf s'.
Proof.
  intros (Hinv & Hmir & Huniq & Hflags) Hi. pose proof Hinv as (Hok & _).
  split_and!.
  - by eapply store_inv_insert_Ret.
  - by eapply mirrored_insert.
  - apply do_insert_Ret_ok in Hi
      as (index & m0 & image & o & z & appended & hd & slots & heap & _ & Hindex & _ & Hm0 &
          Hz0 & Hnodup & _ & _ & _ & _ & _ & ->); [|done].
    assert (forall k mk, k <> index -> metadata s !! k = Some mk -> valid mk ->
                         img_id mk <> memcpy_img_id id (SHA256 image_buffer)) as Hother.
    { intros k mk Hk Hmk Hvk Hid. apply (Hnodup k). split; [done|]. exists mk.
      split_and!; [done..|]. rewrite Hid, strncmp_memcpy_img_id_r. apply strncmp_refl. }
    intros i j mi mj Hmi Hmj Hvi Hvj Hid. cbn [metadata] in Hmi, Hmj.
    destruct (decide (i = index)) as [->|Hi'], (decide (j = index)) as [->|Hj']; [done|..].
    + rewrite list_lookup_insert_eq in Hmi by done. injection Hmi as <-.
      rewrite list_lookup_insert_ne in Hmj by done. by destruct (Hother j mj).
    + rewrite list_lookup_insert_eq in Hmj by done. injection Hmj as <-.
      rewrite list_lookup_insert_ne in Hmi by done. by destruct (Hother i mi).
    + rewrite list_lookup_insert_ne in Hmi, Hmj by done. by eapply Huniq.
  - apply do_insert_Ret_ok in Hi
      as (index & m0 & image & o & z & appended & hd & slots & heap & _ & Hindex & _ & Hm0 &
          Hz0 & _ & _ & _ & _ & _ & _ & ->); [|done].
    intros i m Hm. cbn [metadata] in Hm. destruct (decide (i = index)) as [->|Hne].
    + rewrite list_lookup_insert_eq in Hm by done. injection Hm as <-. by right.
    + rewrite list_lookup_insert_ne in Hm by done. by eapply Hflags.
Qed.

Lemma store_wf_failed_insert s s' :
  store_wf s -> store_inv s' -> failed_insert s s' -> store_wf s'.
Proof.
  intros (_ & (slots & heap & Hdata & Hlen & Hsync) & Huniq & Hflags) Hinv'
         (Hhd & Hmode & Hgrow & Hmd).
  assert (forall k mk, metadata s' !! k = Some mk -> valid mk -> metadata s !! k = Some mk)
    as Hold.
  { destruct Hmd as [->|(index & m0 & m' & Hm0 & Hz0 & Hz' & ->)]; [done|].
    intros k mk. by apply valid_inserted_old with m0. }
  assert (length (metadata s') = length (metadata s)) as Hlen'.
  { destruct Hmd as [->|(index & m0 & m' & _ & _ & _ & ->)]; [done|]. by rewrite length_insert. }
  split_and!; [done| | |].
  - rewrite Hdata in Hgrow. destruct (f_data (file s')) as [|h' slots' heap'] eqn:Hdata'; [done|].
    destruct Hgrow as (-> & -> & _). exists slots, heap'. rewrite Hhd.
    split_and!; [done|congruence|]. intros i m Hm Hv. apply Hsync; [|done]. by apply Hold.
  - intros i j mi mj Hmi Hmj Hvi Hvj. apply Huniq; by try apply Hold.
  - intros i m Hm. destruct Hmd as [Hmd|(index & m0 & m' & Hm0 & Hz0 & Hz' & Hmd)];
      rewrite Hmd in Hm; [by eapply Hflags|].
    destruct (decide (i = index)) as [->|Hne].
    + rewrite list_lookup_insert_eq in Hm by (by eapply lookup_lt_Some).
      injection Hm as <-. by left.
    + rewrite list_lookup_insert_ne in Hm by done. by eapply Hflags.
Qed.

Lemma store_wf_delete_Ret id s u s' :
  store_wf s -> do_delete id s = Ret u s' -> store_wf s'.
Proof.
  intros (Hinv & Hmir & Huniq & Hflags) Hd.
  split_and!.
  - by eapply store_inv_delete_Ret.
  - by eapply mirrored_delete.
  - apply do_delete_Ret in Hd as (idx & m & c & _ & _ & Hm & _ & _ & _ & _ & _ & ->).
    intros i j mi mj Hmi Hmj Hvi Hvj. cbn [metadata] in Hmi, Hmj.
    apply Huniq; try done; by apply (valid_inserted_old _ idx m (set_is_valid EMPTY m)).
  - apply do_delete_Ret in Hd as (idx & m & c & _ & _ & Hm & _ & _ & _ & _ & _ & ->).
    intros i mi Hmi. cbn [metadata] in Hmi. destruct (decide (i = idx)) as [->|Hne].
    + rewrite list_lookup_insert_eq in Hmi by (by eapply lookup_lt_Some).
      injection Hmi as <-. by left.
    + rewrite list_lookup_insert_ne in Hmi by done. by eapply Hflags.
Qed.

Lemma store_wf_materialized s s' : store_wf s -> materialized s s' -> store_wf s'.
Proof.
  intros (([Hmax (hd0 & slots0 & heap0 & Hdata0 & Hlen0)] & Hw & Hrange & Hnum & Hhdr & Hfl) &
          (slots1 & heap1 & Hdata1 & Hlen1 & Hsync) & Huniq & Hflags)
         (idx & m & r & variant & Hm & Hv & Hr & Hz & Hne & hd & slots & heap & Hdata & Hidx & Hs').
  cbv zeta in Hs'.
  rewrite Hdata in Hdata0, Hdata1. injection Hdata0 as <- <- <-. injection Hdata1 as -> <- <-.
  unfold header_of, slots_of in Hhdr, Hfl. rewrite Hdata in Hhdr, Hfl.
  set (mm := materialized_slot r (file_size (f_data (file s))) (Z.of_nat (length variant)) m)
    in *.
  subst s'.
  assert (is_valid mm = is_valid m) as Hvmm by done.
  assert (img_id mm = img_id m) as Hidmm by done.
  assert (forall k mk, <[idx := mm]> (metadata s) !! k = Some mk ->
            exists mk', metadata s !! k = Some mk' /\ is_valid mk' = is_valid mk /\
                        img_id mk' = img_id mk) as Hold.
  { intros k mk Hmk. destruct (decide (k = idx)) as [->|Hk].
    - rewrite list_lookup_insert_eq in Hmk by (by eapply lookup_lt_Some).
      injection Hmk as <-. by exists m.
    - rewrite list_lookup_insert_ne in Hmk by done. by exists mk. }
  split_and!.
  - unfold store_inv, handle_ok, header_of, slots_of.
    cbn [header file metadata f_mode f_data]. rewrite !length_insert.
    split_and!; try done; try lia.
    + eexists _, _, _. split; [done|]. by rewrite length_insert.
    + rewrite Hnum. symmetry. apply count_valid_flags.
      rewrite list_fmap_insert. apply list_insert_id. by rewrite list_lookup_fmap, Hm.
    + by rewrite !list_fmap_insert, Hfl.
  - exists (<[idx := mm]> slots), (heap ++ variant). cbn [header file metadata f_data].
    split_and!; [done|by rewrite !length_insert|].
    intros i mi Hmi Hvi. destruct (decide (i = idx)) as [->|Hk].
    + rewrite list_lookup_insert_eq in Hmi by (by eapply lookup_lt_Some).
      injection Hmi as <-. by apply list_lookup_insert_eq.
    + rewrite list_lookup_insert_ne in Hmi by done. rewrite list_lookup_insert_ne by done.
      by apply Hsync.
  - intros i j mi mj Hmi Hmj Hvi Hvj Hid. cbn [metadata] in Hmi, Hmj.
    destruct (Hold i mi Hmi) as (mi' & Hmi' & Hvi' & Hidi).
    destruct (Hold j mj Hmj) as (mj' & Hmj' & Hvj' & Hidj).
    apply (Huniq i j mi' mj'); unfold valid in *; congruence.
  - intros i mi Hmi. cbn [metadata] in Hmi.
    destruct (Hold i mi Hmi) as (mi' & Hmi' & Hvi' & _). rewrite <- Hvi'. by eapply Hflags.
Qed.

Lemma store_wf_after_run c s s' : store_wf s -> run c s = Some s' -> store_wf s'.
Proof.
  intros Hwf Hrun. pose proof Hwf as (Hinv & _). pose proof Hinv as ([Hmax _] & Hw & _).
  destruct c as [image_buffer id|id|id resolution|res_code idx]; simpl in Hrun.
  - destruct (do_insert image_buffer id s) as [u s1|e s1|] eqn:Hi; simpl in Hrun; [| |done];
      injection Hrun as ->.
    + by eapply store_wf_insert_Ret.
    + apply store_wf_failed_insert with s; [done| |].
      * by eapply store_inv_insert_Exit.
      * by eapply do_insert_Exit_frame.
  - destruct (do_delete id s) as [u s1|e s1|] eqn:Hd; simpl in Hrun; [| |done];
      injection Hrun as ->.
    + by eapply store_wf_delete_Ret.
    + by apply do_delete_Exit in Hd as [_ ->].
  - apply do_read_final in Hrun as [->|Hmat]; [done|]. by eapply store_wf_materialized.
  - apply lazily_resize_final in Hrun as [->|Hmat]; [done|]. by eapply store_wf_materialized.
Qed.

(** X9: the order of a store is kept by every call of the library on the
    handle, whether the call returns [ERR_NONE] or an error. *)
Theorem store_wf_run c s s' : store_wf s -> run c s = Some s' -> store_wf s'.
Proof.
  apply store_wf_after_run.
Qed.

(** ** Creating a store and opening it *)

Lemma do_create_count fs name h s :
  0 <= max_files h ->
  do_create fs name h = Some (inr s) ->
  (1 + Z.of_nat (Z.to_nat (max_files h)) =? uint32 (max_files h + 1)) = true.
Proof.
  intros Hmax. unfold do_create, fopen.
  destruct (fs_creatable fs name); [|done].
  set (h' := set_num_files _ _).
  set (md := replicate _ _).
  assert (max_files h' = max_files h) as Hh' by done.
  assert (length md = Z.to_nat (max_files h)) as Hlen by apply length_replicate.
  rewrite (bind_Ret_eq _ _ _ tt (ImgstFile (MkFILE WB (Image h' [] [])) h' md)) by done.
  rewrite (bind_Ret_eq _ _ _ tt (ImgstFile (MkFILE WB (Image h' md [])) h' md)).
  - rewrite Hh'. destruct (_ =? _); simpl; done.
  - rewrite Hh'. apply (do_create_loop_spec _ 0 WB h' h' md); [done| |]; lia.
Qed.

Lemma absent_replicate id F hd n : absent id (ImgstFile F hd (replicate n zero_metadata)).
Proof.
  intros i m Hm Hv. cbn [metadata] in Hm. apply lookup_replicate in Hm as [-> _].
  by destruct Hv.
Qed.

Lemma store_wf_zero F hd n :
  store_inv (ImgstFile F hd (replicate n zero_metadata)) ->
  f_data F = Image hd (replicate n zero_metadata) [] ->
  store_wf (ImgstFile F hd (replicate n zero_metadata)).
Proof.
  intros Hinv Hdata. split_and!; [done| | |].
  - exists (replicate n zero_metadata), []. by cbn [header file metadata].
  - intros i j mi mj Hmi _ Hvi. by destruct (absent_replicate (img_id mi) F hd n i mi).
  - intros i m Hm. cbn [metadata] in Hm. apply lookup_replicate in Hm as [-> _]. by left.
Qed.

(** X10: [do_create] leaves a store in order, with no image, version 0, the
    capacity and the target boxes it was given, and every slot zeroed;
    the file it wrote opens again, with "rb" or "rb+", to the same header
    and the same slot table, in which no identifier is found. *)
Theorem do_create_then_open fs name h s :
  0 <= max_files h < 2 ^ 32 ->
  do_create fs name h = Some (inr s) ->
  store_wf s /\
  header s = ImgstHeader CAT_TXT 0 0 (max_files h) (res_resized h) (unused_32 h) (unused_64 h) /\
  metadata s = replicate (Z.to_nat (max_files h)) zero_metadata /\
  forall fs' name' open_mode,
    fs_file fs' name' = Some (f_data (file s)) ->
    open_mode = "rb"%string \/ open_mode = "rb+"%string ->
    exists s',
      do_open fs' name' open_mode = Some (inr s') /\
      header s' = header s /\ metadata s' = metadata s /\
      f_data (file s') = f_data (file s) /\
      (forall id, absent id s') /\
      (open_mode = "rb+"%string -> store_wf s').
Proof.
  intros Hmax Hc. pose proof (store_inv_create _ _ _ _ Hmax Hc) as Hinv.
  pose proof (do_create_count _ _ _ _ (proj1 Hmax) Hc) as Hcount.
  apply do_create_Some in Hc as (h' & md & -> & -> & ->); [|lia].
  set (h' := set_num_files _ _) in *.
  set (md := replicate _ _) in *.
  assert (max_files h' = max_files h) as Hh' by done.
  split_and!; [by apply store_wf_zero|done|done|].
  intros fs' name' open_mode Hfile Hmode. cbn [file f_data header metadata] in *.
  assert (exists mode,
            do_open fs' name' open_mode = Some (inr (ImgstFile (MkFILE mode (Image h' md [])) h' md))
            /\ (open_mode = "rb+"%string -> mode = RBplus)) as (mode & -> & Hrw).
  { assert (length md = Z.to_nat (max_files h)) as Hlen by apply length_replicate.
    destruct Hmode as [-> | ->]; [exists RB|exists RBplus]; (split; [|done]);
      unfold do_open, fopen.
    - change (strcmp "rb" "rb" =? 0) with true. cbn [negb orb]. rewrite Hfile. cbn [f_data].
      rewrite Hh', Hcount, bool_decide_eq_true_2 by lia. by rewrite <- Hlen, firstn_all.
    - change (strcmp "rb+" "rb" =? 0) with false. change (strcmp "rb+" "rb+" =? 0) with true.
      cbn [negb orb]. rewrite Hfile. cbn [f_data].
      rewrite Hh', Hcount, bool_decide_eq_true_2 by lia. by rewrite <- Hlen, firstn_all. }
  eexists. split; [done|]. cbn [file f_data header metadata].
  split_and!; try done.
  - intros id. apply absent_replicate.
  - intros Hplus. rewrite (Hrw Hplus). apply store_wf_zero; [|done].
    destruct Hinv as ([Hm (hd & slots & heap & Hdata & Hlen)] & _ & Hrange & Hnum & Hhdr & Hfl).
    unfold store_inv, handle_ok, header_of, slots_of in *.
    cbn [header file metadata f_mode f_data] in *. split_and!; try done; try lia. eauto.
Qed.

(** ** What a read serves from the file *)

Lemma res_get_set_ne {A} (a : res_array A) r r' x :
  r <> r' -> res_get (res_set a r x) r' = res_get a r'.
Proof. by destruct r, r'. Qed.

(** A [do_read] that returns [ERR_NONE] and leaves the handle as it was
    has found the slot of the identifier and read, at the place the slot
    records for the resolution, the bytes it returns. *)
Lemma do_read_served id resolution s result :
  do_read id resolution s = Ret result s ->
  exists r idx m,
    resolution = code_of_resolution r /\ found_at id s idx m /\
    res_get (offset m) r <> 0 /\ readable (f_mode (file s)) = true /\
    read_bytes (res_get (offset m) r) (res_get (size m) r) (f_data (file s))
    = Some (Some (fst result)) /\
    snd result = res_get (size m) r.
Proof.
  intros Hread. apply do_read_Ret in Hread
    as (r & idx & m & u & m' & Hr & Hfind & Hm & Hcase & Hm' & Hbytes & Hsize).
  apply findMetadataIndex_Ret_found_at in Hfind as [_ (m0 & Hfound)].
  pose proof Hfound as (Hm0 & _). replace m0 with m in * by congruence.
  replace m' with m in * by congruence.
  apply fread_at_Ret in Hbytes as (_ & Hreadable & Hbytes).
  exists r, idx, m. split_and!; try done; [by apply resolution_of_code_Some|].
  intros Hz. destruct Hcase as [[Hnz _]|[_ Hl]]; [done|].
  apply lazily_resize_materialized in Hl
    as [[_ [->|(r' & m1 & Hr' & Hm1 & Hnz)]]
       |(m1 & r' & original & variant & _ & _ & _ & _ & _ & _ & _ & _ & _ & Hne & hd & slots &
         heap & Hdata & _ & Hs)].
  - rewrite resolution_of_code_of in Hr. injection Hr as <-.
    apply read_bytes_Some in Hbytes as (h & slots & heap & _ & _ & Hoff & _).
    rewrite Hz in Hoff. unfold table_end, sizeof_imgst_header, sizeof_img_metadata in Hoff. lia.
  - replace r' with r in * by congruence. replace m1 with m in * by congruence. done.
  - cbv zeta in Hs. apply (f_equal (fun s => f_data (file s))) in Hs. cbn [file f_data] in Hs.
    rewrite Hdata in Hs. injection Hs as _ Hheap.
    apply (f_equal length) in Hheap. rewrite length_app in Hheap.
    destruct variant; [done|]. simpl in Hheap. lia.
Qed.

Lemma do_read_transfer id r idx m bs s s' hd slots heap hd' slots' appended :
  found_at id s idx m -> res_get (offset m) r <> 0 ->
  read_bytes (res_get (offset m) r) (res_get (size m) r) (f_data (file s)) = Some (Some bs) ->
  f_data (file s) = Image hd slots heap ->
  f_data (file s') = Image hd' slots' (heap ++ appended) -> length slots' = length slots ->
  readable (f_mode (file s')) = true ->
  max_files (header s') = Z.of_nat (length (metadata s')) ->
  (exists m', metadata s' !! idx = Some m' /\ img_id m' = id /\ valid m' /\
              res_get (offset m') r = res_get (offset m) r /\
              res_get (size m') r = res_get (size m) r) ->
  (forall k mk, (k < idx)%nat -> metadata s' !! k = Some mk -> img_id mk = id -> valid mk ->
                exists mk0, metadata s !! k = Some mk0 /\ img_id mk0 = id /\ valid mk0) ->
  do_read id (code_of_resolution r) s' = Ret (bs, res_get (size m) r) s'.
Proof.
  intros (Hm & Hid & Hv & Hfirst) Hnz Hbs Hdata Hdata' Hlen Hr Hmax
         (m' & Hm' & Hid' & Hv' & Hoff & Hsize) Hbefore.
  rewrite <- Hsize. apply do_read_cached with idx; try done.
  - split_and!; try done. intros k mk Hk Hmk Hidk Hvk.
    destruct (Hbefore k mk Hk Hmk Hidk Hvk) as (mk0 & Hmk0 & Hidk0 & Hvk0).
    by apply (Hfirst k mk0).
  - congruence.
  - rewrite Hoff, Hsize, Hdata'. rewrite Hdata in Hbs. by apply read_bytes_grow with hd slots.
Qed.

Lemma do_read_after_run c s s' id resolution result :
  store_inv s -> run c s = Some s' -> c <> Delete id ->
  do_read id resolution s = Ret result s ->
  do_read id resolution s' = Ret result s'.
Proof.
  intros ([Hmax (hd & slots & heap & Hdata & Hlen)] & Hw & _) Hrun Hc Hread.
  apply do_read_served in Hread
    as (r & idx & m & -> & Hfound & Hnz & Hreadable & Hbs & Hsize).
  destruct result as [bs image_size]. simpl in Hbs, Hsize. subst image_size.
  pose proof Hfound as (Hm & Hid & Hv & Hfirst).
  pose proof (lookup_lt_Some _ _ _ Hm) as Hidx.
  assert (forall s1, s1 = s \/ materialized s s1 ->
            do_read id (code_of_resolution r) s1 = Ret (bs, res_get (size m) r) s1) as Hmat.
  { intros s1 [->|(i & mi & ri & variant & Hmi & Hvi & Hri & Hzi & Hne & hd1 & slots1 & heap1 &
                   Hdata1 & Hi & Hs1)].
    { by apply do_read_cached with idx. }
    cbv zeta in Hs1. rewrite Hdata in Hdata1. injection Hdata1 as <- <- <-.
    set (mm := materialized_slot ri _ _ mi) in *.
    apply (do_read_transfer id r idx m bs s s1 hd slots heap hd (<[i := mm]> slots) variant);
      try done; subst s1; cbn [file f_data f_mode header metadata]; try done.
    - by rewrite length_insert.
    - rewrite length_insert. lia.
    - destruct (decide (idx = i)) as [->|Hne'].
      + assert (mi = m) by congruence. subst mi. exists mm.
        rewrite list_lookup_insert_eq by done. split_and!; try done.
        * subst mm. change (offset (materialized_slot ri ?off ?len m))
            with (res_set (offset m) ri off).
          apply res_get_set_ne. intros <-. done.
        * subst mm. change (size (materialized_slot ri ?off ?len m))
            with (res_set (size m) ri (uint32 len)).
          apply res_get_set_ne. intros <-. done.
      + exists m. by rewrite list_lookup_insert_ne.
    - intros k mk Hk Hmk Hidk Hvk. destruct (decide (k = i)) as [->|Hne'].
      + rewrite list_lookup_insert_eq in Hmk by (by eapply lookup_lt_Some).
        injection Hmk as <-. by exists mi.
      + rewrite list_lookup_insert_ne in Hmk by done. by exists mk. }
  destruct c as [image_buffer id'|id'|id' resolution'|res_code i]; simpl in Hrun.
  - destruct (do_insert image_buffer id' s) as [u s1|e s1|] eqn:Hi; simpl in Hrun; [| |done];
      injection Hrun as ->.
    + apply do_insert_Ret_ok in Hi
        as (index & m0 & image & o & z & appended & hd1 & slots1 & heap1 & _ & Hindex & _ & Hm0 &
            Hz0 & Hnodup & _ & _ & _ & Hdata1 & Hlen1 & ->); [|split; eauto].
      rewrite Hdata in Hdata1. injection Hdata1 as <- <- <-.
      set (ns := inserted_slot image_buffer id' image o z m0) in *.
      assert (idx <> index) as Hne.
      { intros ->. replace m0 with m in * by congruence. by destruct Hv. }
      eapply (do_read_transfer id r idx m bs s _ hd slots heap); try done;
        cbn [file f_data f_mode header metadata]; try done.
      * by rewrite length_insert.
      * rewrite length_insert. exact Hmax.
      * exists m. by rewrite list_lookup_insert_ne.
      * intros k mk Hk Hmk Hidk Hvk. destruct (decide (k = index)) as [->|Hne'].
        -- exfalso. rewrite list_lookup_insert_eq in Hmk by done. injection Hmk as <-.
           apply (Hnodup idx). split; [done|]. exists m. split_and!; [done..|].
           change (img_id ns) with (memcpy_img_id id' (SHA256 image_buffer)) in Hidk.
           rewrite Hid, <- Hidk, strncmp_memcpy_img_id_r. apply strncmp_refl.
        -- rewrite list_lookup_insert_ne in Hmk by done. by exists mk.
    + apply do_insert_Exit_frame in Hi as (Hhd & Hmode & Hgrow & Hmd); [|done..].
      rewrite Hdata in Hgrow.
      destruct (f_data (file s')) as [|hd' slots' heap'] eqn:Hdata'; [done|].
      destruct Hgrow as (-> & -> & appended & ->).
      assert (length (metadata s') = length (metadata s)) as Hlen'.
      { destruct Hmd as [->|(index & m0 & m' & _ & _ & _ & ->)]; [done|].
        by rewrite length_insert. }
      eapply (do_read_transfer id r idx m bs s s' hd slots heap); try done.
      * congruence.
      * congruence.
      * destruct Hmd as [->|(index & m0 & m' & Hm0 & Hz0 & Hz' & ->)]; [by exists m|].
        exists m. rewrite list_lookup_insert_ne; [done|].
        intros ->. replace m0 with m in * by congruence. by destruct Hv.
      * intros k mk Hk Hmk Hidk Hvk.
        destruct Hmd as [Hmd|(index & m0 & m' & Hm0 & Hz0 & Hz' & Hmd)]; rewrite Hmd in Hmk;
          [by exists mk|].
        exists mk. split; [|done]. by apply (valid_inserted_old _ index m0 m').
  - destruct (do_delete id' s) as [u s1|e s1|] eqn:Hd; simpl in Hrun; [| |done];
      injection Hrun as ->.
    + apply do_delete_Ret in Hd as (i & mi & c & _ & _ & Hmi & Hidi & Hvi & _ & _ & Hc' & ->).
      pose proof (lookup_lt_Some _ _ _ Hmi) as Hi.
      rewrite Hdata in Hc'. simpl in Hc'. rewrite bool_decide_eq_true_2 in Hc' by lia.
      injection Hc' as <-. cbn [write_header].
      assert (idx <> i) as Hne.
      { intros ->. replace mi with m in * by congruence. apply Hc. congruence. }
      eapply (do_read_transfer id r idx m bs s _ hd slots heap (deleted_header (header s))
                (<[i := set_is_valid EMPTY mi]> slots) []); try done;
        cbn [file f_data f_mode header metadata]; try done.
      * by rewrite app_nil_r.
      * by rewrite length_insert.
      * rewrite length_insert. exact Hmax.
      * exists m. by rewrite list_lookup_insert_ne.
      * intros k mk Hk Hmk Hidk Hvk. exists mk. split; [|done].
        by apply (valid_inserted_old _ i mi (set_is_valid EMPTY mi)).
    + apply do_delete_Exit in Hd as [_ ->]; [|done]. apply Hmat. by left.
  - apply Hmat. by eapply do_read_final.
  - apply Hmat. by eapply lazily_resize_final.
Qed.

(** X11: no call disturbs what the reads of the other images return: a read
    that is served from the file is served again, with the same bytes,
    after any call on the handle, failed or not, other than the deletion
    of that very identifier. *)
Theorem do_read_undisturbed c s s' id resolution result :
  store_inv s -> run c s = Some s' -> c <> Delete id ->
  do_read id resolution s = Ret result s ->
  do_read id resolution s' = Ret result s'.
Proof.
  apply do_read_after_run.
Qed.

(** ** Why an insertion fails, and when it succeeds *)

Lemma dedup_loop_Exit_cause index fuel i b s e s' mi :
  metadata s !! index = Some mi ->
  dedup_loop index i fuel b s = Exit e s' ->
  exists k, same_id_at (metadata s) index (img_id mi) k.
Proof.
  revert i b s mi. induction fuel as [|fuel IH]; intros i b s mi Hmi; simpl; [done|].
  intros Hl. exit_step Hl m Hm. { by apply metadata_at_Exit in Hl. }
  apply metadata_at_Ret in Hm as [Hm ->].
  destruct (negb (i =? index)%nat && negb (is_valid m =? 0)) eqn:E; [|by eapply IH].
  apply andb_true_iff in E as [Hne Hv].
  apply negb_true_iff, Nat.eqb_neq in Hne. apply negb_true_iff, Z.eqb_neq in Hv.
  exit_step Hl mi' Hmi'. { by apply metadata_at_Exit in Hl. }
  apply metadata_at_Ret in Hmi' as [Hmi' ->]. replace mi' with mi in * by congruence.
  exit_step Hl u Hd.
  { apply M_EXIT_IF_Exit in Hl as (Hs & _). apply Z.eqb_eq in Hs.
    exists i. split; [done|]. by exists m. }
  apply M_EXIT_IF_Ret in Hd as [_ ->].
  destruct (shaCompare (SHA mi) (SHA m) =? 0); [|by eapply IH].
  exit_step Hl u1 Hmod1. { by apply modify_metadata_Exit in Hl. }
  apply modify_metadata_Ret in Hmod1 as (m1 & Hm1 & ->).
  exit_step Hl u2 Hmod2. { by apply modify_metadata_Exit in Hl. }
  apply modify_metadata_Ret in Hmod2 as (m2 & Hm2 & ->).
  simpl in Hm2. rewrite list_lookup_insert_eq in Hm2 by (by eapply lookup_lt_Some).
  injection Hm2 as <-. replace m1 with mi in * by congruence.
  unfold set_metadata in Hl. simpl in Hl. rewrite list_insert_insert_eq in Hl.
  apply IH with (mi := set_size (size m) (set_offset (offset m) mi)) in Hl;
    [|simpl; apply list_lookup_insert_eq; by eapply lookup_lt_Some].
  destruct Hl as [k Hk]. exists k. simpl in Hk. by rewrite same_id_at_insert in Hk.
Qed.

Lemma do_insert_Exit_causes image_buffer id s e s' :
  store_inv s -> do_insert image_buffer id s = Exit e s' ->
  (e = ERR_FULL_IMGSTORE /\ max_files (header s) <= num_files (header s) /\ s' = s) \/
  (e = ERR_DUPLICATE_ID /\
   exists k mk, metadata s !! k = Some mk /\ valid mk /\
                strncmp id (img_id mk) MAX_IMG_ID = 0) \/
  (e = ERR_IO /\ image_buffer = []) \/
  (e = ERR_IMGLIB /\ vips_jpegload_buffer image_buffer = None).
Proof.
  intros ([Hmax _] & Hw & _) Hi. unfold do_insert in Hi.
  exit_step Hi a Hg; [done|]. rewrite get_eq in Hg. injection Hg as <- <-.
  exit_step Hi u1 Hfull.
  { apply M_EXIT_IF_Exit in Hi as (Hle & -> & ->). left. split_and!; [done|lia|done]. }
  right. apply M_EXIT_IF_Ret in Hfull as [Hfull ->].
  exit_step Hi index Hloop. { by apply do_insert_loop_Exit in Hi. }
  apply do_insert_loop_Ret in Hloop as (-> & _ & _ & Hfree).
  exit_step Hi u2 Hsha. { by apply modify_metadata_Exit in Hi. }
  apply modify_metadata_Ret in Hsha as (m0 & Hm0 & ->).
  pose proof (lookup_lt_Some _ _ _ Hm0) as Hindex.
  unfold set_metadata in Hi. cbn [file header metadata] in Hi.
  exit_step Hi u3 Hid. { by apply modify_metadata_Exit in Hi. }
  apply modify_metadata_inserted in Hid as ->; [|done].
  set (mi := set_img_id (memcpy_img_id id (SHA256 image_buffer)) (set_SHA (SHA256 image_buffer) m0)) in *.
  exit_step Hi u4 Hd.
  { left. unfold do_name_and_content_dedup in Hi.
    exit_step Hi a Hg; [done|]. rewrite get_eq in Hg. injection Hg as <- <-.
    exit_step Hi u5 Hlt.
    { apply M_EXIT_IF_Exit in Hi as (Hle & _). cbn [header] in Hle. lia. }
    apply M_EXIT_IF_Ret in Hlt as [_ ->].
    exit_step Hi b Hloop.
    - pose proof Hi as Hcode.
      apply (dedup_loop_Exit _ _ _ _ _ _ _ mi) in Hcode as [-> _];
        [|by apply list_lookup_insert_eq].
      apply (dedup_loop_Exit_cause _ _ _ _ _ _ _ mi) in Hi as [k Hk];
        [|by apply list_lookup_insert_eq].
      cbn [metadata] in Hk. rewrite same_id_at_insert in Hk.
      change (img_id mi) with (memcpy_img_id id (SHA256 image_buffer)) in Hk.
      rewrite same_id_at_memcpy_img_id in Hk.
      destruct Hk as (_ & mk & Hmk & Hvk & Hs). split; [done|]. by exists k, mk.
    - destruct b; simpl in Hi; [done|]. by apply modify_metadata_Exit in Hi. }
  right.
  apply (do_name_and_content_dedup_Ret _ _ _ _ mi) in Hd; [|by apply list_lookup_insert_eq].
  cbn [file header metadata] in Hd. destruct Hd as (Hlt & _ & Hd).
  assert (exists m1, s0 = ImgstFile (file s) (header s) (<[index := m1]> (metadata s)))
    as (m1 & ->).
  { destruct Hd as [[_ ->]|(k & mk & _ & _ & _ & _ & _ & _ & ->)];
      unfold set_metadata; cbn [file header metadata]; rewrite list_insert_insert_eq; eauto. }
  exit_step Hi m1' Hm1. { by apply metadata_at_Exit in Hi. }
  apply metadata_at_inserted in Hm1 as [-> ->]; [|done].
  exit_step Hi u5 Happend.
  { left. destruct (res_get (offset m1) RES_ORIG =? 0); [|done].
    exit_step Hi a Hg; [done|]. rewrite get_eq in Hg. injection Hg as <- <-.
    exit_step Hi u6 Hmod. { by apply modify_metadata_Exit in Hi. }
    apply modify_metadata_inserted in Hmod as ->; [|done].
    apply fwrite_end_Exit in Hi as (-> & _ & [Hnw| ->]); [|done].
    cbn [file f_mode] in Hnw. congruence. }
  assert (exists m2 c, s0 = ImgstFile (MkFILE (f_mode (file s)) c) (header s)
                              (<[index := m2]> (metadata s))) as (m2 & c & ->).
  { destruct (res_get (offset m1) RES_ORIG =? 0).
    - step Happend. modify_step Happend.
      apply fwrite_end_Ret in Happend as (_ & _ & c & Hc & ->).
      cbn [file f_data f_mode set_file header metadata]. eauto.
    - injection Happend as _ <-. exists m1, (f_data (file s)). by destruct s as [[? ?] ? ?]. }
  exit_step Hi hw Hres.
  { right. unfold get_resolution in Hi. destruct (vips_jpegload_buffer _); [done|].
    by injection Hi as <- _. }
  exfalso.
  apply get_resolution_Ret in Hres as (-> & image & Himage & ->).
  exit_step Hi v1 Hmod. { by apply modify_metadata_Exit in Hi. }
  apply modify_metadata_inserted in Hmod as ->; [|done].
  exit_step Hi v2 Hmod. { by apply modify_metadata_Exit in Hi. }
  apply modify_metadata_inserted in Hmod as ->; [|done].
  exit_step Hi v3 Hmod. { by apply modify_metadata_Exit in Hi. }
  apply modify_metadata_inserted in Hmod as ->; [|done].
  exit_step Hi v4 Hhd1; [done|]. injection Hhd1 as _ <-.
  exit_step Hi v5 Hhd2; [done|]. injection Hhd2 as _ <-.
  exit_step Hi v6 Hupd.
  { apply updateHeader_Exit in Hi as (_ & _ & Hnw). simpl in Hnw. congruence. }
  apply updateHeader_Ret in Hupd as [_ ->].
  apply updateMetadata_Exit in Hi as [_ [[_ Hle]|[_ Hnw]]]; simpl in *; [lia|congruence].
Qed.

(** X12: on a store in order, an insertion fails for one of four reasons, which
    its error code tells apart: the store is full; a valid slot carries
    the identifier (on its first [MAX_IMG_ID] characters); the content is
    empty; the content is not an image the codec reads. *)
Theorem do_insert_error_causes image_buffer id s e s' :
  store_inv s -> do_insert image_buffer id s = Exit e s' ->
  (e = ERR_FULL_IMGSTORE /\ max_files (header s) <= num_files (header s) /\ s' = s) \/
  (e = ERR_DUPLICATE_ID /\
   exists k mk, metadata s !! k = Some mk /\ valid mk /\
                strncmp id (img_id mk) MAX_IMG_ID = 0) \/
  (e = ERR_IO /\ image_buffer = []) \/
  (e = ERR_IMGLIB /\ vips_jpegload_buffer image_buffer = None).
Proof. apply do_insert_Exit_causes. Qed.

(** X13: on a store in order that is not full, the insertion of a non-empty
    image under an identifier of at most [MAX_IMG_ID] characters that no
    valid slot carries succeeds: it takes the first free slot of the
    table, leaves the others as they were, and counts one image more. *)
Theorem do_insert_succeeds image_buffer id s :
  store_inv s -> num_files (header s) < max_files (header s) ->
  (String.length id <= MAX_IMG_ID)%nat ->
  (forall k mk, metadata s !! k = Some mk -> valid mk ->
                strncmp id (img_id mk) MAX_IMG_ID <> 0) ->
  vips_jpegload_buffer image_buffer <> None -> image_buffer <> [] ->
  exists s' index m0 m',
    do_insert image_buffer id s = Ret tt s' /\
    metadata s !! index = Some m0 /\ is_valid m0 = 0 /\
    (forall k, (k < index)%nat -> exists m, metadata s !! k = Some m /\ valid m) /\
    metadata s' = <[index := m']> (metadata s) /\
    img_id m' = id /\ valid m' /\ SHA m' = SHA256 image_buffer /\
    num_files (header s') = num_files (header s) + 1.
Proof.
  intros Hinv Hroom Hshort Hnew Himage Hne.
  destruct (do_insert image_buffer id s) as [[] s'|e s'|] eqn:Hi.
  - pose proof (store_inv_insert_Ret _ _ _ _ _ Hinv Hi) as [_ Hnum].
    destruct Hinv as (Hok & _).
    apply do_insert_Ret_ok in Hi
      as (index & m0 & image & o & z & appended & hd & slots & heap & _ & Hindex & Hbefore & Hm0 &
          Hz0 & _ & _ & _ & _ & _ & _ & ->); [|done].
    eexists _, index, m0, (inserted_slot image_buffer id image o z m0).
    split_and!; try done. by apply memcpy_img_id_short.
  - exfalso. apply do_insert_Exit_causes in Hi
      as [(_ & Hfull & _)|[(_ & k & mk & Hmk & Hvk & Hs)|[(_ & ->)|(_ & Hnone)]]]; try done.
    + lia.
    + by apply (Hnew k mk).
  - by apply do_insert_not_Stuck in Hi.
Qed.

Lemma do_name_and_content_dedup_fresh index s mi :
  max_files (header s) = Z.of_nat (length (metadata s)) ->
  metadata s !! index = Some mi ->
  (forall k, ~ same_id_at (metadata s) index (img_id mi) k) ->
  (forall k, ~ same_content_at (metadata s) index (SHA mi) k) ->
  do_name_and_content_dedup index s
  = Ret tt (set_metadata
              (<[index := set_offset (res_set (offset mi) RES_ORIG 0) mi]> (metadata s)) s).
Proof.
  intros Hmax Hmi Hnodup Hnoclone.
  pose proof (lookup_lt_Some _ _ _ Hmi) as Hindex.
  destruct (do_name_and_content_dedup index s) as [[] s'|e s'|] eqn:Hd.
  - apply (do_name_and_content_dedup_Ret _ _ _ _ mi Hmi) in Hd
      as (_ & _ & [[_ ->]|(k & mk & _ & Hk & Hmk & Hvk & Hsk & _)]); [done|].
    exfalso. apply (Hnoclone k). split; [done|]. by exists mk.
  - exfalso. unfold do_name_and_content_dedup in Hd.
    exit_step Hd a Hg; [done|]. rewrite get_eq in Hg. injection Hg as <- <-.
    exit_step Hd u5 Hlt. { apply M_EXIT_IF_Exit in Hd as (Hle & _). lia. }
    apply M_EXIT_IF_Ret in Hlt as [_ ->].
    exit_step Hd b Hloop.
    + apply (dedup_loop_Exit_cause _ _ _ _ _ _ _ mi Hmi) in Hd as [k Hk]. by apply (Hnodup k).
    + destruct b; simpl in Hd; [done|]. by apply modify_metadata_Exit in Hd.
  - by apply do_name_and_content_dedup_not_Stuck in Hd.
Qed.

(** X14: the insertion of a content that is not an image, and that the store
    does not hold yet, fails with [ERR_IMGLIB] only after the content has
    been appended to the file: the header and the slot records of the
    file are as before, and the bytes stay behind, referenced by no slot. *)
Theorem do_insert_not_an_image image_buffer id s :
  store_inv s -> num_files (header s) < max_files (header s) ->
  (forall k mk, metadata s !! k = Some mk -> valid mk ->
                strncmp id (img_id mk) MAX_IMG_ID <> 0) ->
  (forall k mk, metadata s !! k = Some mk -> valid mk ->
                shaCompare (SHA256 image_buffer) (SHA mk) <> 0) ->
  image_buffer <> [] -> vips_jpegload_buffer image_buffer = None ->
  exists s',
    do_insert image_buffer id s = Exit ERR_IMGLIB s' /\
    header s' = header s /\ header_of s' = header_of s /\ slots_of s' = slots_of s /\
    heap_of s' = heap_of s ++ image_buffer /\
    is_valid <$> metadata s' = is_valid <$> metadata s.
Proof.
  intros ([Hmax (hd & slots & heap & Hdata & Hlen)] & Hw & _ & Hcount & _) Hroom Hnew Hnoclone
         Hne Hnone.
  destruct (count_valid_free (metadata s)) as (j & mj & Hmj & Hzj); [lia|].
  pose proof (lookup_lt_Some _ _ _ Hmj) as Hj.
  destruct (do_insert_loop_found (Z.to_nat (max_files (header s))) 0 s j mj)
    as (index & m0 & Hloop & _ & Hm0 & Hz0); [lia|done..|].
  pose proof (lookup_lt_Some _ _ _ Hm0) as Hindex.
  set (mi := set_img_id (memcpy_img_id id (SHA256 image_buffer)) (set_SHA (SHA256 image_buffer) m0)).
  set (m1 := set_offset (res_set (offset mi) RES_ORIG 0) mi).
  set (m2 := set_offset (res_set (offset m1) RES_ORIG (file_size (f_data (file s)))) m1).
  exists (ImgstFile (MkFILE (f_mode (file s)) (Image hd slots (heap ++ image_buffer)))
                    (header s) (<[index := m2]> (metadata s))).
  split_and!; cbn [header file metadata f_data]; try reflexivity;
    try (unfold header_of, slots_of, heap_of; cbn [file f_data]; by rewrite Hdata).
  2:{ rewrite list_fmap_insert. apply list_insert_id. by rewrite list_lookup_fmap, Hm0. }
  unfold do_insert. rewrite (bind_Ret_eq _ _ _ _ _ (get_eq s)).
  assert ((max_files (header s) <=? num_files (header s)) = false) as -> by lia.
  rewrite (bind_Ret_eq _ _ _ _ _ (M_EXIT_IF_false _ _)).
  rewrite (bind_Ret_eq _ _ _ _ _ Hloop).
  rewrite (bind_Ret_eq _ _ _ _ _ (modify_metadata_eq _ _ _ _ Hm0)).
  unfold set_metadata. cbn [file header metadata].
  erewrite bind_Ret_eq; cycle 1.
  { apply modify_metadata_eq. cbn [metadata]. by apply list_lookup_insert_eq. }
  unfold set_metadata. cbn [file header metadata]. rewrite list_insert_insert_eq. fold mi.
  erewrite bind_Ret_eq; cycle 1.
  { apply (do_name_and_content_dedup_fresh _ _ mi); cbn [header metadata].
    - by rewrite length_insert.
    - by apply list_lookup_insert_eq.
    - intros k Hk. rewrite same_id_at_insert in Hk.
      change (img_id mi) with (memcpy_img_id id (SHA256 image_buffer)) in Hk.
      rewrite same_id_at_memcpy_img_id in Hk. destruct Hk as (_ & mk & Hmk & Hvk & Hs).
      by apply (Hnew k mk).
    - intros k Hk. rewrite same_content_at_insert in Hk.
      destruct Hk as (_ & mk & Hmk & Hvk & Hs). by apply (Hnoclone k mk). }
  unfold set_metadata. cbn [file header metadata]. rewrite list_insert_insert_eq. fold m1.
  erewrite bind_Ret_eq; cycle 1.
  { apply metadata_at_eq. cbn [metadata]. by apply list_lookup_insert_eq. }
  change (res_get (offset m1) RES_ORIG) with 0. rewrite Z.eqb_refl.
  erewrite bind_Ret_eq; cycle 1.
  { rewrite (bind_Ret_eq _ _ _ _ _ (get_eq _)). cbn [file].
    erewrite bind_Ret_eq; cycle 1.
    { apply modify_metadata_eq. cbn [metadata]. by apply list_lookup_insert_eq. }
    unfold set_metadata. cbn [file header metadata]. rewrite list_insert_insert_eq. fold m2.
    by apply fwrite_end_eq. }
  unfold set_file. cbn [file header metadata f_mode].
  apply bind_Exit_eq. unfold get_resolution. by rewrite Hnone.
Qed.

(** X15: a slot that is taken again keeps what it recorded of the variants of
    the image it held before: when the new content has no copy in the
    store, the insertion, under an identifier of at most [MAX_IMG_ID]
    characters, leaves the thumbnail and small entries of the slot as it
    found them, and a read of such a variant of the new image returns the
    bytes they designate. *)
Theorem do_insert_inherits_variants image_buffer id s s' :
  handle_ok s -> (String.length id <= MAX_IMG_ID)%nat ->
  do_insert image_buffer id s = Ret tt s' ->
  (forall k mk, metadata s !! k = Some mk -> valid mk ->
                shaCompare (SHA256 image_buffer) (SHA mk) <> 0) ->
  exists index m0 m',
    metadata s !! index = Some m0 /\ is_valid m0 = 0 /\ found_at id s' index m' /\
    forall r, r <> RES_ORIG ->
      res_get (offset m') r = res_get (offset m0) r /\
      res_get (size m') r = res_get (size m0) r /\
      forall bs,
        res_get (offset m0) r <> 0 -> readable (f_mode (file s)) = true ->
        read_bytes (res_get (offset m0) r) (res_get (size m0) r) (f_data (file s))
        = Some (Some bs) ->
        do_read id (code_of_resolution r) s' = Ret (bs, res_get (size m0) r) s'.
Proof.
  intros Hok Hshort Hi Hnoclone. pose proof Hok as [Hmax _].
  apply do_insert_Ret_ok in Hi
    as (index & m0 & image & o & z & appended & hd & slots & heap & _ & Hindex & _ & Hm0 &
        Hz0 & Hnodup & _ & _ & Htables & Hdata & Hlen & ->); [|done].
  set (m' := inserted_slot image_buffer id image o z m0) in *.
  assert (img_id m' = id) as Hid' by (by apply memcpy_img_id_short).
  assert (o = res_set (offset m0) RES_ORIG (file_size (f_data (file s))) /\ z = size m0)
    as [-> ->].
  { destruct Htables as [(_ & -> & -> & _)|(k & mk & _ & _ & Hmk & Hvk & Hsk & _)]; [done|].
    by destruct (Hnoclone k mk). }
  assert (found_at id
            (ImgstFile
               (MkFILE (f_mode (file s))
                  (Image (inserted_header (header s)) (<[index := m']> slots) (heap ++ appended)))
               (inserted_header (header s)) (<[index := m']> (metadata s))) index m') as Hfound.
  { unfold found_at. cbn [metadata]. split_and!; [by apply list_lookup_insert_eq|done|done|].
    intros k mk Hk Hmk Hidk Hvk. rewrite list_lookup_insert_ne in Hmk by lia.
    apply (Hnodup k). split; [lia|]. exists mk. split_and!; [done..|].
    rewrite Hidk. apply strncmp_refl. }
  exists index, m0, m'. split_and!; try done.
  intros r Hr.
  assert (res_get (offset m') r = res_get (offset m0) r) as Hoff.
  { change (offset m') with (res_set (offset m0) RES_ORIG (file_size (f_data (file s)))).
    apply res_get_set_ne. congruence. }
  assert (res_get (size m') r = res_get (size m0) r) as Hsize.
  { change (size m') with (res_set (size m0) RES_ORIG (uint32 (Z.of_nat (length image_buffer)))).
    apply res_get_set_ne. congruence. }
  split_and!; try done.
  intros bs Hnz Hreadable Hbs. rewrite <- Hsize.
  apply do_read_cached with index; cbn [file f_mode f_data header metadata]; try done.
  - rewrite length_insert. exact Hmax.
  - congruence.
  - rewrite Hoff, Hsize. rewrite Hdata in Hbs. apply read_bytes_grow with hd slots; [|done].
    by rewrite length_insert.
Qed.

(** ** After a deletion *)

Lemma do_delete_Ret_absent id s u s' :
  unique_ids s -> do_delete id s = Ret u s' -> absent id s'.
Proof.
  intros Huniq Hd.
  apply do_delete_Ret in Hd as (idx & m & c & _ & _ & Hm & Hid & Hv & _ & Hw & _ & ->).
  pose proof (lookup_lt_Some _ _ _ Hm) as Hidx.
  intros k mk Hmk Hvk Hidk. cbn [metadata] in Hmk.
  destruct (decide (k = idx)) as [->|Hne].
  - rewrite list_lookup_insert_eq in Hmk by done. injection Hmk as <-. by destruct Hvk.
  - rewrite list_lookup_insert_ne in Hmk by done.
    apply Hne. apply (Huniq k idx mk m); congruence.
Qed.

(** X16: once an identifier has been deleted from a store whose identifiers
    tell the images apart, it is found no more: reading it and deleting it
    again both fail with [ERR_FILE_NOT_FOUND] and leave the handle as it
    is. *)
Theorem do_delete_then_absent id s s' :
  max_files (header s) = Z.of_nat (length (metadata s)) ->
  unique_ids s -> do_delete id s = Ret tt s' ->
  absent id s' /\
  (forall resolution, resolution_of_code resolution <> None ->
                      do_read id resolution s' = Exit ERR_FILE_NOT_FOUND s') /\
  do_delete id s' = Exit ERR_FILE_NOT_FOUND s'.
Proof.
  intros Hmax Huniq Hd.
  apply do_delete_Ret in Hd as (idx & m & c & _ & _ & Hm & Hid & Hv & _ & Hw & _ & ->).
  pose proof (lookup_lt_Some _ _ _ Hm) as Hidx.
  set (s' := ImgstFile _ _ _).
  assert (max_files (header s') = Z.of_nat (length (metadata s'))) as Hmax'.
  { cbn [s' header metadata]. rewrite length_insert. exact Hmax. }
  assert (absent id s') as Habsent.
  { intros k mk Hmk Hvk Hidk. cbn [s' metadata] in Hmk.
    destruct (decide (k = idx)) as [->|Hne].
    - rewrite list_lookup_insert_eq in Hmk by done. injection Hmk as <-. by destruct Hvk.
    - rewrite list_lookup_insert_ne in Hmk by done.
      apply Hne. apply (Huniq k idx mk m); congruence. }
  split_and!; [done| |].
  - intros resolution Hr. unfold do_read.
    destruct (resolution_of_code resolution) as [r|]; [|done].
    by rewrite (bind_Exit_eq _ _ _ _ _ (findMetadataIndex_absent _ _ Hmax' Habsent)).
  - unfold do_delete. rewrite (bind_Ret_eq _ _ _ _ _ (get_eq s')).
    destruct (num_files (header s') <=? 0).
    { by rewrite (bind_Exit_eq _ _ _ _ _ (M_EXIT_IF_true _ _)). }
    rewrite (bind_Ret_eq _ _ _ _ _ (M_EXIT_IF_false _ _)).
    by rewrite (bind_Exit_eq _ _ _ _ _ (findMetadataIndex_absent _ _ Hmax' Habsent)).
Qed.

(** ** Closing and opening again *)

Lemma valid_slot_handle s k mk :
  mirrored s -> is_valid <$> slots_of s = is_valid <$> metadata s ->
  slots_of s !! k = Some mk -> valid mk -> metadata s !! k = Some mk.
Proof.
  intros (slots & heap & Hdata & Hlen & Hsync) Hfl Hmk Hv.
  unfold slots_of in *. rewrite Hdata in *.
  assert ((is_valid <$> metadata s) !! k = Some (is_valid mk)) as Hk.
  { by rewrite <- Hfl, list_lookup_fmap, Hmk. }
  rewrite list_lookup_fmap in Hk. destruct (metadata s !! k) as [m'|] eqn:Hm'; [|done].
  injection Hk as Hk. assert (valid m') as Hv' by (unfold valid in *; congruence).
  pose proof (Hsync k m' Hm' Hv') as Hs. congruence.
Qed.

Lemma reopen_found s fs name open_mode :
  store_wf s -> max_files (header s) < 2 ^ 32 - 1 ->
  fs_file fs name = Some (f_data (file s)) ->
  open_mode = "rb"%string \/ open_mode = "rb+"%string ->
  exists s',
    do_open fs name open_mode = Some (inr s') /\
    header s' = header s /\ f_data (file s') = f_data (file s) /\
    (forall k m, valid m -> metadata s' !! k = Some m <-> metadata s !! k = Some m) /\
    (open_mode = "rb+"%string -> store_wf s') /\
    (forall id r idx m bs,
       found_at id s idx m -> res_get (offset m) r <> 0 ->
       read_bytes (res_get (offset m) r) (res_get (size m) r) (f_data (file s))
       = Some (Some bs) ->
       do_read id (code_of_resolution r) s' = Ret (bs, res_get (size m) r) s') /\
    max_files (header s') = Z.of_nat (length (metadata s')) /\
    is_valid <$> metadata s' = is_valid <$> metadata s.
Proof.
  intros (Hinv & Hmir & Huniq & Hflags) Hcap Hfile Hmode.
  pose proof Hinv as ([Hmax (hd & slots & heap & Hdata & Hlen)] & Hw & Hrange & Hnum & Hhdr & Hfl).
  pose proof Hhdr as Hhdr'. unfold header_of in Hhdr'. rewrite Hdata in Hhdr'.
  injection Hhdr' as ->.
  pose proof Hfl as Hfl'. unfold slots_of in Hfl'. rewrite Hdata in Hfl'.
  assert (forall k m, valid m -> slots !! k = Some m <-> metadata s !! k = Some m) as Hsame.
  { intros k m Hv. split; intros Hk.
    - apply valid_slot_handle; try done. unfold slots_of. by rewrite Hdata.
    - destruct Hmir as (slots1 & heap1 & Hdata1 & _ & Hsync). rewrite Hdata in Hdata1.
      injection Hdata1 as <- <-. by apply Hsync. }
  assert ((1 + Z.of_nat (Z.to_nat (max_files (header s))) =? uint32 (max_files (header s) + 1))
          = true) as Hcount.
  { rewrite uint32_small by lia. apply Z.eqb_eq. lia. }
  assert (exists mode,
            do_open fs name open_mode
            = Some (inr (ImgstFile (MkFILE mode (Image (header s) slots heap)) (header s) slots))
            /\ readable mode = true /\ (open_mode = "rb+"%string -> mode = RBplus))
    as (mode & Hopen & Hreadable & Hrw).
  { destruct Hmode as [-> | ->]; [exists RB|exists RBplus]; (split; [|done]);
      unfold do_open, fopen.
    - change (strcmp "rb" "rb" =? 0) with true. cbn [negb orb]. rewrite Hfile, Hdata.
      cbn [f_data]. rewrite Hcount, bool_decide_eq_true_2 by lia.
      replace (Z.to_nat (max_files (header s))) with (length slots) by lia.
      by rewrite firstn_all.
    - change (strcmp "rb+" "rb" =? 0) with false. change (strcmp "rb+" "rb+" =? 0) with true.
      cbn [negb orb]. rewrite Hfile, Hdata. cbn [f_data].
      rewrite Hcount, bool_decide_eq_true_2 by lia.
      replace (Z.to_nat (max_files (header s))) with (length slots) by lia.
      by rewrite firstn_all. }
  eexists. split; [exact Hopen|]. cbn [header file metadata f_data].
  split_and!; try done.
  - intros Hplus. rewrite (Hrw Hplus). split_and!.
    + unfold store_inv, handle_ok, header_of, slots_of.
      cbn [header file metadata f_mode f_data]. split_and!; try done; try lia.
      * eexists _, _, _. by split.
      * rewrite Hnum. symmetry. by apply count_valid_flags.
    + exists slots, heap. by cbn [header file metadata f_data].
    + intros i j mi mj Hmi Hmj Hvi Hvj. cbn [metadata] in Hmi, Hmj.
      apply Huniq; try done; by apply Hsame.
    + intros i m Hm. cbn [metadata] in Hm.
      assert ((is_valid <$> metadata s) !! i = Some (is_valid m)) as Hi.
      { by rewrite <- Hfl', list_lookup_fmap, Hm. }
      rewrite list_lookup_fmap in Hi. destruct (metadata s !! i) as [m'|] eqn:Hm'; [|done].
      injection Hi as <-. by eapply Hflags.
  - intros id r idx m bs Hfound Hnz Hbs.
    pose proof Hfound as (Hm & Hid & Hv & Hfirst).
    eapply (do_read_transfer id r idx m bs s _ (header s) slots heap (header s) slots []);
      try done; cbn [header file metadata f_mode f_data]; try done.
    + by rewrite app_nil_r.
    + lia.
    + exists m. split_and!; try done. by apply Hsame.
    + intros k mk Hk Hmk Hidk Hvk. exists mk. split; [|done]. by apply Hsame.
  - lia.
Qed.

(** X17: the file of a store in order opens again, with "rb" or "rb+", to a
    handle with the same header and the same valid slots, on which every
    read that the first handle served from the file returns the same
    bytes; opened with "rb+", the store is again in order. *)
Theorem reopen_serves_the_same s fs name open_mode :
  store_wf s -> max_files (header s) < 2 ^ 32 - 1 ->
  fs_file fs name = Some (f_data (file s)) ->
  open_mode = "rb"%string \/ open_mode = "rb+"%string ->
  exists s',
    do_open fs name open_mode = Some (inr s') /\
    header s' = header s /\ f_data (file s') = f_data (file s) /\
    (forall k m, valid m -> metadata s' !! k = Some m <-> metadata s !! k = Some m) /\
    (open_mode = "rb+"%string -> store_wf s') /\
    (forall id resolution result,
       do_read id resolution s = Ret result s -> do_read id resolution s' = Ret result s').
Proof.
  intros Hwf Hcap Hfile Hmode.
  destruct (reopen_found s fs name open_mode Hwf Hcap Hfile Hmode)
    as (s' & Hopen & Hhd & Hdata & Hslots & Hwf' & Hserve & _).
  exists s'. split_and!; try done.
  intros id resolution [bs image_size] Hread.
  apply do_read_served in Hread as (r & idx & m & -> & Hfound & Hnz & _ & Hbs & Hsize).
  simpl in Hbs, Hsize. subst image_size. by apply Hserve with idx.
Qed.

Lemma do_insert_reopen_read C id s s1 fs name open_mode :
  store_wf s -> originals_ok s -> collision_free C s ->
  (String.length id <= MAX_IMG_ID)%nat ->
  Z.of_nat (length C) < 2 ^ 32 -> max_files (header s) < 2 ^ 32 - 1 ->
  do_insert C id s = Ret tt s1 ->
  fs_file fs name = Some (f_data (file s1)) ->
  open_mode = "rb"%string \/ open_mode = "rb+"%string ->
  exists s2,
    do_open fs name open_mode = Some (inr s2) /\
    do_read id (code_of_resolution RES_ORIG) s2 = Ret (C, Z.of_nat (length C)) s2.
Proof.
  intros Hwf Horig Hfree Hshort Hlen Hcap Hi Hfile Hmode.
  pose proof (store_wf_insert_Ret _ _ _ _ _ Hwf Hi) as Hwf1.
  pose proof Hwf as ((Hok & _) & _).
  apply do_insert_post in Hi
    as (_ & Horig1 & _ & _ & index & m0 & m & o & z & appended & Hm0 & _ & _ & Hnodup &
        Hmd & _ & _ & Hhd & Hid & Hv & _ & _ & Hsize & Hstored); [|done..].
  rewrite memcpy_img_id_short in Hid by done.
  pose proof (lookup_lt_Some _ _ _ Hm0) as Hindex.
  assert (metadata s1 !! index = Some m) as Hm by (rewrite Hmd; by apply list_lookup_insert_eq).
  destruct (reopen_found s1 fs name open_mode Hwf1) as (s2 & Hopen & _ & _ & _ & _ & Hserve & _);
    try done.
  { rewrite Hhd. exact Hcap. }
  exists s2. split; [done|].
  assert (res_get (size m) RES_ORIG = Z.of_nat (length C)) as <-.
  { rewrite Hsize. apply res_get_set_eq. }
  apply Hserve with index; try done.
  - split_and!; try done. intros k mk Hk Hmk Hidk Hvk.
    rewrite Hmd, list_lookup_insert_ne in Hmk by lia.
    apply (Hnodup k). split; [lia|]. exists mk. split_and!; [done..|].
    rewrite Hidk. apply strncmp_refl.
  - by destruct (Horig1 index m Hm Hv) as [Hnz _].
Qed.

(** X18: what is inserted is in the file: after a successful insertion of
    [C], under an identifier of at most [MAX_IMG_ID] characters, on a
    store in order whose originals are in place, the file opens again,
    with "rb" or "rb+", to a handle on which the identifier reads back as
    [C]. *)
Theorem insert_survives_reopen C id s s1 fs name open_mode :
  store_wf s -> originals_ok s -> collision_free C s ->
  (String.length id <= MAX_IMG_ID)%nat ->
  Z.of_nat (length C) < 2 ^ 32 -> max_files (header s) < 2 ^ 32 - 1 ->
  do_insert C id s = Ret tt s1 ->
  fs_file fs name = Some (f_data (file s1)) ->
  open_mode = "rb"%string \/ open_mode = "rb+"%string ->
  exists s2,
    do_open fs name open_mode = Some (inr s2) /\
    do_read id (code_of_resolution RES_ORIG) s2 = Ret (C, Z.of_nat (length C)) s2.
Proof.
  apply do_insert_reopen_read.
Qed.

(** ** Listing *)

Lemma do_list_loop_listing md i fuel :
  (i + fuel = length md)%nat ->
  (forall k m, md !! k = Some m -> is_valid m = EMPTY \/ is_valid m = NON_EMPTY) ->
  do_list_loop md i fuel = Some (listing (drop i md)).
Proof.
  revert i. induction fuel as [|fuel IH]; intros i Hlen Hflags; simpl.
  - by rewrite drop_ge by lia.
  - destruct (lookup_lt_is_Some_2 md i) as [m Hm]; [lia|].
    rewrite Hm. simpl. rewrite IH by (done || lia). simpl.
    rewrite (drop_S md m i Hm). unfold listing. rewrite filter_cons.
    destruct (Hflags i m Hm) as [Hz|Hz]; rewrite Hz.
    + rewrite decide_False by (intros Hv; by apply Hv). done.
    + rewrite decide_True by (unfold valid; rewrite Hz; done). done.
Qed.

(** X19: on a handle whose flags are 0 or 1 and whose header counts the valid
    slots, [do_list] shows the header and then the valid slots, the ones
    a lookup finds, in the order of the table, as many as [num_files]; it
    shows the empty store message exactly when there is none. *)
Theorem do_list_lists_valid s :
  max_files (header s) = Z.of_nat (length (metadata s)) ->
  flags_ok s -> num_files (header s) = count_valid (metadata s) ->
  do_list s = Some (print_header (header s) +:+
                    (if decide (filter valid (metadata s) = [])
                     then "<< empty imgStore >>" +:+ newline
                     else listing (metadata s))) /\
  Z.of_nat (length (filter valid (metadata s))) = num_files (header s).
Proof.
  intros Hmax Hflags Hnum. split; [|by rewrite Hnum].
  unfold do_list. rewrite Hnum. unfold count_valid.
  destruct (decide (filter valid (metadata s) = [])) as [Hnil|Hsome].
  - by rewrite Hnil.
  - assert ((Z.of_nat (length (filter valid (metadata s))) =? 0) = false) as ->.
    { apply Z.eqb_neq. destruct (filter valid (metadata s)); [done|]. simpl. lia. }
    rewrite (do_list_loop_listing _ 0) by (done || lia). done.
Qed.

(** ** What no call does *)

Lemma file_grows_by_run c s s' :
  store_inv s -> run c s = Some s' ->
  exists appended,
    heap_of s' = heap_of s ++ appended /\
    length (slots_of s') = length (slots_of s) /\
    file_size (f_data (file s')) = file_size (f_data (file s)) + Z.of_nat (length appended) /\
    (forall id, c = Delete id -> appended = []).
Proof.
  intros ([Hmax (hd & slots & heap & Hdata & Hlen)] & Hw & _) Hrun.
  assert (forall hd' slots' appended,
            length slots' = length slots ->
            f_data (file s') = Image hd' slots' (heap ++ appended) ->
            heap_of s' = heap_of s ++ appended /\
            length (slots_of s') = length (slots_of s) /\
            file_size (f_data (file s'))
            = file_size (f_data (file s)) + Z.of_nat (length appended)) as Hgrow.
  { intros hd' slots' appended Hlen' Hdata'. unfold heap_of, slots_of.
    rewrite Hdata, Hdata'. unfold file_size, table_end. rewrite Hlen', length_app.
    split_and!; [done..|lia]. }
  assert (s' = s ->
          exists appended,
            heap_of s' = heap_of s ++ appended /\
            length (slots_of s') = length (slots_of s) /\
            file_size (f_data (file s'))
            = file_size (f_data (file s)) + Z.of_nat (length appended) /\
            (forall id, c = Delete id -> appended = [])) as Hsame.
  { intros Hs. exists [].
    destruct (Hgrow hd slots []) as (? & ? & ?); [done|by rewrite Hs, app_nil_r|].
    by split_and!. }
  assert ((forall id, c <> Delete id) -> s' = s \/ materialized s s' ->
          exists appended,
            heap_of s' = heap_of s ++ appended /\
            length (slots_of s') = length (slots_of s) /\
            file_size (f_data (file s'))
            = file_size (f_data (file s)) + Z.of_nat (length appended) /\
            (forall id, c = Delete id -> appended = [])) as Hmat.
  { intros Hc [Hs|(i & mi & ri & variant & _ & _ & _ & _ & _ & hd1 & slots1 & heap1 & Hdata1 & _ &
                   Hs1)]; [by apply Hsame|].
    cbv zeta in Hs1. rewrite Hdata in Hdata1. injection Hdata1 as <- <- <-.
    exists variant. edestruct (Hgrow hd) as (? & ? & ?); [|by rewrite Hs1|].
    - by rewrite length_insert.
    - split_and!; try done. intros id Hid. by destruct (Hc id). }
  destruct c as [image_buffer id'|id'|id' resolution'|res_code i]; simpl in Hrun.
  - destruct (do_insert image_buffer id' s) as [u s1|e s1|] eqn:Hi; simpl in Hrun; [| |done];
      injection Hrun as ->.
    + apply do_insert_Ret_ok in Hi
        as (index & m0 & image & o & z & appended & hd1 & slots1 & heap1 & _ & _ & _ & _ &
            _ & _ & _ & _ & _ & Hdata1 & Hlen1 & ->); [|split; eauto].
      rewrite Hdata in Hdata1. injection Hdata1 as <- <- <-.
      exists appended. edestruct (Hgrow (inserted_header (header s))) as (? & ? & ?);
        [|reflexivity|]; [by rewrite length_insert|]. by split_and!.
    + apply do_insert_Exit_frame in Hi as (_ & _ & Hg & _); [|done..].
      rewrite Hdata in Hg. destruct (f_data (file s')) as [|hd' slots' heap'] eqn:Hdata'; [done|].
      destruct Hg as (-> & -> & appended & ->). exists appended.
      destruct (Hgrow hd slots appended) as (? & ? & ?); [done..|]. by split_and!.
  - destruct (do_delete id' s) as [u s1|e s1|] eqn:Hd; simpl in Hrun; [| |done];
      injection Hrun as ->.
    + apply do_delete_Ret in Hd as (i & mi & c & _ & _ & Hmi & _ & _ & _ & _ & Hc' & ->).
      pose proof (lookup_lt_Some _ _ _ Hmi) as Hi.
      rewrite Hdata in Hc'. simpl in Hc'. rewrite bool_decide_eq_true_2 in Hc' by lia.
      injection Hc' as <-. exists [].
      edestruct (Hgrow (deleted_header (header s)) (<[i := set_is_valid EMPTY mi]> slots) [])
        as (? & ? & ?); [by rewrite length_insert|by rewrite app_nil_r|]. by split_and!.
    + apply do_delete_Exit in Hd as [_ ->]; [|done]. by apply Hsame.
  - apply Hmat; [done|]. by eapply do_read_final.
  - apply Hmat; [done|]. by eapply lazily_resize_final.
Qed.

(** X20: no call takes anything away from the file: the bytes that follow the
    slot table are kept in place, a deletion included, and a call can only
    add bytes after them; the number of slot records does not change. *)
Theorem file_only_grows c s s' :
  store_inv s -> run c s = Some s' ->
  exists appended,
    heap_of s' = heap_of s ++ appended /\
    length (slots_of s') = length (slots_of s) /\
    file_size (f_data (file s')) = file_size (f_data (file s)) + Z.of_nat (length appended) /\
    (forall id, c = Delete id -> appended = []).
Proof.
  apply file_grows_by_run.
Qed.

(** X21: on a store in order, an insertion and a deletion stay inside the slot
    table and the typed regions of the file, whatever their arguments:
    the count kept in the header leaves a free slot whenever the store is
    not full. *)
Theorem calls_stay_in_bounds image_buffer id s :
  store_inv s ->
  run (Insert image_buffer id) s <> None /\ run (Delete id) s <> None.
Proof.
  intros Hinv. simpl. split.
  - pose proof (do_insert_not_Stuck image_buffer id s Hinv).
    by destruct (do_insert image_buffer id s).
  - pose proof (do_delete_not_Stuck id s Hinv). by destruct (do_delete id s).
Qed.


(** ** The commands *)

Lemma filter_valid_eq (l l' : list img_metadata) :
  is_valid <$> l = is_valid <$> l' ->
  (forall k m, valid m -> l !! k = Some m -> l' !! k = Some m) ->
  filter valid l = filter valid l'.
Proof.
  revert l'. induction l as [|a l IH]; intros [|a' l'] Hfl Hsame; try done.
  simpl in Hfl. injection Hfl as Ha Hfl. rewrite !filter_cons.
  destruct (decide (valid a)) as [Hv|Hn].
  - pose proof (Hsame 0%nat a Hv eq_refl) as E. simpl in E. injection E as ->.
    rewrite decide_True by done. f_equal. apply IH; [done|].
    intros k m Hm Hk. apply (Hsame (S k) m Hm Hk).
  - rewrite decide_False by (unfold valid in *; by rewrite <- Ha). apply IH; [done|].
    intros k m Hm Hk. apply (Hsame (S k) m Hm Hk).
Qed.

Lemma do_close_same fs name s :
  fs_file fs name = Some (f_data (file s)) ->
  forall n, fs_file (do_close fs name s) n = fs_file fs n.
Proof.
  intros Hfile n. unfold do_close. cbn [fs_file].
  destruct (String.eqb n name) eqn:E; [|done]. apply String.eqb_eq in E. by subst n.
Qed.

Lemma do_close_other fs name s n : n <> name -> fs_file (do_close fs name s) n = fs_file fs n.
Proof.
  intros Hn. unfold do_close. cbn [fs_file].
  destruct (String.eqb n name) eqn:E; [|done]. by apply String.eqb_eq in E.
Qed.

Lemma do_close_here fs name s : fs_file (do_close fs name s) name = Some (f_data (file s)).
Proof. unfold do_close. cbn [fs_file]. by rewrite String.eqb_refl. Qed.

Lemma do_list_listing s :
  max_files (header s) = Z.of_nat (length (metadata s)) ->
  flags_ok s -> num_files (header s) = count_valid (metadata s) ->
  do_list s = Some (print_header (header s) +:+
                    (if decide (filter valid (metadata s) = [])
                     then "<< empty imgStore >>" +:+ newline
                     else listing (metadata s))).
Proof.
  intros Hmax Hflags Hnum.
  unfold do_list. rewrite Hnum. unfold count_valid.
  destruct (decide (filter valid (metadata s) = [])) as [Hnil|Hsome].
  - by rewrite Hnil.
  - assert ((Z.of_nat (length (filter valid (metadata s))) =? 0) = false) as ->.
    { apply Z.eqb_neq. destruct (filter valid (metadata s)); [done|]. simpl. lia. }
    rewrite (do_list_loop_listing _ 0) by (done || lia). done.
Qed.

Lemma do_delete_absent id s :
  max_files (header s) = Z.of_nat (length (metadata s)) -> absent id s ->
  do_delete id s = Exit ERR_FILE_NOT_FOUND s.
Proof.
  intros Hmax Hno. unfold do_delete. rewrite (bind_Ret_eq _ _ _ _ _ (get_eq s)).
  destruct (num_files (header s) <=? 0) eqn:E.
  { by rewrite (bind_Exit_eq _ _ _ _ _ (M_EXIT_IF_true _ _)). }
  rewrite (bind_Ret_eq _ _ _ _ _ (M_EXIT_IF_false _ _)).
  by rewrite (bind_Exit_eq _ _ _ _ _ (findMetadataIndex_absent _ _ Hmax Hno)).
Qed.

Lemma count_valid_pos (md : list img_metadata) idx m :
  md !! idx = Some m -> valid m -> 0 < count_valid md <= Z.of_nat (length md).
Proof.
  intros Hm Hv. unfold count_valid. pose proof (length_filter valid md) as Hle.
  assert (m ∈ filter valid md) as Hin.
  { apply list_elem_of_filter. split; [done|]. by eapply list_elem_of_lookup_2. }
  destruct (filter valid md); [by apply elem_of_nil in Hin|]. simpl in *. lia.
Qed.

(** The slots a store in order and its file opened again have in common. *)
Lemma found_at_same s s' id idx m :
  (forall k m, valid m -> metadata s' !! k = Some m <-> metadata s !! k = Some m) ->
  found_at id s idx m -> found_at id s' idx m.
Proof.
  intros Hslots (Hm & Hid & Hv & Hfirst). split_and!; try done; [by apply Hslots|].
  intros k mk Hk Hmk Hidk Hvk. apply (Hfirst k mk); try done. by apply Hslots.
Qed.

Lemma absent_same s s' id :
  (forall k m, valid m -> metadata s' !! k = Some m <-> metadata s !! k = Some m) ->
  absent id s -> absent id s'.
Proof. intros Hslots Hno k m Hm Hv. apply (Hno k m); [by apply Hslots|done]. Qed.

Lemma originals_ok_same s s' :
  (forall k m, valid m -> metadata s' !! k = Some m <-> metadata s !! k = Some m) ->
  f_data (file s') = f_data (file s) ->
  originals_ok s -> originals_ok s'.
Proof.
  intros Hslots Hdata Hok k m Hm Hv. unfold stored_original. rewrite Hdata.
  apply (Hok k m); [by apply Hslots|done].
Qed.

Lemma collision_free_same C s s' :
  (forall k m, valid m -> metadata s' !! k = Some m <-> metadata s !! k = Some m) ->
  f_data (file s') = f_data (file s) ->
  collision_free C s -> collision_free C s'.
Proof.
  intros Hslots Hdata Hfree k m bs Hm Hv. unfold stored_original. rewrite Hdata.
  apply (Hfree k m bs); [by apply Hslots|done].
Qed.

Lemma do_list_cmd_opened args argv fs filename s :
  MIN_LIST_ARGS <= args -> argv !! 1%nat = Some filename ->
  store_wf s -> max_files (header s) < 2 ^ 32 - 1 ->
  fs_file fs filename = Some (f_data (file s)) ->
  exists fs',
    do_list_cmd args argv fs
    = Some (ERR_NONE, fs',
            print_header (header s) +:+
            (if decide (filter valid (metadata s) = [])
             then "<< empty imgStore >>" +:+ newline
             else listing (metadata s))) /\
    (forall n, fs_file fs' n = fs_file fs n) /\ fs_creatable fs' = fs_creatable fs.
Proof.
  intros Hargs Hname Hwf Hcap Hfile.
  destruct (reopen_found s fs filename "rb" Hwf Hcap Hfile)
    as (s' & Hopen & Hhd & Hdata & Hslots & _ & _ & Hmax & Hfl); [by left|].
  pose proof Hwf as (Hinv & _ & _ & Hflags).
  pose proof Hinv as (_ & _ & _ & Hnum & _).
  assert (filter valid (metadata s') = filter valid (metadata s)) as Hfilter.
  { apply filter_valid_eq; [done|]. intros k m Hv Hm. by apply Hslots. }
  exists (do_close fs filename s'). split_and!.
  - unfold do_list_cmd. assert ((args <? MIN_LIST_ARGS) = false) as -> by lia.
    rewrite Hname. cbn [mbind option_bind]. rewrite Hopen. cbn [mbind option_bind].
    rewrite do_list_listing; try done.
    + cbn [mbind option_bind]. unfold listing. by rewrite Hhd, Hfilter.
    + intros i m Hm.
      assert ((is_valid <$> metadata s) !! i = Some (is_valid m)) as Hi.
      { by rewrite <- Hfl, list_lookup_fmap, Hm. }
      rewrite list_lookup_fmap in Hi. destruct (metadata s !! i) as [m'|] eqn:Hm'; [|done].
      injection Hi as <-. by eapply Hflags.
    + rewrite Hhd, Hnum. unfold count_valid. by rewrite Hfilter.
  - apply do_close_same. by rewrite Hdata.
  - done.
Qed.

(** X22: [do_list_cmd] on the file of a store in order returns [ERR_NONE],
    shows the header and then each valid slot in the order of the table,
    or the mention of an empty store, and leaves every file as it is. *)
Theorem do_list_cmd_lists args argv fs filename s :
  MIN_LIST_ARGS <= args -> argv !! 1%nat = Some filename ->
  store_wf s -> max_files (header s) < 2 ^ 32 - 1 ->
  fs_file fs filename = Some (f_data (file s)) ->
  exists fs',
    do_list_cmd args argv fs
    = Some (ERR_NONE, fs',
            print_header (header s) +:+
            (if decide (filter valid (metadata s) = [])
             then "<< empty imgStore >>" +:+ newline
             else listing (metadata s))) /\
    (forall n, fs_file fs' n = fs_file fs n) /\ fs_creatable fs' = fs_creatable fs.
Proof.
  apply do_list_cmd_opened.
Qed.

(** X23: [do_delete_cmd] on the file of a store in order, with an identifier of
    1 to [MAX_IMG_ID] characters.  If no valid slot carries the
    identifier, the command returns [ERR_FILE_NOT_FOUND] and every file
    is as it was.  Otherwise it returns [ERR_NONE], only the file of the
    store has changed, and this file opens again to a store in order that
    counts one image less, where the identifier is no more, and where
    every read of another identifier that was served is served as
    before. *)
Theorem do_delete_cmd_deletes args argv fs filename id s :
  MIN_DELETE_ARGS <= args ->
  argv !! 1%nat = Some filename -> argv !! 2%nat = Some id ->
  invalid_img_id id = false ->
  store_wf s -> max_files (header s) < 2 ^ 32 - 1 ->
  fs_file fs filename = Some (f_data (file s)) ->
  (absent id s ->
   exists fs',
     do_delete_cmd args argv fs = Some (ERR_FILE_NOT_FOUND, fs') /\
     forall n, fs_file fs' n = fs_file fs n) /\
  (~ absent id s ->
   exists fs' s',
     do_delete_cmd args argv fs = Some (ERR_NONE, fs') /\
     (forall n, n <> filename -> fs_file fs' n = fs_file fs n) /\
     do_open fs' filename "rb+" = Some (inr s') /\ store_wf s' /\
     absent id s' /\ num_files (header s') = num_files (header s) - 1 /\
     forall id' resolution result,
       id' <> id -> do_read id' resolution s = Ret result s ->
       do_read id' resolution s' = Ret result s').
Proof.
  intros Hargs Hname Hid Hvalid Hwf Hcap Hfile.
  destruct (reopen_found s fs filename "rb+" Hwf Hcap Hfile)
    as (s0 & Hopen & Hhd & Hdata & Hslots & Hwf0 & Hserve & Hmax0 & Hfl); [by right|].
  specialize (Hwf0 eq_refl).
  assert (do_delete_cmd args argv fs
                    = match do_delete id s0 with
                      | Ret _ s1 => Some (ERR_NONE, do_close fs filename s1)
                      | Exit e s1 => Some (e, do_close fs filename s1)
                      | Stuck => None
                      end) as Hcmd.
  { unfold do_delete_cmd. assert ((args <? MIN_DELETE_ARGS) = false) as -> by lia.
    rewrite Hname. cbn [mbind option_bind]. rewrite Hid. cbn [mbind option_bind].
    rewrite Hvalid, Hopen. done. }
  split.
  - intros Hno. exists (do_close fs filename s0).
    rewrite Hcmd, (do_delete_absent id s0 Hmax0) by (by apply (absent_same s)).
    split; [done|]. apply do_close_same. by rewrite Hdata.
  - intros Hsome.
    pose proof Hwf as (([Hmax _] & _) & _).
    destruct (found_or_absent id s Hmax) as [|(idx & m & Hfound)]; [done|].
    pose proof (found_at_same s s0 id idx m Hslots Hfound) as (Hm0 & Hid0 & Hv0 & Hfirst0).
    pose proof Hwf0 as (Hinv0 & _ & Huniq0 & _).
    pose proof Hinv0 as (Hok0 & Hw0 & Hrange0 & Hnum0 & _).
    pose proof (count_valid_pos _ _ _ Hm0 Hv0) as Hcount.
    destruct (do_delete_found id s0 idx m) as (s1 & Hd); try done; [lia|].
    pose proof (store_wf_delete_Ret _ _ _ _ Hwf0 Hd) as Hwf1.
    pose proof (do_delete_Ret_absent _ _ _ _ Huniq0 Hd) as Hno1.
    assert (header s1 = deleted_header (header s0)) as Hhd1.
    { apply do_delete_Ret in Hd as (i & mi & c & _ & _ & _ & _ & _ & _ & _ & _ & ->). done. }
    destruct (reopen_found s1 (do_close fs filename s1) filename "rb+" Hwf1)
      as (s' & Hopen' & Hhd' & Hdata' & Hslots' & Hwf' & Hserve' & _);
      [rewrite Hhd1; change (max_files (deleted_header ?h)) with (max_files h); by rewrite Hhd
      |apply do_close_here|by right|].
    exists (do_close fs filename s1), s'. rewrite Hcmd, Hd. split_and!; try done.
    + intros n Hn. by apply do_close_other.
    + by apply Hwf'.
    + by apply (absent_same s1).
    + rewrite Hhd', Hhd1.
      change (num_files (deleted_header ?h)) with (uint32 (num_files h - 1)).
      rewrite Hhd in *. apply uint32_small. lia.
    + intros id' resolution [bs image_size] Hne Hread.
      apply do_read_served in Hread as (r & i & mi & -> & Hfi & Hnz & _ & Hbs & Hsize).
      simpl in Hbs, Hsize. subst image_size.
      pose proof (Hserve id' r i mi bs Hfi Hnz Hbs) as Hread0.
      assert (do_read id' (code_of_resolution r) s1 = Ret (bs, res_get (size mi) r) s1) as Hread1.
      { apply (do_read_after_run (Delete id) s0); try done; [simpl; by rewrite Hd|congruence]. }
      apply do_read_served in Hread1 as (r1 & i1 & mi1 & Hr1 & Hfi1 & Hnz1 & _ & Hbs1 & Hsize1).
      assert (r1 = r) as -> by (by destruct r, r1). simpl in Hbs1, Hsize1. rewrite Hsize1.
      by apply (Hserve' id' r i1 mi1 bs).
Qed.

Lemma invalid_img_id_false id :
  invalid_img_id id = false -> (String.length id <= MAX_IMG_ID)%nat.
Proof.
  unfold invalid_img_id. intros Hid. apply orb_false_iff in Hid as [_ Hlong].
  by apply Nat.ltb_ge in Hlong.
Qed.

Lemma resolution_atoi_of_name name r :
  name ∈ names_of r -> resolution_atoi name = code_of_resolution r.
Proof.
  destruct r; simpl; rewrite ?elem_of_cons, elem_of_nil; intros Hn;
    repeat (destruct Hn as [->|Hn]; [by vm_compute|]); done.
Qed.

Lemma do_read_cmd_opened args argv fs store id r s0 :
  asks_for args argv r ->
  argv !! 1%nat = Some store -> argv !! 2%nat = Some id -> invalid_img_id id = false ->
  do_open fs store "rb+" = Some (inr s0) ->
  do_read_cmd args argv fs
  = match do_read id (code_of_resolution r) s0 with
    | Stuck => None
    | Exit e s1 => Some (e, do_close fs store s1, None)
    | Ret (image_buffer, image_size) s1 =>
        if String.eqb (name_of_image id r) store then None
        else if fs_creatable fs (name_of_image id r)
        then Some (ERR_NONE, do_close fs store s1,
                   Some (name_of_image id r, take (Z.to_nat image_size) image_buffer))
        else None
    end.
Proof.
  intros Hasks Hstore Hid Hvalid Hopen. unfold do_read_cmd.
  assert ((args <? MIN_READ_ARGS) = false) as ->.
  { destruct Hasks as [[-> _]|[Hlt _]]; [done|lia]. }
  rewrite Hstore. cbn [mbind option_bind]. rewrite Hid. cbn [mbind option_bind].
  rewrite Hvalid.
  assert ((if MIN_READ_ARGS + 1 <=? args then resolution_atoi <$> argv !! 3%nat
           else Some (code_of_resolution RES_ORIG)) = Some (code_of_resolution r)) as ->.
  { destruct Hasks as [[-> ->]|(Hlt & name & Hname & Hin)]; [done|].
    assert ((MIN_READ_ARGS + 1 <=? args) = true) as -> by lia.
    rewrite Hname. simpl. by rewrite (resolution_atoi_of_name name r). }
  cbn [mbind option_bind].
  assert ((code_of_resolution r =? NOT_RES) = false) as -> by (by destruct r).
  rewrite Hopen. cbn [mbind option_bind].
  destruct (do_read id (code_of_resolution r) s0) as [[image_buffer image_size] s1|e s1|]; try done.
  by rewrite create_name_inr.
Qed.

(** X24: an image file put in a store by [do_insert_cmd] comes back from
    [do_read_cmd].  On the file of a store in order with room left, whose
    originals are in place, the insertion of a file of bytes [C] that the
    codec reads, under an identifier of 1 to [MAX_IMG_ID] characters that
    no valid slot carries, returns [ERR_NONE] and changes only the file
    of the store; a [read] of the original then returns [ERR_NONE] and
    writes the file named after the identifier, with the bytes [C], the
    store being left as it is. *)
Theorem do_insert_cmd_then_do_read_cmd
    args_i argv_i args_r argv_r fs images store id filename C s :
  MIN_INSERT_ARGS <= args_i ->
  argv_i !! 1%nat = Some store -> argv_i !! 2%nat = Some id ->
  argv_i !! 3%nat = Some filename ->
  asks_for args_r argv_r RES_ORIG ->
  argv_r !! 1%nat = Some store -> argv_r !! 2%nat = Some id ->
  invalid_img_id id = false ->
  images filename = Some C -> C <> [] -> Z.of_nat (length C) < 2 ^ 32 ->
  vips_jpegload_buffer C <> None ->
  store_wf s -> originals_ok s -> collision_free C s ->
  max_files (header s) < 2 ^ 32 - 1 -> num_files (header s) < max_files (header s) ->
  (forall k mk, metadata s !! k = Some mk -> valid mk ->
                strncmp id (img_id mk) MAX_IMG_ID <> 0) ->
  fs_file fs store = Some (f_data (file s)) ->
  fs_creatable fs (name_of_image id RES_ORIG) = true ->
  name_of_image id RES_ORIG <> store ->
  exists fs1 fs2,
    do_insert_cmd args_i argv_i fs images = Some (ERR_NONE, fs1) /\
    (forall n, n <> store -> fs_file fs1 n = fs_file fs n) /\
    do_read_cmd args_r argv_r fs1
    = Some (ERR_NONE, fs2, Some (name_of_image id RES_ORIG, C)) /\
    (forall n, fs_file fs2 n = fs_file fs1 n).
Proof.
  intros Hargs Hstore Hid Hfilename Hasks Hstore' Hid' Hvalid Himage Hne Hlen Hcodec
         Hwf Horig Hfree Hcap Hroom Hnew Hfile Hcreate Hother.
  destruct (reopen_found s fs store "rb+" Hwf Hcap Hfile)
    as (s0 & Hopen & Hhd & Hdata & Hslots & Hwf0 & _ & Hmax0 & _); [by right|].
  specialize (Hwf0 eq_refl). pose proof Hwf0 as (Hinv0 & _).
  assert (exists s1, do_insert C id s0 = Ret tt s1) as (s1 & Hi).
  { destruct (do_insert C id s0) as [[] s1|e s1|] eqn:Hi.
    - by exists s1.
    - exfalso. apply do_insert_Exit_causes in Hi
        as [(_ & Hfull & _)|[(_ & k & mk & Hmk & Hvk & Hs)|[(_ & ->)|(_ & Hnone)]]]; try done.
      + rewrite Hhd in Hfull. lia.
      + apply (Hnew k mk); try done. by apply Hslots.
    - by apply do_insert_not_Stuck in Hi. }
  pose proof (store_wf_insert_Ret _ _ _ _ _ Hwf0 Hi) as Hwf1.
  destruct (do_insert_reopen_read C id s0 s1 (do_close fs store s1) store "rb+")
    as (s2 & Hopen2 & Hread2); try done.
  { by apply (originals_ok_same s). }
  { by apply (collision_free_same C s). }
  { by apply invalid_img_id_false. }
  { by rewrite Hhd. }
  { apply do_close_here. }
  { by right. }
  assert (f_data (file s2) = f_data (file s1)) as Hdata2.
  { by rewrite (do_open_file _ _ _ _ _ (do_close_here fs store s1) Hopen2). }
  exists (do_close fs store s1), (do_close (do_close fs store s1) store s2). split_and!.
  - unfold do_insert_cmd. assert ((args_i <? MIN_INSERT_ARGS) = false) as -> by lia.
    rewrite Hstore. cbn [mbind option_bind]. rewrite Hid. cbn [mbind option_bind].
    rewrite Hvalid, Hfilename. cbn [mbind option_bind]. rewrite Hopen. cbn [mbind option_bind].
    assert ((max_files (header s0) <=? num_files (header s0)) = false) as ->.
    { rewrite Hhd. lia. }
    rewrite Himage, Hi. by destruct C.
  - intros n Hn. by apply do_close_other.
  - rewrite (do_read_cmd_opened args_r argv_r _ store id RES_ORIG s2); try done.
    rewrite Hread2.
    assert (String.eqb (name_of_image id RES_ORIG) store = false) as ->.
    { by apply String.eqb_neq. }
    cbn [do_close fs_creatable]. rewrite Hcreate, Nat2Z.id. by rewrite firstn_all.
  - apply do_close_same. by rewrite do_close_here, Hdata2.
Qed.

(** X25: a variant asked for on the command line is made once.  On the file of
    a store in order where the variant [r] of the image is not recorded
    yet, [do_read_cmd] returns [ERR_NONE], writes the file named after
    the identifier and the resolution with the resized bytes, and leaves
    the store longer by these bytes; the same command run again writes
    the same bytes and leaves the store as it is. *)
Theorem do_read_cmd_variant_once args argv fs store id r s idx m original variant :
  asks_for args argv r -> r <> RES_ORIG ->
  argv !! 1%nat = Some store -> argv !! 2%nat = Some id -> invalid_img_id id = false ->
  store_wf s -> max_files (header s) < 2 ^ 32 - 1 ->
  fs_file fs store = Some (f_data (file s)) ->
  found_at id s idx m -> res_get (offset m) r = 0 ->
  stored_original s m = Some (Some original) ->
  resized_variant (header s) (code_of_resolution r) original = Some variant ->
  variant <> [] -> Z.of_nat (length variant) < 2 ^ 32 ->
  fs_creatable fs (name_of_image id r) = true -> name_of_image id r <> store ->
  exists fs1 fs2 c1,
    do_read_cmd args argv fs = Some (ERR_NONE, fs1, Some (name_of_image id r, variant)) /\
    fs_file fs1 store = Some c1 /\
    file_size c1 = file_size (f_data (file s)) + Z.of_nat (length variant) /\
    (forall n, n <> store -> fs_file fs1 n = fs_file fs n) /\
    do_read_cmd args argv fs1 = Some (ERR_NONE, fs2, Some (name_of_image id r, variant)) /\
    (forall n, fs_file fs2 n = fs_file fs1 n).
Proof.
  intros Hasks Hr Hstore Hid Hvalid Hwf Hcap Hfile Hfound Hz Horig Hvar Hne Hlen Hcreate Hother.
  destruct (reopen_found s fs store "rb+" Hwf Hcap Hfile)
    as (s0 & Hopen & Hhd & Hdata & Hslots & Hwf0 & _ & Hmax0 & _); [by right|].
  specialize (Hwf0 eq_refl). pose proof Hwf0 as ((Hok0 & _) & _).
  pose proof (found_at_same s s0 id idx m Hslots Hfound) as Hfound0.
  assert (f_mode (file s0) = RBplus) as Hmode0.
  { by rewrite (do_open_file _ _ _ _ _ Hfile Hopen). }
  destruct (do_read_materialize id r s0 idx m original variant)
    as (s1 & Hread & Hmat & Hhd1 & _); try done.
  { unfold stored_original. by rewrite Hdata. }
  { by rewrite Hhd. }
  assert (store_wf s1) as Hwf1.
  { apply (store_wf_materialized s0); [done|]. by exists idx, m, r, variant. }
  destruct Hmat as (Hm0 & Hv0 & _ & _ & _ & hd & slots & heap & Hdata0 & Hidx & Hs1).
  cbv zeta in Hs1.
  set (mm := materialized_slot r (file_size (f_data (file s0))) (Z.of_nat (length variant)) m)
    in *.
  assert (f_data (file s1) = Image hd (<[idx := mm]> slots) (heap ++ variant)) as Hdata1
    by (by rewrite Hs1).
  assert (metadata s1 = <[idx := mm]> (metadata s0)) as Hmd1 by (by rewrite Hs1).
  pose proof (lookup_lt_Some _ _ _ Hm0) as Hidx0.
  assert (res_get (size mm) r = Z.of_nat (length variant)) as Hsize.
  { subst mm. change (size (materialized_slot r ?off ?len m)) with (res_set (size m) r (uint32 len)).
    rewrite res_get_set_eq. apply uint32_small. lia. }
  assert (res_get (offset mm) r = file_size (f_data (file s0))) as Hoff.
  { subst mm. change (offset (materialized_slot r ?off ?len m)) with (res_set (offset m) r off).
    by rewrite res_get_set_eq. }
  destruct (reopen_found s1 (do_close fs store s1) store "rb+" Hwf1)
    as (s2 & Hopen2 & _ & Hdata2 & _ & _ & Hserve2 & _);
    [by rewrite Hhd1, Hhd|apply do_close_here|by right|].
  assert (do_read id (code_of_resolution r) s2 = Ret (variant, Z.of_nat (length variant)) s2)
    as Hread2.
  { rewrite <- Hsize. apply Hserve2 with idx.
    - destruct Hfound0 as (_ & Hid0 & _ & Hfirst0). split_and!; try done.
      + rewrite Hmd1. by apply list_lookup_insert_eq.
      + intros k mk Hk Hmk Hidk. rewrite Hmd1, list_lookup_insert_ne in Hmk by lia.
        by apply (Hfirst0 k mk).
    - rewrite Hoff, Hdata0. unfold file_size, table_end, sizeof_imgst_header, sizeof_img_metadata.
      lia.
    - rewrite Hoff, Hsize, Hdata0, Hdata1. apply read_bytes_appended; [|done].
      by rewrite length_insert. }
  exists (do_close fs store s1), (do_close (do_close fs store s1) store s2), (f_data (file s1)).
  assert (String.eqb (name_of_image id r) store = false) as Heqb by (by apply String.eqb_neq).
  split_and!.
  - rewrite (do_read_cmd_opened args argv fs store id r s0); try done.
    rewrite Hread, Heqb, Hcreate, Nat2Z.id. by rewrite firstn_all.
  - apply do_close_here.
  - rewrite Hdata1, <- Hdata, Hdata0. unfold file_size, table_end.
    rewrite length_insert, length_app. lia.
  - intros n Hn. by apply do_close_other.
  - rewrite (do_read_cmd_opened args argv _ store id r s2); try done.
    rewrite Hread2, Heqb. cbn [do_close fs_creatable]. rewrite Hcreate, Nat2Z.id.
    by rewrite firstn_all.
  - apply do_close_same. by rewrite do_close_here, Hdata2.
Qed.

Lemma holds_store_same fs fs' store :
  fs_file fs' store = fs_file fs store -> holds_store fs store -> holds_store fs' store.
Proof. intros Hsame (s & Hfile & Hwf & Hcap). exists s. by rewrite Hsame. Qed.

Lemma holds_store_after c s0 s1 fs store :
  store_wf s0 -> max_files (header s0) < 2 ^ 32 - 1 -> run c s0 = Some s1 ->
  holds_store (do_close fs store s1) store.
Proof.
  intros Hwf0 Hcap Hrun. pose proof (store_wf_after_run c s0 s1 Hwf0 Hrun) as Hwf1.
  exists s1. split_and!; [apply do_close_here|done|].
  pose proof Hwf0 as (Hinv0 & _).
  destruct (file_grows_by_run c s0 s1 Hinv0 Hrun) as (appended & _ & Hlen & _).
  assert (forall s, store_wf s -> max_files (header s) = Z.of_nat (length (slots_of s))) as Hmax.
  { intros s (([Hmax (hd & slots & heap & Hdata & Hl)] & _) & _).
    unfold slots_of. rewrite Hdata, Hl. exact Hmax. }
  rewrite (Hmax s1 Hwf1), Hlen, <- (Hmax s0 Hwf0). exact Hcap.
Qed.

(** X26: whatever a command returns, the store it was given is left in order.
    On the file of a store in order, [do_list_cmd] and [do_delete_cmd]
    return a code, whatever their arguments, and so do [do_read_cmd] and
    [do_insert_cmd] unless they leave the model; in every case the file
    is again the file of a store in order, the next command can open. *)
Theorem commands_keep_store args argv fs store :
  args <= Z.of_nat (length argv) -> argv !! 1%nat = Some store ->
  holds_store fs store ->
  (exists e fs' out,
     do_list_cmd args argv fs = Some (e, fs', out) /\ holds_store fs' store) /\
  (exists e fs', do_delete_cmd args argv fs = Some (e, fs') /\ holds_store fs' store) /\
  (forall e fs' written,
     do_read_cmd args argv fs = Some (e, fs', written) -> holds_store fs' store) /\
  (forall images e fs',
     do_insert_cmd args argv fs images = Some (e, fs') -> holds_store fs' store).
Proof.
  intros Hlen Hstore Hholds. pose proof Hholds as (s & Hfile & Hwf & Hcap).
  destruct (reopen_found s fs store "rb+" Hwf Hcap Hfile)
    as (s0 & Hopen & Hhd & Hdata & _ & Hwf0 & _); [by right|].
  specialize (Hwf0 eq_refl). pose proof Hwf0 as (Hinv0 & _).
  assert (max_files (header s0) < 2 ^ 32 - 1) as Hcap0 by (by rewrite Hhd).
  assert (holds_store (do_close fs store s0) store) as Hclosed.
  { apply (holds_store_same fs); [|done]. apply do_close_same. by rewrite Hdata. }
  split_and!.
  - destruct (args <? MIN_LIST_ARGS) eqn:Hargs.
    { eexists _, fs, _. unfold do_list_cmd. by rewrite Hargs. }
    destruct (do_list_cmd_opened args argv fs store s) as (fs' & Hcmd & Hsame & _);
      try done; [lia|].
    eexists _, fs', _. split; [done|]. by apply (holds_store_same fs).
  - unfold do_delete_cmd. destruct (args <? MIN_DELETE_ARGS) eqn:Hargs; [by eexists _, _|].
    rewrite Hstore. cbn [mbind option_bind].
    destruct (lookup_lt_is_Some_2 argv 2) as [id ->]; [unfold MIN_DELETE_ARGS in *; lia|].
    cbn [mbind option_bind]. destruct (invalid_img_id id); [by eexists _, _|].
    rewrite Hopen. cbn [mbind option_bind].
    pose proof (do_delete_not_Stuck id s0 Hinv0) as Hprogress.
    destruct (do_delete id s0) as [u s1|e s1|] eqn:Hd; [| |done]; eexists _, _;
      (split; [done|]); apply (holds_store_after (Delete id) s0); try done;
      simpl; by rewrite Hd.
  - intros e fs' written. unfold do_read_cmd.
    destruct (args <? MIN_READ_ARGS); [by intros [= <- <- <-]|].
    rewrite Hstore. cbn [mbind option_bind].
    destruct (argv !! 2%nat) as [id|]; [|done]. cbn [mbind option_bind].
    destruct (invalid_img_id id); [by intros [= <- <- <-]|].
    destruct (if MIN_READ_ARGS + 1 <=? args then _ else _) as [resolution|]; [|done].
    cbn [mbind option_bind]. destruct (resolution =? NOT_RES); [by intros [= <- <- <-]|].
    rewrite Hopen. cbn [mbind option_bind].
    destruct (do_read id resolution s0) as [[image_buffer image_size] s1|e1 s1|] eqn:Hr;
      [| |done].
    + assert (holds_store (do_close fs store s1) store) as Hafter.
      { apply (holds_store_after (Read id resolution) s0); try done. simpl. by rewrite Hr. }
      destruct (create_name id resolution) as [e1|new_name]; [by intros [= <- <- <-]|].
      destruct (String.eqb new_name store); [done|].
      destruct (fs_creatable fs new_name); [|done]. by intros [= <- <- <-].
    + intros [= <- <- <-].
      apply (holds_store_after (Read id resolution) s0); try done. simpl. by rewrite Hr.
  - intros images e fs'. unfold do_insert_cmd.
    destruct (args <? MIN_INSERT_ARGS); [by intros [= <- <-]|].
    rewrite Hstore. cbn [mbind option_bind].
    destruct (argv !! 2%nat) as [id|]; [|done]. cbn [mbind option_bind].
    destruct (invalid_img_id id); [by intros [= <- <-]|].
    destruct (argv !! 3%nat) as [filename|]; [|done]. cbn [mbind option_bind].
    rewrite Hopen. cbn [mbind option_bind].
    destruct (max_files (header s0) <=? num_files (header s0)); [by intros [= <- <-]|].
    destruct (images filename) as [[|b image_buffer]|]; [done| |by intros [= <- <-]].
    destruct (do_insert (b :: image_buffer) id s0) as [u s1|e1 s1|] eqn:Hi; [| |done];
      intros [= <- <-]; apply (holds_store_after (Insert (b :: image_buffer) id) s0); try done;
      simpl; by rewrite Hi.
Qed.

End MoreProofs.

(** * The theorems on the small stores *)

Section Instances.
#[local] Existing Instance small_external.

Lemma metadata_store2 : metadata store2 = [zero_metadata; zero_metadata].
Proof. vm_compute. reflexivity. Qed.

Lemma handle_ok_store2 : handle_ok store2.
Proof.
  split; [vm_compute; reflexivity|].
  exists (header store2), (slots_of store2), (heap_of store2).
  split; vm_compute; reflexivity.
Qed.

Lemma originals_ok_store2 : originals_ok store2.
Proof.
  intros i m Hm Hv. exfalso. rewrite metadata_store2 in Hm.
  destruct i as [|[|i]]; simpl in Hm; try discriminate;
    injection Hm as <-; apply Hv; reflexivity.
Qed.

Lemma collision_free_store2 C : collision_free C store2.
Proof.
  intros i m bs Hm Hv. exfalso. rewrite metadata_store2 in Hm.
  destruct i as [|[|i]]; simpl in Hm; try discriminate;
    injection Hm as <-; apply Hv; reflexivity.
Qed.

Lemma do_insert_store2 : do_insert image_a "a" store2 = Ret tt store2_a.
Proof. vm_compute. reflexivity. Qed.

Lemma do_insert_store2_a : do_insert image_a "b" store2_a = Ret tt store2_ab.
Proof. vm_compute. reflexivity. Qed.

Lemma do_delete_store2_ab : do_delete "a" store2_ab = Ret tt store2_b.
Proof. vm_compute. reflexivity. Qed.





Lemma do_insert_duplicate_id_witness :
  exists s' index m0 m',
    do_insert image_b "a" store2_a = Exit ERR_DUPLICATE_ID s' /\
    file s' = file store2_a /\ header s' = header store2_a /\
    metadata store2_a !! index = Some m0 /\ is_valid m0 = 0 /\
    metadata s' = <[index := m']> (metadata store2_a) /\ is_valid m' = 0.
Proof.
  assert (exists mk, metadata store2_a !! 0%nat = Some mk /\ valid mk /\ img_id mk = "a"%string)
    as (mk & Hmk & Hvk & Hid).
  { eexists. split; [vm_compute; reflexivity|]. split; [|reflexivity].
    unfold valid. vm_compute. discriminate. }
  apply (do_insert_duplicate_id image_b "a" store2_a 0 mk 1 zero_metadata).
  - vm_compute. reflexivity.
  - vm_compute. reflexivity.
  - vm_compute. reflexivity.
  - reflexivity.
  - exact Hmk.
  - exact Hvk.
  - exact Hid.
Defined.

(** C3 as stated fails: the refused insertion has written the new
    identifier and digest into the free slot of the handle. *)
Lemma do_insert_duplicate_id_overwrites_free_slot :
  exists s',
    do_insert image_b "a" store2_a = Exit ERR_DUPLICATE_ID s' /\
    metadata store2_a !! 1%nat = Some zero_metadata /\
    metadata s' !! 1%nat = Some (set_img_id "a" (set_SHA (SHA256 image_b) zero_metadata)) /\
    metadata s' <> metadata store2_a.
Proof.
  eexists. split; [vm_compute; reflexivity|].
  split; [vm_compute; reflexivity|].
  split; [vm_compute; reflexivity|].
  vm_compute. discriminate.
Qed.

Lemma shrink_value_is_min_ratio_witness :
  let image : VipsImage := (200, 100) in
  let ratio := shrink_value image 64 64 in
  (ratio = (inject_Z 64 / inject_Z 200)%Q \/ ratio = (inject_Z 64 / inject_Z 100)%Q) /\
  (ratio <= inject_Z 64 / inject_Z 200)%Q /\ (ratio <= inject_Z 64 / inject_Z 100)%Q /\
  ((ratio <= 1)%Q <-> (64 <= 200 \/ 64 <= 100)).
Proof.
  intros image. apply (proj1 shrink_value_is_min_ratio image 64 64); reflexivity.
Defined.

(** C4 as stated fails: a 32 x 32 original gets the ratio 2 for the 64 x 64
    box, and the variant read back is 64 x 64. *)
Lemma shrink_value_enlarges_small_image :
  let image : VipsImage := (32, 32) in
  vips_jpegload_buffer image_a = Some image /\
  (shrink_value image 64 64 == 2)%Q /\
  ~ (shrink_value image 64 64 <= 1)%Q /\
  fst <$> (match do_read "a" (code_of_resolution RES_THUMB) store2_a with
           | Ret r _ => Some r
           | _ => None
           end) = Some [xff; x40; x40].
Proof.
  split; [reflexivity|]. split; [vm_compute; reflexivity|].
  split; [|vm_compute; reflexivity]. vm_compute. intros Hle. apply Hle. reflexivity.
Qed.

Lemma reachable_created2_a : reachable created2_a.
Proof.
  apply (reachable_insert (created 2) image_a "a").
  - apply (reachable_create empty_fs "store" (caller_header 2)).
    + vm_compute. split; [discriminate|reflexivity].
    + vm_compute. reflexivity.
  - vm_compute. reflexivity.
Qed.

Lemma num_files_counts_valid_slots_witness :
  num_files (header created2_a) <= max_files (header created2_a) /\
  num_files (header created2_a) = count_valid (metadata created2_a) /\
  (forall image_buffer id s',
     do_insert image_buffer id created2_a = Ret tt s' ->
     num_files (header s') = num_files (header created2_a) + 1) /\
  (forall id s',
     do_delete id created2_a = Ret tt s' ->
     num_files (header s') = num_files (header created2_a) - 1).
Proof.
  apply (num_files_counts_valid_slots created2_a). exact reachable_created2_a.
Defined.

Lemma do_insert_full_witness :
  do_insert image_b "b" created1_a = Exit ERR_FULL_IMGSTORE created1_a /\
  num_files (header created1_a) = 1.
Proof.
  split.
  - apply (proj1 do_insert_full image_b "b" created1_a). vm_compute. discriminate.
  - apply (proj2 do_insert_full empty_fs "store" (caller_header 1) (created 1)
                 image_a "a" created1_a image_b "b").
    + reflexivity.
    + vm_compute. reflexivity.
    + vm_compute. reflexivity.
Defined.

Lemma do_read_twice_witness :
  let s1 := state_of (do_read "a" (code_of_resolution RES_SMALL) store2_a) in
  do_read "a" (code_of_resolution RES_SMALL) store2_a = Ret ([xff; x00; x00], 3) s1 /\
  do_read "a" (code_of_resolution RES_SMALL) s1 = Ret ([xff; x00; x00], 3) s1 /\
  (forall r, resolution_of_code (code_of_resolution RES_SMALL) = Some r -> r <> RES_ORIG ->
     exists idx m,
       findMetadataIndex "a" s1 = Ret idx s1 /\ metadata s1 !! idx = Some m /\
       res_get (offset m) r <> 0).
Proof.
  intros s1.
  assert (do_read "a" (code_of_resolution RES_SMALL) store2_a = Ret ([xff; x00; x00], 3) s1)
    as Hfirst by (vm_compute; reflexivity).
  split; [exact Hfirst|].
  exact (do_read_twice "a" (code_of_resolution RES_SMALL) store2_a [xff; x00; x00] 3 s1 Hfirst).
Defined.

Lemma do_open_truncated_witness :
  do_open truncated_fs "store" "rb+" = Some (inl ERR_IO) /\
  forall absent, fs_file truncated_fs absent = None ->
                 do_open truncated_fs absent "rb+" = Some (inl ERR_IO).
Proof.
  apply (do_open_truncated truncated_fs "store" "rb+" (header store2) [zero_metadata] []).
  - right. reflexivity.
  - vm_compute. reflexivity.
  - vm_compute. split; [discriminate|reflexivity].
  - vm_compute. reflexivity.
  - vm_compute. reflexivity.
Defined.

(** C8 as stated fails: the truncated file and the missing file get the
    same code, [ERR_IO]. *)
Lemma do_open_truncated_same_code_as_missing :
  do_open truncated_fs "store" "rb" = Some (inl ERR_IO) /\
  do_open truncated_fs "absent" "rb" = Some (inl ERR_IO) /\
  ~ (do_open truncated_fs "store" "rb" <> do_open truncated_fs "absent" "rb").
Proof.
  split; [vm_compute; reflexivity|]. split; [vm_compute; reflexivity|].
  intros Hne. apply Hne. vm_compute. reflexivity.
Qed.

Lemma version_bumped_by_insert_and_delete_only_witness :
  imgst_version (header store2_a) = uint32 (imgst_version (header store2) + 1) /\
  imgst_version (header store2_b) = uint32 (imgst_version (header store2_ab) + 1) /\
  header (state_of (do_read "a" (code_of_resolution RES_SMALL) store2_a)) = header store2_a.
Proof.
  split; [|split].
  - apply (proj1 version_bumped_by_insert_and_delete_only image_a "a" store2 store2_a).
    exact do_insert_store2.
  - apply (proj1 (proj2 version_bumped_by_insert_and_delete_only) "a" store2_ab store2_b).
    exact do_delete_store2_ab.
  - apply (proj2 (proj2 (proj2 version_bumped_by_insert_and_delete_only))
             "a" (code_of_resolution RES_SMALL) store2_a ([xff; x00; x00], 3)).
    vm_compute. reflexivity.
Defined.

(** C9 as stated fails: the first read of the SMALL variant rewrites the
    slot, in the handle and in the file, and the version stays at 1. *)
Lemma materialization_keeps_version :
  let s1 := state_of (do_read "a" (code_of_resolution RES_SMALL) store2_a) in
  do_read "a" (code_of_resolution RES_SMALL) store2_a = Ret ([xff; x00; x00], 3) s1 /\
  metadata s1 <> metadata store2_a /\
  slots_of s1 <> slots_of store2_a /\
  imgst_version (header store2_a) = 1 /\
  imgst_version (header s1) = 1 /\
  header_of s1 = Some (header store2_a).
Proof.
  intros s1. split; [vm_compute; reflexivity|].
  split; [vm_compute; discriminate|]. split; [vm_compute; discriminate|].
  split; [vm_compute; reflexivity|]. split; vm_compute; reflexivity.
Qed.

Lemma mirrored_store2_ab : mirrored store2_ab.
Proof.
  exists (slots_of store2_ab), (heap_of store2_ab).
  split; [vm_compute; reflexivity|]. split; [vm_compute; reflexivity|].
  intros i m Hm _.
  assert (slots_of store2_ab = metadata store2_ab) as -> by (vm_compute; reflexivity).
  exact Hm.
Qed.

Lemma do_delete_frame_witness :
  exists idx m,
    metadata store2_ab !! idx = Some m /\ img_id m = "a"%string /\ valid m /\
    metadata store2_b = <[idx := set_is_valid EMPTY m]> (metadata store2_ab) /\
    header store2_b = deleted_header (header store2_ab) /\
    f_mode (file store2_b) = f_mode (file store2_ab) /\
    header_of store2_b = Some (deleted_header (header store2_ab)) /\
    slots_of store2_ab !! idx = Some m /\
    slots_of store2_b = <[idx := set_is_valid EMPTY m]> (slots_of store2_ab) /\
    heap_of store2_b = heap_of store2_ab.
Proof.
  apply (do_delete_frame "a" store2_ab store2_b).
  - exact mirrored_store2_ab.
  - exact do_delete_store2_ab.
Defined.

End Instances.
(** * The further properties on the small stores *)

Section MoreInstances.
#[local] Existing Instance small_external.

Lemma store_inv_store2 : store_inv store2.
Proof.
  unfold store_inv. split_and!; try (vm_compute; reflexivity); try exact handle_ok_store2.
  vm_compute. discriminate.
Qed.

Lemma store_wf_store2 : store_wf store2.
Proof.
  change store2 with (ImgstFile (file store2) (header store2) (replicate 2 zero_metadata)).
  apply store_wf_zero; [exact store_inv_store2|vm_compute; reflexivity].
Qed.

Lemma store_wf_store2_a : store_wf store2_a.
Proof. exact (store_wf_insert_Ret _ _ _ _ _ store_wf_store2 do_insert_store2). Qed.

Lemma store_wf_store2_ab : store_wf store2_ab.
Proof. exact (store_wf_insert_Ret _ _ _ _ _ store_wf_store2_a do_insert_store2_a). Qed.

Lemma store_inv_store2_a : store_inv store2_a.
Proof. exact (proj1 store_wf_store2_a). Qed.

Lemma handle_ok_store2_a : handle_ok store2_a.
Proof. exact (proj1 store_inv_store2_a). Qed.

Lemma metadata_store2_a : metadata store2_a = [slot_a; zero_metadata].
Proof. vm_compute. reflexivity. Qed.

Lemma found_at_slot_a : found_at "a" store2_a 0 slot_a.
Proof.
  unfold found_at. split_and!; [vm_compute; reflexivity|reflexivity| |intros k mk Hk; lia].
  unfold valid. vm_compute. discriminate.
Qed.

Lemma only_slot_a k mk :
  metadata store2_a !! k = Some mk -> valid mk -> k = 0%nat /\ mk = slot_a.
Proof.
  rewrite metadata_store2_a. intros Hmk Hv.
  destruct k as [|[|k]]; simpl in Hmk; try discriminate; injection Hmk as <-; [done|].
  exfalso. apply Hv. reflexivity.
Qed.

Lemma shaCompare_zero_iff_witness :
  (shaCompare (SHA256 image_a) (SHA256 image_b) = 0 <-> SHA256 image_a = SHA256 image_b) /\
  shaCompare (SHA256 image_b) (SHA256 image_a) = - shaCompare (SHA256 image_a) (SHA256 image_b) /\
  (shaCompare (SHA256 image_a) (SHA256 image_b) = -1 \/
   shaCompare (SHA256 image_a) (SHA256 image_b) = 0 \/
   shaCompare (SHA256 image_a) (SHA256 image_b) = 1).
Proof. apply (shaCompare_zero_iff (SHA256 image_a) (SHA256 image_b)); reflexivity. Defined.

Lemma sha_to_string_shaCompare_witness :
  String.length (sha_to_string (SHA256 image_a)) = (2 * SHA256_DIGEST_LENGTH)%nat /\
  (sha_to_string (SHA256 image_a) = sha_to_string (SHA256 image_b) <->
   shaCompare (SHA256 image_a) (SHA256 image_b) = 0).
Proof. exact (sha_to_string_shaCompare (SHA256 image_a) (SHA256 image_b)). Defined.

Lemma resolution_atoi_names_witness :
  resolution_atoi "thumbnail" = code_of_resolution RES_THUMB /\
  resolution_atoi "Thumb" = NOT_RES.
Proof.
  split.
  - apply (proj1 (resolution_atoi_names "thumbnail") RES_THUMB). simpl.
    rewrite !elem_of_cons. by right; left.
  - reflexivity.
Defined.

Lemma create_name_inj_witness :
  create_name "a" 0 = inr "a_thumb.jpg"%string /\
  ("a"%string = "a"%string /\ 0 = 0).
Proof.
  split; [reflexivity|].
  apply (proj2 create_name_inj "a" 0 "a" 0 "a_thumb.jpg"); reflexivity.
Defined.

Lemma do_delete_fails_iff_witness :
  ((num_files (header store2_a) <= 0 \/ absent "zz" store2_a) <->
   do_delete "zz" store2_a = Exit ERR_FILE_NOT_FOUND store2_a) /\
  (forall e s', do_delete "zz" store2_a = Exit e s' -> e = ERR_FILE_NOT_FOUND /\ s' = store2_a).
Proof. apply (do_delete_fails_iff "zz" store2_a); vm_compute; reflexivity. Defined.

Lemma do_read_fails_witness :
  (resolution_of_code 7 = None -> do_read "a" 7 store2_a = Exit ERR_RESOLUTIONS store2_a) /\
  (resolution_of_code 7 <> None -> absent "a" store2_a ->
   do_read "a" 7 store2_a = Exit ERR_FILE_NOT_FOUND store2_a).
Proof. apply (do_read_fails "a" 7 store2_a). vm_compute. reflexivity. Defined.

Lemma do_read_materializes_witness :
  exists s',
    do_read "a" (code_of_resolution RES_THUMB) store2_a = Ret (thumb_a, 3) s' /\
    materialized_at store2_a s' 0 slot_a RES_THUMB thumb_a /\
    header s' = header store2_a /\ heap_of s' = heap_of store2_a ++ thumb_a.
Proof.
  apply (do_read_materializes "a" RES_THUMB store2_a 0 slot_a image_a thumb_a).
  - exact handle_ok_store2_a.
  - reflexivity.
  - exact found_at_slot_a.
  - discriminate.
  - reflexivity.
  - vm_compute. reflexivity.
  - vm_compute. reflexivity.
  - discriminate.
  - vm_compute. reflexivity.
Defined.

Lemma found_at_read_only : found_at "a" (read_only store2_a) 0 slot_a.
Proof. exact found_at_slot_a. Qed.

Lemma handle_ok_read_only : handle_ok (read_only store2_a).
Proof.
  split; [vm_compute; reflexivity|].
  exists (header store2_a), (slots_of store2_a), (heap_of store2_a).
  split; vm_compute; reflexivity.
Qed.

Lemma do_read_read_only_witness :
  do_read "a" (code_of_resolution RES_ORIG) (read_only store2_a)
  = Ret (image_a, res_get (size slot_a) RES_ORIG) (read_only store2_a) /\
  do_read "a" (code_of_resolution RES_THUMB) (read_only store2_a) = Stuck.
Proof.
  split.
  - apply (do_read_read_only "a" RES_ORIG (read_only store2_a) 0 slot_a).
    + exact handle_ok_read_only.
    + reflexivity.
    + exact found_at_read_only.
    + vm_compute. discriminate.
    + vm_compute. reflexivity.
  - apply (proj2 (do_read_read_only "a" RES_THUMB (read_only store2_a) 0 slot_a
                    handle_ok_read_only eq_refl found_at_read_only) image_a thumb_a).
    + discriminate.
    + reflexivity.
    + vm_compute. reflexivity.
    + vm_compute. reflexivity.
Defined.

Lemma store_wf_run_witness : store_wf store2_a_b.
Proof.
  apply (store_wf_run (Insert image_b "b") store2_a store2_a_b).
  - exact store_wf_store2_a.
  - vm_compute. reflexivity.
Defined.

Lemma do_create_then_open_witness :
  store_wf (created 2) /\
  header (created 2)
  = ImgstHeader CAT_TXT 0 0 (max_files (caller_header 2)) (res_resized (caller_header 2))
                (unused_32 (caller_header 2)) (unused_64 (caller_header 2)) /\
  metadata (created 2) = replicate (Z.to_nat (max_files (caller_header 2))) zero_metadata /\
  forall fs' name' open_mode,
    fs_file fs' name' = Some (f_data (file (created 2))) ->
    open_mode = "rb"%string \/ open_mode = "rb+"%string ->
    exists s',
      do_open fs' name' open_mode = Some (inr s') /\
      header s' = header (created 2) /\ metadata s' = metadata (created 2) /\
      f_data (file s') = f_data (file (created 2)) /\
      (forall id, absent id s') /\
      (open_mode = "rb+"%string -> store_wf s').
Proof.
  apply (do_create_then_open empty_fs "store" (caller_header 2) (created 2)).
  - vm_compute. split; [discriminate|reflexivity].
  - vm_compute. reflexivity.
Defined.

Lemma do_read_undisturbed_witness :
  do_read "a" (code_of_resolution RES_ORIG) store2_a_b = Ret (image_a, 4) store2_a_b.
Proof.
  apply (do_read_undisturbed (Insert image_b "b") store2_a store2_a_b "a").
  - exact store_inv_store2_a.
  - vm_compute. reflexivity.
  - discriminate.
  - vm_compute. reflexivity.
Defined.

Lemma do_insert_store2_ab_full :
  do_insert image_b "c" store2_ab = Exit ERR_FULL_IMGSTORE store2_ab.
Proof. vm_compute. reflexivity. Qed.

Lemma do_insert_error_causes_witness :
  (ERR_FULL_IMGSTORE = ERR_FULL_IMGSTORE /\
   max_files (header store2_ab) <= num_files (header store2_ab) /\ store2_ab = store2_ab) \/
  (ERR_FULL_IMGSTORE = ERR_DUPLICATE_ID /\
   exists k mk, metadata store2_ab !! k = Some mk /\ valid mk /\
                strncmp "c" (img_id mk) MAX_IMG_ID = 0) \/
  (ERR_FULL_IMGSTORE = ERR_IO /\ image_b = []) \/
  (ERR_FULL_IMGSTORE = ERR_IMGLIB /\ vips_jpegload_buffer image_b = None).
Proof.
  apply (do_insert_error_causes image_b "c" store2_ab ERR_FULL_IMGSTORE store2_ab).
  - exact (proj1 store_wf_store2_ab).
  - exact do_insert_store2_ab_full.
Defined.

Lemma do_insert_succeeds_witness :
  exists s' index m0 m',
    do_insert image_b "b" store2_a = Ret tt s' /\
    metadata store2_a !! index = Some m0 /\ is_valid m0 = 0 /\
    (forall k, (k < index)%nat -> exists m, metadata store2_a !! k = Some m /\ valid m) /\
    metadata s' = <[index := m']> (metadata store2_a) /\
    img_id m' = "b"%string /\ valid m' /\ SHA m' = SHA256 image_b /\
    num_files (header s') = num_files (header store2_a) + 1.
Proof.
  apply (do_insert_succeeds image_b "b" store2_a).
  - exact store_inv_store2_a.
  - vm_compute. reflexivity.
  - unfold MAX_IMG_ID. simpl. lia.
  - intros k mk Hmk Hv. destruct (only_slot_a k mk Hmk Hv) as [_ ->]. vm_compute. discriminate.
  - vm_compute. discriminate.
  - discriminate.
Defined.

Lemma do_insert_not_an_image_witness :
  exists s',
    do_insert not_an_image "c" store2_a = Exit ERR_IMGLIB s' /\
    header s' = header store2_a /\ header_of s' = header_of store2_a /\
    slots_of s' = slots_of store2_a /\
    heap_of s' = heap_of store2_a ++ not_an_image /\
    is_valid <$> metadata s' = is_valid <$> metadata store2_a.
Proof.
  apply (do_insert_not_an_image not_an_image "c" store2_a).
  - exact store_inv_store2_a.
  - vm_compute. reflexivity.
  - intros k mk Hmk Hv. destruct (only_slot_a k mk Hmk Hv) as [_ ->]. vm_compute. discriminate.
  - intros k mk Hmk Hv. destruct (only_slot_a k mk Hmk Hv) as [_ ->]. vm_compute. discriminate.
  - discriminate.
  - reflexivity.
Defined.

Lemma handle_ok_store2_freed : handle_ok store2_freed.
Proof.
  split; [vm_compute; reflexivity|].
  exists (header store2_freed), (slots_of store2_freed), (heap_of store2_freed).
  split; vm_compute; reflexivity.
Qed.

Lemma do_insert_inherits_variants_witness :
  exists index m0 m',
    metadata store2_freed !! index = Some m0 /\ is_valid m0 = 0 /\
    found_at "b" store2_reused index m' /\
    forall r, r <> RES_ORIG ->
      res_get (offset m') r = res_get (offset m0) r /\
      res_get (size m') r = res_get (size m0) r /\
      forall bs,
        res_get (offset m0) r <> 0 -> readable (f_mode (file store2_freed)) = true ->
        read_bytes (res_get (offset m0) r) (res_get (size m0) r) (f_data (file store2_freed))
        = Some (Some bs) ->
        do_read "b" (code_of_resolution r) store2_reused
        = Ret (bs, res_get (size m0) r) store2_reused.
Proof.
  apply (do_insert_inherits_variants image_b "b" store2_freed store2_reused).
  - exact handle_ok_store2_freed.
  - unfold MAX_IMG_ID. simpl. lia.
  - vm_compute. reflexivity.
  - intros k mk Hmk Hv. exfalso.
    assert (metadata store2_freed !! k = Some mk -> is_valid mk = 0) as Hz.
    { destruct k as [|[|k]]; vm_compute; intros [= <-]; reflexivity. }
    apply Hv. by apply Hz.
Defined.

(** The thumbnail of the image inserted into the slot of a deleted one is
    the thumbnail of the deleted image, not the image resized. *)
Lemma reused_slot_serves_old_thumbnail :
  do_read "b" (code_of_resolution RES_THUMB) store2_reused = Ret (thumb_a, 3) store2_reused /\
  do_read "b" (code_of_resolution RES_ORIG) store2_reused = Ret (image_b, 4) store2_reused /\
  resized_variant (header store2_reused) (code_of_resolution RES_THUMB) image_b = Some thumb_b.
Proof. split_and!; vm_compute; reflexivity. Qed.

Lemma do_delete_then_absent_witness :
  absent "a" store2_b /\
  (forall resolution, resolution_of_code resolution <> None ->
                      do_read "a" resolution store2_b = Exit ERR_FILE_NOT_FOUND store2_b) /\
  do_delete "a" store2_b = Exit ERR_FILE_NOT_FOUND store2_b.
Proof.
  apply (do_delete_then_absent "a" store2_ab store2_b).
  - vm_compute. reflexivity.
  - exact (proj1 (proj2 (proj2 store_wf_store2_ab))).
  - exact do_delete_store2_ab.
Defined.

Lemma reopen_serves_the_same_witness :
  exists s',
    do_open (holding store2_a) "store" "rb" = Some (inr s') /\
    header s' = header store2_a /\ f_data (file s') = f_data (file store2_a) /\
    (forall k m, valid m -> metadata s' !! k = Some m <-> metadata store2_a !! k = Some m) /\
    ("rb"%string = "rb+"%string -> store_wf s') /\
    (forall id resolution result,
       do_read id resolution store2_a = Ret result store2_a ->
       do_read id resolution s' = Ret result s').
Proof.
  apply (reopen_serves_the_same store2_a (holding store2_a) "store" "rb").
  - exact store_wf_store2_a.
  - vm_compute. reflexivity.
  - reflexivity.
  - by left.
Defined.

Lemma insert_survives_reopen_witness :
  exists s2,
    do_open (holding store2_a) "store" "rb" = Some (inr s2) /\
    do_read "a" (code_of_resolution RES_ORIG) s2 = Ret (image_a, Z.of_nat (length image_a)) s2.
Proof.
  apply (insert_survives_reopen image_a "a" store2 store2_a (holding store2_a) "store" "rb").
  - exact store_wf_store2.
  - exact originals_ok_store2.
  - apply collision_free_store2.
  - unfold MAX_IMG_ID. simpl. lia.
  - vm_compute. reflexivity.
  - vm_compute. reflexivity.
  - exact do_insert_store2.
  - reflexivity.
  - by left.
Defined.

Lemma do_list_lists_valid_witness :
  do_list store2_ab
  = Some (print_header (header store2_ab) +:+
          (if decide (filter valid (metadata store2_ab) = [])
           then "<< empty imgStore >>" +:+ newline
           else listing (metadata store2_ab))) /\
  Z.of_nat (length (filter valid (metadata store2_ab))) = num_files (header store2_ab).
Proof.
  apply (do_list_lists_valid store2_ab).
  - vm_compute. reflexivity.
  - exact (proj2 (proj2 (proj2 store_wf_store2_ab))).
  - exact (proj1 (proj2 (proj2 (proj2 (proj1 store_wf_store2_ab))))).
Defined.

Lemma file_only_grows_witness :
  exists appended,
    heap_of store2_a_b = heap_of store2_a ++ appended /\
    length (slots_of store2_a_b) = length (slots_of store2_a) /\
    file_size (f_data (file store2_a_b))
    = file_size (f_data (file store2_a)) + Z.of_nat (length appended) /\
    (forall id, Insert image_b "b" = Delete id -> appended = []).
Proof.
  apply (file_only_grows (Insert image_b "b") store2_a store2_a_b).
  - exact store_inv_store2_a.
  - vm_compute. reflexivity.
Defined.

Lemma calls_stay_in_bounds_witness :
  run (Insert image_b "a") store2_a <> None /\ run (Delete "a") store2_a <> None.
Proof. apply (calls_stay_in_bounds image_b "a" store2_a). exact store_inv_store2_a. Defined.

Lemma do_list_cmd_lists_witness :
  exists fs',
    do_list_cmd 2 ["list"; "store"]%string (holding store2_a)
    = Some (ERR_NONE, fs',
            print_header (header store2_a) +:+
            (if decide (filter valid (metadata store2_a) = [])
             then "<< empty imgStore >>" +:+ newline
             else listing (metadata store2_a))) /\
    (forall n, fs_file fs' n = fs_file (holding store2_a) n) /\
    fs_creatable fs' = fs_creatable (holding store2_a).
Proof.
  apply (do_list_cmd_lists 2 ["list"; "store"]%string (holding store2_a) "store" store2_a).
  - vm_compute. discriminate.
  - reflexivity.
  - exact store_wf_store2_a.
  - vm_compute. reflexivity.
  - reflexivity.
Defined.

Lemma do_delete_cmd_deletes_witness :
  (absent "a" store2_a ->
   exists fs',
     do_delete_cmd 3 ["delete"; "store"; "a"]%string (holding store2_a)
     = Some (ERR_FILE_NOT_FOUND, fs') /\
     forall n, fs_file fs' n = fs_file (holding store2_a) n) /\
  (~ absent "a" store2_a ->
   exists fs' s',
     do_delete_cmd 3 ["delete"; "store"; "a"]%string (holding store2_a) = Some (ERR_NONE, fs') /\
     (forall n, n <> "store"%string -> fs_file fs' n = fs_file (holding store2_a) n) /\
     do_open fs' "store" "rb+" = Some (inr s') /\ store_wf s' /\
     absent "a" s' /\ num_files (header s') = num_files (header store2_a) - 1 /\
     forall id' resolution result,
       id' <> "a"%string -> do_read id' resolution store2_a = Ret result store2_a ->
       do_read id' resolution s' = Ret result s').
Proof.
  apply (do_delete_cmd_deletes 3 ["delete"; "store"; "a"]%string (holding store2_a)
           "store" "a" store2_a).
  - vm_compute. discriminate.
  - reflexivity.
  - reflexivity.
  - reflexivity.
  - exact store_wf_store2_a.
  - vm_compute. reflexivity.
  - reflexivity.
Defined.

Lemma do_insert_cmd_then_do_read_cmd_witness :
  exists fs1 fs2,
    do_insert_cmd 4 ["insert"; "store"; "a"; "a.jpg"]%string (holding store2) image_files
    = Some (ERR_NONE, fs1) /\
    (forall n, n <> "store"%string -> fs_file fs1 n = fs_file (holding store2) n) /\
    do_read_cmd 3 ["read"; "store"; "a"]%string fs1
    = Some (ERR_NONE, fs2, Some (name_of_image "a" RES_ORIG, image_a)) /\
    (forall n, fs_file fs2 n = fs_file fs1 n).
Proof.
  apply (do_insert_cmd_then_do_read_cmd
           4 ["insert"; "store"; "a"; "a.jpg"]%string 3 ["read"; "store"; "a"]%string
           (holding store2) image_files "store" "a" "a.jpg" image_a store2).
  - vm_compute. discriminate.
  - reflexivity.
  - reflexivity.
  - reflexivity.
  - left. split; reflexivity.
  - reflexivity.
  - reflexivity.
  - reflexivity.
  - reflexivity.
  - discriminate.
  - vm_compute. reflexivity.
  - discriminate.
  - exact store_wf_store2.
  - exact originals_ok_store2.
  - apply collision_free_store2.
  - vm_compute. reflexivity.
  - vm_compute. reflexivity.
  - intros k mk Hmk Hv. exfalso. rewrite metadata_store2 in Hmk.
    destruct k as [|[|k]]; simpl in Hmk; try discriminate;
      injection Hmk as <-; apply Hv; reflexivity.
  - reflexivity.
  - reflexivity.
  - discriminate.
Defined.

Lemma do_read_cmd_variant_once_witness :
  exists fs1 fs2 c1,
    do_read_cmd 4 ["read"; "store"; "a"; "thumb"]%string (holding store2_a)
    = Some (ERR_NONE, fs1, Some (name_of_image "a" RES_THUMB, thumb_a)) /\
    fs_file fs1 "store" = Some c1 /\
    file_size c1 = file_size (f_data (file store2_a)) + Z.of_nat (length thumb_a) /\
    (forall n, n <> "store"%string -> fs_file fs1 n = fs_file (holding store2_a) n) /\
    do_read_cmd 4 ["read"; "store"; "a"; "thumb"]%string fs1
    = Some (ERR_NONE, fs2, Some (name_of_image "a" RES_THUMB, thumb_a)) /\
    (forall n, fs_file fs2 n = fs_file fs1 n).
Proof.
  apply (do_read_cmd_variant_once 4 ["read"; "store"; "a"; "thumb"]%string (holding store2_a)
           "store" "a" RES_THUMB store2_a 0 slot_a image_a thumb_a).
  - right. split; [vm_compute; reflexivity|]. exists "thumb"%string. split; [reflexivity|].
    simpl. rewrite !elem_of_cons. by left.
  - discriminate.
  - reflexivity.
  - reflexivity.
  - reflexivity.
  - exact store_wf_store2_a.
  - vm_compute. reflexivity.
  - reflexivity.
  - exact found_at_slot_a.
  - reflexivity.
  - vm_compute. reflexivity.
  - vm_compute. reflexivity.
  - discriminate.
  - vm_compute. reflexivity.
  - reflexivity.
  - discriminate.
Defined.

Lemma holds_store_store2_a : holds_store (holding store2_a) "store".
Proof.
  exists store2_a. split_and!; [reflexivity|exact store_wf_store2_a|vm_compute; reflexivity].
Qed.

Lemma commands_keep_store_witness :
  (exists e fs' out,
     do_list_cmd 3 ["delete"; "store"; "a"]%string (holding store2_a) = Some (e, fs', out) /\
     holds_store fs' "store") /\
  (exists e fs',
     do_delete_cmd 3 ["delete"; "store"; "a"]%string (holding store2_a) = Some (e, fs') /\
     holds_store fs' "store") /\
  (forall e fs' written,
     do_read_cmd 3 ["delete"; "store"; "a"]%string (holding store2_a) = Some (e, fs', written) ->
     holds_store fs' "store") /\
  (forall images e fs',
     do_insert_cmd 3 ["delete"; "store"; "a"]%string (holding store2_a) images = Some (e, fs') ->
     holds_store fs' "store").
Proof.
  apply (commands_keep_store 3 ["delete"; "store"; "a"]%string (holding store2_a) "store").
  - vm_compute. discriminate.
  - reflexivity.
  - exact holds_store_store2_a.
Defined.

End MoreInstances.
